(** * Posture analysis from pose landmarks

    A shallow embedding of [PostureEstimation/posture_analyzer.py]: the
    geometry helpers [find_distance] and [find_angle], the classifier
    [analyze_posture] and the overlay renderer [draw_pose_annotations],
    together with the properties the specification states about them.
    Frame acquisition ([process_frame]) and the thresholds that [app.py]
    serves are embedded as well, with further properties read off the code.

    Numbers are modelled the way CPython has them.  A Python [int] is a [Z].
    A Python [float] is an IEEE-754 binary64 value, taken from the Standard
    Library's [SpecFloat] with precision 53 and maximal exponent 1024, so
    that multiplication, division, square root, comparison and the
    conversions between [int] and [float] round exactly as the interpreter
    does.  The two transcendental library calls of [find_angle],
    [math.atan2] and [math.degrees], have no bit-exact definition; they are
    modelled by the real functions they approximate, and what is proved of
    an angle is either exact in the library too or stated with a margin of a
    whole degree, far above the library's error.  The drawing calls of
    [cv2] are modelled on the points they accept, those that fit C ints. *)

From Stdlib Require Import ZArith Reals Lra Lia List String Ascii Bool.
From Stdlib Require Import SpecFloat DecimalString.
Import ListNotations.
Local Open Scope Z_scope.

(** ** Python values, exceptions and arithmetic *)

Module Py.

(** The exception classes that the analyser's arithmetic and look-ups can
    raise; [str] is what [str(e)] returns. *)
Inductive exn_kind :=
| IndexError
| AttributeError
| ValueError
| OverflowError
| ZeroDivisionError.

Record exn := Exn { kind : exn_kind; str : string }.

(** A computation either returns a value or raises. *)
Inductive result (A : Type) :=
| Return (a : A)
| Raise (e : exn).
Arguments Return {A} a.
Arguments Raise {A} e.

Definition bind {A B} (c : result A) (k : A -> result B) : result B :=
  match c with
  | Return a => k a
  | Raise e => Raise e
  end.

(** [try: body except (kinds) as e: handler e] *)
Definition try_except {A} (body : result A) (caught : exn_kind -> bool)
    (handler : exn -> result A) : result A :=
  match body with
  | Return a => Return a
  | Raise e => if caught (kind e) then handler e else Raise e
  end.


(** *** binary64 *)

Definition prec : Z := 53.
Definition emax : Z := 1024.
Definition float := spec_float.

Definition fmul : float -> float -> float := SFmul prec emax.
Definition fdiv : float -> float -> float := SFdiv prec emax.
Definition fsqrt : float -> float := SFsqrt prec emax.
Definition flt : float -> float -> bool := SFltb.
Definition fle : float -> float -> bool := SFleb.
Definition feq : float -> float -> bool := SFeqb.

(** The double nearest to the integer [n] (ties to even), infinite when
    [n] is beyond the range of doubles. *)
Definition Z2SF (n : Z) : float := binary_normalize prec emax n 0 false.

(** A decimal literal such as [0.5] or [0.2] denotes the double nearest
    to the fraction it spells; numerator and denominator are small
    integers, so the correctly rounded quotient is that double. *)
Definition literal (numerator denominator : Z) : float :=
  fdiv (Z2SF numerator) (Z2SF denominator).

Definition is_zero (f : float) : bool :=
  match f with
  | S754_zero _ => true
  | _ => false
  end.

Definition is_nan (f : float) : bool :=
  match f with
  | S754_nan => true
  | _ => false
  end.

Definition sign_bit (f : float) : bool :=
  match f with
  | S754_zero s | S754_infinity s | S754_finite s _ _ => s
  | S754_nan => false
  end.

(** The conversion an [int] undergoes wherever a [float] is expected. *)
Definition float_of_int (n : Z) : result float :=
  match Z2SF n with
  | S754_infinity _ =>
      Raise (Exn OverflowError "int too large to convert to float")
  | f => Return f
  end.

(** [int(f)]: truncation toward zero. *)
Definition int_of_float (f : float) : result Z :=
  match f with
  | S754_nan => Raise (Exn ValueError "cannot convert float NaN to integer")
  | S754_infinity _ =>
      Raise (Exn OverflowError "cannot convert float infinity to integer")
  | S754_zero _ => Return 0
  | S754_finite s m e => Return (cond_Zopp s (Z.shiftl (Zpos m) e))
  end.

(** [f * n] with [f] a float and [n] an int. *)
Definition float_mul_int (f : float) (n : Z) : result float :=
  bind (float_of_int n) (fun g => Return (fmul f g)).

(** [n / f] with [n] an int and [f] a float. *)
Definition int_truediv_float (n : Z) (f : float) : result float :=
  bind (float_of_int n) (fun g =>
    if is_zero f then Raise (Exn ZeroDivisionError "float division by zero")
    else Return (fdiv g f)).

(** Comparison of a float with an int is exact: no rounding of the int. *)
Definition float_compare_int (f : float) (n : Z) : option comparison :=
  match f with
  | S754_nan => None
  | S754_infinity s => Some (if s then Lt else Gt)
  | S754_zero _ => Some (0 ?= n)
  | S754_finite s m e =>
      let v := cond_Zopp s (Zpos m) in
      Some (if 0 <=? e then v * 2 ^ e ?= n else v ?= n * 2 ^ (- e))
  end.

Definition float_gt_int (f : float) (n : Z) : bool :=
  match float_compare_int f n with
  | Some Gt => true
  | _ => false
  end.

Definition int_lt_float (n : Z) (f : float) : bool := float_gt_int f n.

(** A number that is an [int] on one path and a [float] on another. *)
Inductive num :=
| PyInt (n : Z)
| PyFloat (f : float).

(** [a < f] for a float [f]. *)
Definition num_lt_float (a : num) (f : float) : bool :=
  match a with
  | PyInt n => int_lt_float n f
  | PyFloat g => flt g f
  end.

(** [a == n] for an int [n]. *)
Definition float_eq_int (f : float) (n : Z) : bool :=
  match float_compare_int f n with
  | Some Eq => true
  | _ => false
  end.

(** *** The [math] module *)

(** [math.sqrt] applied to an int. *)
Definition math_sqrt (n : Z) : result float :=
  bind (float_of_int n) (fun f =>
    match f with
    | S754_finite true _ _ | S754_infinity true =>
        Raise (Exn ValueError "math domain error")
    | _ => Return (fsqrt f)
    end).

(** The value of a library call on doubles, rounding left out: a real
    number, or not-a-number.  The double the C library returns is this
    number up to an error in its last bits, which the model does not have:
    what is proved of an angle below is either exact in the library too (the
    special cases of zero and infinite arguments) or stated with a margin of
    a whole degree. *)
Inductive xreal :=
| Xnan
| Xreal (r : R).

(** The real number a finite double stands for. *)
Definition SF2R (f : float) : R :=
  match f with
  | S754_finite s m e => (IZR (cond_Zopp s (Zpos m)) * powerRZ 2 e)%R
  | _ => 0%R
  end.

(** The two-argument arctangent on the reals, in (-PI, PI]. *)
Definition Ratan2 (y x : R) : R :=
  if Rlt_dec 0 x then atan (y / x)
  else if Rlt_dec x 0 then
    if Rle_dec 0 y then (atan (y / x) + PI)%R else (atan (y / x) - PI)%R
  else if Rlt_dec 0 y then (PI / 2)%R
  else if Rlt_dec y 0 then (- (PI / 2))%R
  else 0%R.

Definition signed (s : bool) (r : R) : R := if s then (- r)%R else r.

(** [atan2] on doubles, with the special cases of C99 Annex F. *)
Definition atan2 (y x : float) : xreal :=
  match y, x with
  | S754_nan, _ | _, S754_nan => Xnan
  | S754_infinity sy, S754_infinity sx =>
      Xreal (signed sy (if sx then 3 * PI / 4 else PI / 4))
  | S754_infinity sy, _ => Xreal (signed sy (PI / 2))
  | _, S754_infinity sx => Xreal (if sx then signed (sign_bit y) PI else 0)
  | S754_zero sy, _ => Xreal (if sign_bit x then signed sy PI else 0)
  | _, _ => Xreal (Ratan2 (SF2R y) (SF2R x))
  end.

(** [math.atan2] applied to two ints. *)
Definition math_atan2 (y x : Z) : result xreal :=
  bind (float_of_int y) (fun fy =>
  bind (float_of_int x) (fun fx =>
  Return (atan2 fy fx))).

(** [math.degrees]. *)
Definition math_degrees (a : xreal) : xreal :=
  match a with
  | Xnan => Xnan
  | Xreal r => Xreal (r * (180 / PI))
  end.

(** Truncation of a real toward zero. *)
Definition Rtrunc (r : R) : Z :=
  if Rle_dec 0 r then Int_part r else - Int_part (- r).

(** [int(a)] for the result of a library call. *)
Definition int_of_xreal (a : xreal) : result Z :=
  match a with
  | Xnan => Raise (Exn ValueError "cannot convert float NaN to integer")
  | Xreal r => Return (Rtrunc r)
  end.

(** A double that is plus zero or positive and finite: what a
    non-negative int within the range of doubles converts to. *)
Definition nonneg_finite (f : float) : Prop :=
  f = S754_zero false \/ exists m e, f = S754_finite false m e.

(** A well-formed double whose value lies between 0 and 1. *)
Definition unit_interval (c : float) : bool :=
  valid_binary prec emax c && fle (Z2SF 0) c && fle c (Z2SF 1).

(** A well-formed finite double of magnitude below [2 ^ k]. *)
Definition magnitude_below (k : Z) (c : float) : bool :=
  match c with
  | S754_zero _ => true
  | S754_finite _ m e =>
      valid_binary prec emax c && (Zpos (digits2_pos m) + e <=? k)
  | _ => false
  end.

(** [str(n)] for an int. *)
Definition str_of_int (n : Z) : string :=
  NilZero.string_of_int (Z.to_int n).

End Py.

Import Py.

Declare Scope py_scope.
Delimit Scope py_scope with py.
Notation "x <- c ;; k" := (bind c (fun x => k))
  (at level 61, c at next level, right associativity) : py_scope.
Local Open Scope py_scope.

(** ** The collaborators: pose landmarks and frames *)

Module MediaPipe.

(** A landmark as the pose model reports it: normalised position and a
    visibility score, all Python floats. *)
Record landmark := Landmark { x : float; y : float; visibility : float }.

(** The members of [mp.solutions.pose.PoseLandmark] the analyser reads,
    with the list positions the pose model assigns to them. *)
Inductive PoseLandmark :=
| NOSE | LEFT_EYE | RIGHT_EYE | LEFT_EAR | RIGHT_EAR
| LEFT_SHOULDER | RIGHT_SHOULDER | LEFT_HIP | RIGHT_HIP.

Definition index (p : PoseLandmark) : nat :=
  match p with
  | NOSE => 0
  | LEFT_EYE => 2
  | RIGHT_EYE => 5
  | LEFT_EAR => 7
  | RIGHT_EAR => 8
  | LEFT_SHOULDER => 11
  | RIGHT_SHOULDER => 12
  | LEFT_HIP => 23
  | RIGHT_HIP => 24
  end%nat.

(** What [pose.process] returns: [pose_landmarks] is [None] when nobody
    was detected, else the list of landmarks. *)
Record pose_results := PoseResults { pose_landmarks : option (list landmark) }.

Definition landmark_at (lm : list landmark) (p : PoseLandmark)
    : option landmark :=
  nth_error lm (index p).

(** The model reports positions normalised to the frame: both coordinates
    in the unit interval. *)
Definition normalized (l : landmark) : bool :=
  unit_interval (x l) && unit_interval (y l).

(** A position that is a number of ordinary size, on the frame or off it:
    both coordinates finite and of magnitude below 2^32. *)
Definition on_scale (l : landmark) : bool :=
  magnitude_below 32 (x l) && magnitude_below 32 (y l).

End MediaPipe.

Module cv2.

Definition point : Type := Z * Z.
Definition colour : Type := Z * Z * Z.

(** What has been drawn on a frame, in drawing order. *)
Inductive draw_op :=
| Line (pt1 pt2 : point) (color : colour) (thickness : Z)
| PutText (text : string) (org : point) (fontFace : Z) (fontScale : float)
    (color : colour) (thickness : Z).

(** A frame: its [shape[:2]] and the drawings made on its pixels. *)
Record frame := Frame { rows : Z; cols : Z; drawn : list draw_op }.

Definition FONT_HERSHEY_SIMPLEX : Z := 0.

(** The drawing calls take their points as C ints and refuse, with an
    exception, a coordinate that does not fit 32 bits.  [fits] says that a
    point is one they accept; [line] and [putText] below are the calls on
    such points, and what is proved of the renderer is proved for them. *)
Definition in_int (v : Z) : bool := (- 2 ^ 31 <=? v) && (v <? 2 ^ 31).

Definition fits (p : point) : bool := in_int (fst p) && in_int (snd p).

Definition line (f : frame) (pt1 pt2 : point) (color : colour)
    (thickness : Z) : frame :=
  Frame (rows f) (cols f) (drawn f ++ [Line pt1 pt2 color thickness]).

Definition putText (f : frame) (text : string) (org : point) (fontFace : Z)
    (fontScale : float) (color : colour) (thickness : Z) : frame :=
  Frame (rows f) (cols f)
    (drawn f ++ [PutText text org fontFace fontScale color thickness]).

End cv2.

(** ** The analyser *)

(** The dictionary [analyze_posture] returns when it has classified. *)
Record assessment := Assessment {
  shoulder_offset : Z;
  shoulder_distance : float;
  neck_inclination : Z;
  torso_inclination : Z;
  forward_head_ratio : num;
  is_aligned : bool;
  is_neck_good : bool;
  is_torso_good : bool;
  is_head_position_good : bool;
  is_good_posture : bool;
  posture_assessment : list (string * string);
  visibility : list (string * float);
  landmarks : list (string * cv2.point)
}.

(** The two shapes of the returned dictionary: without landmarks (a message
    and, on one path, the visibility scores) or with the full assessment. *)
Inductive posture_data :=
| Unavailable (message : string) (visibility : option (list (string * float)))
| Full (a : assessment).

Definition has_landmarks (d : posture_data) : bool :=
  match d with
  | Unavailable _ _ => false
  | Full _ => true
  end.

(** Look-up in a dictionary kept as an association list. *)
Fixpoint get {V} (d : list (string * V)) (key : string) : option V :=
  match d with
  | [] => None
  | (k, v) :: rest => if String.eqb k key then Some v else get rest key
  end.

Definition keys {V} (d : list (string * V)) : list string := map fst d.

Definition find_distance (x1 y1 x2 y2 : Z) : result float :=
  math_sqrt ((x2 - x1) ^ 2 + (y2 - y1) ^ 2).

(** The handler of [find_angle] also writes a warning to the log, which is
    no part of the value returned. *)
Definition find_angle (x1 y1 x2 y2 : Z) : result Z :=
  try_except
    (a <- math_atan2 (Z.abs (x2 - x1)) (Z.abs (y2 - y1));;
     let angle := math_degrees a in
     int_of_xreal angle)
    (fun k => match k with
              | ZeroDivisionError | ValueError => true
              | _ => false
              end)
    (fun _ => Return 0).


(** The value [find_angle] returns when nothing is raised in it: the angle
    between the segment and the vertical, in whole degrees. *)
Definition inclination (dx dy : Z) : Z :=
  Rtrunc (Ratan2 (SF2R (Z2SF (Z.abs dx))) (SF2R (Z2SF (Z.abs dy))) * (180 / PI)).

(** The angle between a displacement and the vertical as a real number of
    degrees, of the doubles the two differences convert to (the differences
    themselves when they are below 2^53). *)
Definition degrees_to_vertical (dx dy : Z) : R :=
  (Ratan2 (SF2R (Z2SF (Z.abs dx))) (SF2R (Z2SF (Z.abs dy))) * (180 / PI))%R.

Definition visibility_threshold : float := literal 5 10.
Definition forward_head_threshold : float := literal 2 10.

Definition label (good : bool) (otherwise : string) : string :=
  if good then "Good"%string else otherwise.

(** [int(c * n)]: a normalised coordinate scaled to pixels. *)
Definition to_pixel (c : float) (n : Z) : result Z :=
  p <- float_mul_int c n;; int_of_float p.

Section Analyzer.

(** The text of the [IndexError] the landmark container raises for a
    position it does not have; it belongs to the container's library. *)
Variable index_error_text : nat -> string.

(** [lm[p]] *)
Definition getitem (lm : list MediaPipe.landmark) (p : MediaPipe.PoseLandmark)
    : result MediaPipe.landmark :=
  match MediaPipe.landmark_at lm p with
  | Some l => Return l
  | None => Raise (Exn IndexError (index_error_text (MediaPipe.index p)))
  end.

Definition no_pose : posture_data :=
  Unavailable "No pose landmarks detected." None.

(** The body of the [try] block of [analyze_posture]. *)
Definition analyze_landmarks (lm : list MediaPipe.landmark) (h w : Z)
    : result posture_data :=
  nose <- getitem lm MediaPipe.NOSE;;
  left_eye <- getitem lm MediaPipe.LEFT_EYE;;
  right_eye <- getitem lm MediaPipe.RIGHT_EYE;;
  left_ear <- getitem lm MediaPipe.LEFT_EAR;;
  right_ear <- getitem lm MediaPipe.RIGHT_EAR;;
  left_shoulder <- getitem lm MediaPipe.LEFT_SHOULDER;;
  right_shoulder <- getitem lm MediaPipe.RIGHT_SHOULDER;;
  left_hip <- getitem lm MediaPipe.LEFT_HIP;;
  right_hip <- getitem lm MediaPipe.RIGHT_HIP;;
  let landmarks_visibility :=
    [ ("l_shoulder"%string, MediaPipe.visibility left_shoulder);
      ("r_shoulder"%string, MediaPipe.visibility right_shoulder);
      ("l_ear"%string, MediaPipe.visibility left_ear);
      ("r_ear"%string, MediaPipe.visibility right_ear);
      ("l_hip"%string, MediaPipe.visibility left_hip);
      ("r_hip"%string, MediaPipe.visibility right_hip) ] in
  if flt (MediaPipe.visibility left_shoulder) visibility_threshold
     || flt (MediaPipe.visibility right_shoulder) visibility_threshold
     || flt (MediaPipe.visibility left_hip) visibility_threshold
  then
    Return (Unavailable "Key landmarks not visible enough"
              (Some landmarks_visibility))
  else
    l_shldr_x <- to_pixel (MediaPipe.x left_shoulder) w;;
    l_shldr_y <- to_pixel (MediaPipe.y left_shoulder) h;;
    r_shldr_x <- to_pixel (MediaPipe.x right_shoulder) w;;
    r_shldr_y <- to_pixel (MediaPipe.y right_shoulder) h;;
    l_ear_x <- to_pixel (MediaPipe.x left_ear) w;;
    l_ear_y <- to_pixel (MediaPipe.y left_ear) h;;
    r_ear_x <- to_pixel (MediaPipe.x right_ear) w;;
    r_ear_y <- to_pixel (MediaPipe.y right_ear) h;;
    l_hip_x <- to_pixel (MediaPipe.x left_hip) w;;
    l_hip_y <- to_pixel (MediaPipe.y left_hip) h;;
    r_hip_x <- to_pixel (MediaPipe.x right_hip) w;;
    r_hip_y <- to_pixel (MediaPipe.y right_hip) h;;
    let mid_shoulder_x := (l_shldr_x + r_shldr_x) / 2 in
    let mid_shoulder_y := (l_shldr_y + r_shldr_y) / 2 in
    let mid_hip_x := (l_hip_x + r_hip_x) / 2 in
    let mid_hip_y := (l_hip_y + r_hip_y) / 2 in
    let mid_ear_x := (l_ear_x + r_ear_x) / 2 in
    let mid_ear_y := (l_ear_y + r_ear_y) / 2 in
    let shoulder_offset := Z.abs (l_shldr_y - r_shldr_y) in
    shoulder_distance <- find_distance l_shldr_x l_shldr_y r_shldr_x r_shldr_y;;
    neck_inclination <-
      find_angle mid_shoulder_x mid_shoulder_y mid_ear_x mid_ear_y;;
    torso_inclination <-
      find_angle mid_hip_x mid_hip_y mid_shoulder_x mid_shoulder_y;;
    let forward_head_distance :=
      if mid_ear_x >? mid_shoulder_x then mid_ear_x - mid_shoulder_x else 0 in
    forward_head_ratio <-
      (if float_gt_int shoulder_distance 0
       then q <- int_truediv_float forward_head_distance shoulder_distance;;
            Return (PyFloat q)
       else Return (PyInt 0));;
    let is_aligned := shoulder_offset <? 30 in
    let is_neck_good := neck_inclination <? 35 in
    let is_torso_good := torso_inclination <? 10 in
    let is_head_position_good :=
      num_lt_float forward_head_ratio forward_head_threshold in
    let is_good_posture :=
      is_aligned && is_neck_good && is_torso_good && is_head_position_good in
    let posture_assessment :=
      [ ("shoulder_balance"%string, label is_aligned "Poor");
        ("neck_position"%string, label is_neck_good "Forward head posture");
        ("torso_position"%string, label is_torso_good "Slouching");
        ("overall"%string, label is_good_posture "Needs improvement") ] in
    Return (Full {|
      shoulder_offset := shoulder_offset;
      shoulder_distance := shoulder_distance;
      neck_inclination := neck_inclination;
      torso_inclination := torso_inclination;
      forward_head_ratio := forward_head_ratio;
      is_aligned := is_aligned;
      is_neck_good := is_neck_good;
      is_torso_good := is_torso_good;
      is_head_position_good := is_head_position_good;
      is_good_posture := is_good_posture;
      posture_assessment := posture_assessment;
      visibility := landmarks_visibility;
      landmarks :=
        [ ("mid_shoulder"%string, (mid_shoulder_x, mid_shoulder_y));
          ("mid_hip"%string, (mid_hip_x, mid_hip_y));
          ("mid_ear"%string, (mid_ear_x, mid_ear_y));
          ("l_shldr"%string, (l_shldr_x, l_shldr_y));
          ("r_shldr"%string, (r_shldr_x, r_shldr_y));
          ("l_ear"%string, (l_ear_x, l_ear_y));
          ("r_ear"%string, (r_ear_x, r_ear_y));
          ("l_hip"%string, (l_hip_x, l_hip_y));
          ("r_hip"%string, (r_hip_x, r_hip_y)) ]
    |}).

(** [results] is [None] when no frame was processed.  The [except] clause
    also writes the error to the log. *)
Definition analyze_posture (results : option MediaPipe.pose_results)
    (frame : cv2.frame) : result posture_data :=
  match results with
  | None => Return no_pose
  | Some res =>
      match MediaPipe.pose_landmarks res with
      | None => Return no_pose
      | Some lm =>
          let h := cv2.rows frame in
          let w := cv2.cols frame in
          try_except (analyze_landmarks lm h w)
            (fun k => match k with
                      | IndexError | AttributeError => true
                      | _ => false
                      end)
            (fun e =>
               Return (Unavailable
                         ("Error processing landmarks: " ++ str e) None))
      end
  end.

End Analyzer.

(** ** The renderer *)

Definition degree_sign : string :=
  String (ascii_of_nat 194) (String (ascii_of_nat 176) EmptyString).

(** The drawing done for a full assessment.  Each [cv2] call draws on the
    frame it is given; the frame is threaded through the calls. *)
Definition draw_assessment (frame : cv2.frame) (a : assessment) : cv2.frame :=
  let landmarks := landmarks a in
  let is_good_posture := is_good_posture a in
  let good_color := (0, 255, 0) in
  let bad_color := (0, 0, 255) in
  let color := if is_good_posture then good_color else bad_color in
  let frame :=
    match get landmarks "mid_shoulder", get landmarks "mid_ear" with
    | Some s, Some e => cv2.line frame s e color 2
    | _, _ => frame
    end in
  let frame :=
    match get landmarks "mid_shoulder", get landmarks "mid_hip" with
    | Some s, Some p => cv2.line frame s p color 2
    | _, _ => frame
    end in
  let frame :=
    match get landmarks "mid_shoulder" with
    | Some (mid_x, mid_y) =>
        cv2.line frame (mid_x, mid_y) (mid_x, mid_y - 150) (255, 255, 0) 2
    | None => frame
    end in
  let frame :=
    match get landmarks "l_shldr", get landmarks "r_shldr" with
    | Some l, Some r => cv2.line frame l r color 3
    | _, _ => frame
    end in
  let h := cv2.rows frame in
  let font := cv2.FONT_HERSHEY_SIMPLEX in
  let neck_angle := neck_inclination a in
  let torso_angle := torso_inclination a in
  let frame :=
    cv2.putText frame ("Neck: " ++ str_of_int neck_angle ++ degree_sign)
      (10, 30) font (literal 6 10) color 2 in
  let frame :=
    cv2.putText frame ("Torso: " ++ str_of_int torso_angle ++ degree_sign)
      (10, 60) font (literal 6 10) color 2 in
  match posture_assessment a with
  | [] => frame
  | labels =>
      let overall :=
        match get labels "overall" with
        | Some s => s
        | None => EmptyString
        end in
      cv2.putText frame ("Posture: " ++ overall) (10, h - 20) font
        (literal 6 10) color 2
  end.

(** [posture_data] is [None] when the caller has no assessment. *)
Definition draw_pose_annotations (frame : cv2.frame)
    (posture_data : option posture_data) : cv2.frame :=
  match posture_data with
  | None => frame
  | Some d =>
      if negb (has_landmarks d) then frame
      else
        match d with
        | Full a => draw_assessment frame a
        | Unavailable _ _ => frame
        end
  end.

(** ** Sample frames

    A frame of 640 by 400 pixels and landmark lists of the 33 entries the
    pose model reports, with chosen shoulders, ears and hips. *)

Module Sample.

Definition frame : cv2.frame := cv2.Frame 400 640 [].

(** A landmark at pixel [(px, py)] of [frame], with visibility [v]. *)
Definition at_pixel (px py : Z) (v : float) : MediaPipe.landmark :=
  MediaPipe.Landmark (literal px 640) (literal py 400) v.

Definition filler : MediaPipe.landmark := at_pixel 0 0 (literal 9 10).

Definition pose (l_ear r_ear l_shoulder r_shoulder l_hip r_hip
    : MediaPipe.landmark) : list MediaPipe.landmark :=
  repeat filler 7 ++ [l_ear; r_ear] ++ repeat filler 2
  ++ [l_shoulder; r_shoulder] ++ repeat filler 10
  ++ [l_hip; r_hip] ++ repeat filler 8.

Definition seen : float := literal 9 10.
Definition unseen : float := Z2SF 0.

(** Upright: ears straight above the shoulders. *)
Definition upright : list MediaPipe.landmark :=
  pose (at_pixel 110 150 seen) (at_pixel 130 150 seen)
       (at_pixel 100 200 seen) (at_pixel 140 200 seen)
       (at_pixel 100 350 seen) (at_pixel 140 350 seen).

(** Head forward: shoulder midpoint (120, 200), ear midpoint (160, 150). *)
Definition head_forward : list MediaPipe.landmark :=
  pose (at_pixel 150 150 seen) (at_pixel 170 150 seen)
       (at_pixel 100 200 seen) (at_pixel 140 200 seen)
       (at_pixel 100 350 seen) (at_pixel 140 350 seen).

(** As [upright], with both ears and the right hip not visible at all. *)
Definition ears_hidden : list MediaPipe.landmark :=
  pose (at_pixel 110 150 unseen) (at_pixel 130 150 unseen)
       (at_pixel 100 200 seen) (at_pixel 140 200 seen)
       (at_pixel 100 350 seen) (at_pixel 140 350 unseen).

(** As [upright], with the right shoulder at visibility 0.3. *)
Definition shoulder_hidden : list MediaPipe.landmark :=
  pose (at_pixel 110 150 seen) (at_pixel 130 150 seen)
       (at_pixel 100 200 seen) (at_pixel 140 200 (literal 3 10))
       (at_pixel 100 350 seen) (at_pixel 140 350 seen).

(** Both shoulders at one pixel: shoulder distance 0. *)
Definition shoulders_coincide : list MediaPipe.landmark :=
  pose (at_pixel 110 150 seen) (at_pixel 130 150 seen)
       (at_pixel 120 200 seen) (at_pixel 120 200 seen)
       (at_pixel 100 350 seen) (at_pixel 140 350 seen).

Definition results (lm : list MediaPipe.landmark)
    : option MediaPipe.pose_results :=
  Some (MediaPipe.PoseResults (Some lm)).

Definition index_error_text (i : nat) : string :=
  "list index out of range".

End Sample.

(** ** Frame acquisition

    [process_frame] hands a frame to the pose model unless the frame is
    missing or empty.  The pose model tracks the person from frame to frame:
    it is a collaborator with a state of its own, taken as a parameter. *)

(** [frame.size]: the number of array elements of a BGR frame, which has
    three channels. *)
Definition frame_size (frame : cv2.frame) : Z :=
  cv2.rows frame * cv2.cols frame * 3.

Section Detector.

(** [self.pose.process]: from the model's state and an image to the
    detection and the next state.  The conversion from BGR to RGB with
    [cv2.cvtColor] makes a copy, which is what the model receives; the frame
    itself is not written to. *)
Variable pose_state : Type.
Variable pose_process :
  pose_state -> cv2.frame -> MediaPipe.pose_results * pose_state.

(** [frame] is [None] when the capture gave nothing.  The warning written
    to the log for an empty frame is no part of the value returned. *)
Definition process_frame (pose : pose_state) (frame : option cv2.frame)
    : option MediaPipe.pose_results * pose_state :=
  match frame with
  | None => (None, pose)
  | Some image =>
      if frame_size image =? 0 then (None, pose)
      else
        let '(results, pose') := pose_process pose image in
        (Some results, pose')
  end.

End Detector.

(** ** The thresholds the web layer serves

    The dictionary [get_posture_thresholds] of [app.py] passes to
    [jsonify]. *)
Definition get_posture_thresholds : list (string * num) :=
  [ ("neck_angle_threshold"%string, PyInt 35);
    ("torso_angle_threshold"%string, PyInt 10);
    ("alignment_threshold"%string, PyInt 30);
    ("forward_head_threshold"%string, PyFloat (literal 2 10)) ].

(** A coordinate that is not-a-number or infinite. *)
Definition not_finite (c : float) : bool :=
  match c with
  | S754_nan | S754_infinity _ => true
  | _ => false
  end.

Definition off_scale (l : MediaPipe.landmark) : bool :=
  not_finite (MediaPipe.x l) || not_finite (MediaPipe.y l).

(** The colour a drawing is made in. *)
Definition overlay_colour (op : cv2.draw_op) : cv2.colour :=
  match op with
  | cv2.Line _ _ c _ => c
  | cv2.PutText _ _ _ _ c _ => c
  end.

(** A head held back: ears at smaller x than the shoulders. *)
Definition head_backward : list MediaPipe.landmark :=
  Sample.pose (Sample.at_pixel 70 150 Sample.seen)
              (Sample.at_pixel 90 150 Sample.seen)
              (Sample.at_pixel 100 200 Sample.seen)
              (Sample.at_pixel 140 200 Sample.seen)
              (Sample.at_pixel 100 350 Sample.seen)
              (Sample.at_pixel 140 350 Sample.seen).

(** The points the renderer hands to [cv2] for an assessment fit C ints:
    the points of the landmark map, the upper end of the reference line and
    the place of the last text. *)
Definition drawable (frame : cv2.frame) (a : assessment) : bool :=
  forallb (fun entry : string * cv2.point => cv2.fits (snd entry))
    (landmarks a)
  && match get (landmarks a) "mid_shoulder" with
     | Some (mid_x, mid_y) => cv2.fits (mid_x, mid_y - 150)
     | None => true
     end
  && cv2.fits (10, cv2.rows frame - 20).

(** As [Sample.upright], all six landmarks well visible, with the x
    coordinate of the left ear not a number. *)
Definition ear_lost : list MediaPipe.landmark :=
  Sample.pose (MediaPipe.Landmark S754_nan (literal 150 400) Sample.seen)
              (Sample.at_pixel 130 150 Sample.seen)
              (Sample.at_pixel 100 200 Sample.seen)
              (Sample.at_pixel 140 200 Sample.seen)
              (Sample.at_pixel 100 350 Sample.seen)
              (Sample.at_pixel 140 350 Sample.seen).

(** * Properties *)

(** ** The exception monad *)

Lemma bind_Return_inv {A B} (c : result A) (k : A -> result B) (b : B) :
  bind c k = Return b -> exists a, c = Return a /\ k a = Return b.
Proof.
  destruct c as [a|e]; simpl; intros H; [eauto | discriminate].
Qed.

Lemma bind_Raise_inv {A B} (c : result A) (k : A -> result B) (e : exn) :
  bind c k = Raise e ->
  c = Raise e \/ exists a, c = Return a /\ k a = Raise e.
Proof.
  destruct c as [a|e']; simpl; intros H; [right; eauto | left; congruence].
Qed.

(** ** Binary64: digits and shifts

    The Standard Library states the operations of [SpecFloat] and proves
    nothing about them; what the analyser's arithmetic needs is proved here:
    a result of rounding is in canonical form, keeps the sign, overflows only
    for magnitudes of [2 ^ 1023] and up, and grows by at most one binade. *)

Lemma digits2_pos_bounds (p : positive) :
  2 ^ (Zpos (digits2_pos p) - 1) <= Zpos p < 2 ^ Zpos (digits2_pos p).
Proof.
  induction p as [p IH | p IH | ]; cbn [digits2_pos].
  - rewrite Pos2Z.inj_succ.
    replace (Z.succ (Zpos (digits2_pos p)) - 1) with (Z.succ (Zpos (digits2_pos p) - 1)) by lia.
    rewrite !Z.pow_succ_r by lia. lia.
  - rewrite Pos2Z.inj_succ.
    replace (Z.succ (Zpos (digits2_pos p)) - 1) with (Z.succ (Zpos (digits2_pos p) - 1)) by lia.
    rewrite !Z.pow_succ_r by lia. lia.
  - simpl. lia.
Qed.

Lemma Zdigits2_nonneg (m : Z) : 0 <= Zdigits2 m.
Proof. destruct m; simpl; lia. Qed.

Lemma Zdigits2_upper (m : Z) : 0 <= m -> m < 2 ^ Zdigits2 m.
Proof.
  destruct m as [|p|p]; simpl; intros H; try lia.
  apply digits2_pos_bounds.
Qed.

Lemma Zdigits2_lower (m : Z) : 0 < m -> 2 ^ (Zdigits2 m - 1) <= m.
Proof.
  destruct m as [|p|p]; simpl; intros H; try lia.
  apply digits2_pos_bounds.
Qed.

Lemma Zdigits2_le (m k : Z) : 0 <= k -> 0 <= m < 2 ^ k -> Zdigits2 m <= k.
Proof.
  intros Hk [H0 Hm].
  destruct (Z.eq_dec m 0) as [->|Hne]; [simpl; lia|].
  destruct (Z_le_gt_dec (Zdigits2 m) k) as [|Hgt]; [assumption|exfalso].
  assert (2 ^ k <= 2 ^ (Zdigits2 m - 1)) by (apply Z.pow_le_mono_r; lia).
  pose proof (Zdigits2_lower m). lia.
Qed.

Lemma Zdigits2_ge (m k : Z) : 0 <= k -> 2 ^ k <= m -> k + 1 <= Zdigits2 m.
Proof.
  intros Hk Hm.
  assert (0 < 2 ^ k) by (apply Z.pow_pos_nonneg; lia).
  destruct (Z_le_gt_dec (k + 1) (Zdigits2 m)) as [|Hgt]; [assumption|exfalso].
  assert (2 ^ Zdigits2 m <= 2 ^ k).
  { apply Z.pow_le_mono_r; [lia|]. lia. }
  pose proof (Zdigits2_upper m). lia.
Qed.

Lemma Zdigits2_mono (a b : Z) : 0 <= a <= b -> Zdigits2 a <= Zdigits2 b.
Proof.
  intros [Ha Hab]. apply Zdigits2_le; [apply Zdigits2_nonneg|].
  pose proof (Zdigits2_upper b). lia.
Qed.

Lemma Zdigits2_succ (m : Z) : 0 <= m -> Zdigits2 (m + 1) <= Zdigits2 m + 1.
Proof.
  intros Hm. pose proof (Zdigits2_nonneg m) as Hd.
  apply Zdigits2_le; [lia|].
  pose proof (Zdigits2_upper m Hm).
  rewrite Z.pow_add_r by lia. change (2 ^ 1) with 2. lia.
Qed.

Lemma Zdigits2_div_pow (m k : Z) :
  0 <= m -> 0 <= k -> 0 < m / 2 ^ k -> Zdigits2 (m / 2 ^ k) = Zdigits2 m - k.
Proof.
  intros Hm Hk Hq.
  assert (Hp : 0 < 2 ^ k) by (apply Z.pow_pos_nonneg; lia).
  assert (Hge : 2 ^ k <= m).
  { destruct (Z_lt_le_dec m (2 ^ k)) as [Hlt|]; [|assumption].
    rewrite Z.div_small in Hq by lia. lia. }
  pose proof (Zdigits2_ge m k Hk Hge) as Hdk.
  apply Z.le_antisymm.
  - apply Zdigits2_le; [lia|]. split; [lia|].
    apply Z.div_lt_upper_bound; [lia|].
    rewrite <- Z.pow_add_r by lia.
    replace (k + (Zdigits2 m - k)) with (Zdigits2 m) by lia.
    apply Zdigits2_upper; lia.
  - assert (Zdigits2 m - k - 1 + 1 <= Zdigits2 (m / 2 ^ k)); [|lia].
    apply Zdigits2_ge; [lia|].
    apply Z.div_le_lower_bound; [lia|].
    rewrite <- Z.pow_add_r by lia.
    replace (k + (Zdigits2 m - k - 1)) with (Zdigits2 m - 1) by lia.
    apply Zdigits2_lower; lia.
Qed.

Lemma shr_1_m (r : shr_record) : 0 <= shr_m r -> shr_m (shr_1 r) = shr_m r / 2.
Proof.
  destruct r as [m rb sb]; simpl. intros Hm.
  destruct m as [|p|p]; [reflexivity| |lia].
  destruct p as [p|p|]; simpl.
  - rewrite Pos2Z.inj_xI. apply Z.div_unique with 1; lia.
  - rewrite Pos2Z.inj_xO. apply Z.div_unique with 0; lia.
  - reflexivity.
Qed.

Lemma iter_pos_shr_m (p : positive) :
  forall r, 0 <= shr_m r ->
    shr_m (iter_pos shr_1 p r) = shr_m r / 2 ^ Zpos p.
Proof.
  assert (Hpos : forall q, 0 < 2 ^ Zpos q) by (intros; apply Z.pow_pos_nonneg; lia).
  assert (Hdiv : forall a b, 0 <= a -> 0 < b -> 0 <= a / b)
    by (intros; apply Z.div_pos; lia).
  induction p as [p IH | p IH | ]; intros r Hr; cbn [iter_pos].
  - assert (H1 : 0 <= shr_m (shr_1 r)) by (rewrite shr_1_m by lia; apply Hdiv; lia).
    assert (Hpow : 2 ^ Zpos p~1 = 2 * (2 ^ Zpos p * 2 ^ Zpos p)).
    { rewrite <- Z.pow_add_r by lia. rewrite <- Z.pow_succ_r by lia. f_equal. lia. }
    pose proof (Hpos p) as Hp.
    rewrite IH by (rewrite IH by assumption; apply Hdiv; [assumption | apply Hpos]).
    rewrite IH by assumption.
    rewrite shr_1_m by lia. rewrite !Z.div_div by lia.
    rewrite Hpow. f_equal; lia.
  - assert (Hpow : 2 ^ Zpos p~0 = 2 ^ Zpos p * 2 ^ Zpos p).
    { rewrite <- Z.pow_add_r by lia. f_equal. lia. }
    pose proof (Hpos p) as Hp.
    rewrite IH by (rewrite IH by assumption; apply Hdiv; [assumption | apply Hpos]).
    rewrite IH by assumption.
    rewrite !Z.div_div by lia.
    rewrite Hpow. reflexivity.
  - rewrite shr_1_m by lia. reflexivity.
Qed.

Lemma shr_spec (r : shr_record) (e n : Z) :
  0 <= shr_m r ->
  shr_m (fst (shr r e n)) = shr_m r / 2 ^ Z.max 0 n
  /\ snd (shr r e n) = e + Z.max 0 n.
Proof.
  intros Hr. destruct n as [|p|p]; simpl.
  - rewrite Z.div_1_r. split; lia.
  - rewrite iter_pos_shr_m by assumption. split; [reflexivity | lia].
  - rewrite Z.div_1_r. split; lia.
Qed.

Lemma shr_record_of_loc_m (m : Z) (l : location) : shr_m (shr_record_of_loc m l) = m.
Proof. destruct l as [|[]]; reflexivity. Qed.

Lemma shr_fexp_spec (m e : Z) (l : location) :
  0 <= m ->
  let n := Z.max 0 (fexp prec emax (Zdigits2 m + e) - e) in
  shr_m (fst (shr_fexp prec emax m e l)) = m / 2 ^ n
  /\ snd (shr_fexp prec emax m e l) = e + n.
Proof.
  intros Hm n. unfold shr_fexp.
  pose proof (shr_spec (shr_record_of_loc m l) e (fexp prec emax (Zdigits2 m + e) - e)) as H.
  rewrite shr_record_of_loc_m in H. apply H. assumption.
Qed.

Lemma round_nearest_even_bounds (m : Z) (l : location) :
  m <= round_nearest_even m l <= m + 1.
Proof.
  destruct l as [|[]]; simpl; try lia.
  destruct (Z.even m); lia.
Qed.

(** ** Binary64: rounding *)

Lemma fexp_eq (d : Z) : fexp prec emax d = Z.max (d - 53) (-1074).
Proof. reflexivity. Qed.

Lemma div_pow2_pos (m k : Z) : 0 <= k -> 0 < m -> k < Zdigits2 m -> 0 < m / 2 ^ k.
Proof.
  intros Hk Hm Hd.
  assert (0 < 2 ^ k) by (apply Z.pow_pos_nonneg; lia).
  apply Z.div_str_pos. split; [lia|].
  apply Z.le_trans with (2 ^ (Zdigits2 m - 1)).
  - apply Z.pow_le_mono_r; lia.
  - apply Zdigits2_lower; lia.
Qed.

(** Rounding a non-negative mantissa that is aligned and below the overflow
    threshold: the result keeps the sign, is finite or zero, grows by at most
    one binade, and is zero only on underflow. *)
Lemma binary_round_aux_spec (sx : bool) (mx ex : Z) (lx : location) :
  0 <= mx ->
  ex <= fexp prec emax (Zdigits2 mx + ex) ->
  Zdigits2 mx + ex <= 1023 ->
  (binary_round_aux prec emax sx mx ex lx = S754_zero sx
   /\ (mx = 0 \/ Zdigits2 mx + ex <= -1074))
  \/ exists m e,
       binary_round_aux prec emax sx mx ex lx = S754_finite sx m e
       /\ e <= 971
       /\ Zdigits2 (Zpos m) + e <= Z.max (Zdigits2 mx + ex) (-1074) + 1
       /\ fexp prec emax (Zdigits2 (Zpos m) + e) = e.
Proof.
  intros Hm Hal HD. unfold binary_round_aux.
  pose proof (shr_fexp_spec mx ex lx Hm) as H1. cbv zeta in H1.
  destruct (shr_fexp prec emax mx ex lx) as [r1 e1]. cbn [fst snd] in H1.
  destruct H1 as [Hm1 He1].
  set (l1 := loc_of_shr_record r1).
  pose proof (round_nearest_even_bounds (shr_m r1) l1) as Hrne.
  set (m2 := round_nearest_even (shr_m r1) l1) in *.
  rewrite fexp_eq in *.
  pose proof (Zdigits2_nonneg mx) as Hdx.
  set (D := Zdigits2 mx + ex) in *.
  assert (Hn1 : Z.max 0 (Z.max (D - 53) (-1074) - ex) = Z.max (D - 53) (-1074) - ex) by lia.
  rewrite Hn1 in *. clear Hn1.
  set (n1 := Z.max (D - 53) (-1074) - ex) in *.
  assert (Hn1 : 0 <= n1) by lia.
  assert (Hp1 : 0 < 2 ^ n1) by (apply Z.pow_pos_nonneg; lia).
  assert (Hm1pos : 0 <= shr_m r1) by (rewrite Hm1; apply Z.div_pos; lia).
  assert (HD1 : Zdigits2 (shr_m r1) + e1 <= Z.max D (-1074)).
  { destruct (Z.eq_dec (shr_m r1) 0) as [Hz|Hnz].
    - rewrite Hz. simpl. lia.
    - rewrite Hm1. rewrite Zdigits2_div_pow by lia. unfold D. lia. }
  assert (Hm2 : 0 <= m2) by lia.
  assert (HD2 : Zdigits2 m2 + e1 <= Z.max D (-1074) + 1).
  { pose proof (Zdigits2_mono m2 (shr_m r1 + 1)).
    pose proof (Zdigits2_succ (shr_m r1)). lia. }
  pose proof (shr_fexp_spec m2 e1 loc_Exact Hm2) as H2. cbv zeta in H2.
  destruct (shr_fexp prec emax m2 e1 loc_Exact) as [r2 e2]. cbn [fst snd] in H2.
  destruct H2 as [Hm3 He2]. rewrite fexp_eq in *.
  set (n2 := Z.max 0 (Z.max (Zdigits2 m2 + e1 - 53) (-1074) - e1)) in *.
  assert (Hn2 : 0 <= n2) by lia.
  assert (Hp2 : 0 < 2 ^ n2) by (apply Z.pow_pos_nonneg; lia).
  assert (Hfin : 0 < shr_m r2 ->
                 Zdigits2 (shr_m r2) + e2 <= Z.max D (-1074) + 1).
  { intros Hpos. rewrite Hm3 in *. rewrite Zdigits2_div_pow by lia. lia. }
  assert (Hcan : 0 < shr_m r2 ->
                 Z.max (Zdigits2 (shr_m r2) + e2 - 53) (-1074) = e2).
  { intros Hpos. rewrite Hm3 in *. rewrite Zdigits2_div_pow by lia.
    destruct (Z.eq_dec (shr_m r1) 0) as [Hz|Hz].
    - assert (m2 = 0 \/ m2 = 1) as [E|E] by lia.
      + rewrite E, Z.div_0_l in Hpos by lia. lia.
      + assert (Hd2 : Zdigits2 m2 = 1) by (rewrite E; reflexivity).
        assert (Hd : Zdigits2 mx <= n1).
        { destruct (Z_le_gt_dec (Zdigits2 mx) n1) as [|Hgt]; [assumption|exfalso].
          destruct (Z.eq_dec mx 0) as [Hx|Hx]; [rewrite Hx in Hgt; simpl in Hgt; lia|].
          assert (0 < mx / 2 ^ n1) by (apply div_pow2_pos; lia). lia. }
        subst n2 n1 D. lia.
    - assert (Zdigits2 (shr_m r1) + e1 = D).
      { rewrite Hm1. rewrite Zdigits2_div_pow by lia. unfold D. lia. }
      pose proof (Zdigits2_mono (shr_m r1) m2). subst n2 n1 D. lia. }
  assert (Hnz : 0 < mx -> -1074 < D -> 0 < shr_m r2).
  { intros Hmx HDl.
    assert (H1 : 0 < shr_m r1).
    { rewrite Hm1. apply div_pow2_pos; lia. }
    assert (H2 : 0 < m2) by lia.
    rewrite Hm3. apply div_pow2_pos; try lia.
    assert (1 <= Zdigits2 m2).
    { change 1 with (0 + 1). apply Zdigits2_ge; simpl; lia. }
    lia. }
  destruct (shr_m r2) as [|m3|m3] eqn:E3.
  - left. split; [reflexivity|]. lia.
  - right.
    assert (He : e2 <= 971) by lia.
    assert (Hle : (e2 <=? emax - prec) = true) by (apply Z.leb_le; unfold emax, prec; lia).
    rewrite Hle. exists m3, e2. split; [reflexivity|]. split; [assumption|].
    split; [apply Hfin; lia | apply Hcan; lia].
  - exfalso. assert (0 <= m2 / 2 ^ n2) by (apply Z.div_pos; lia). lia.
Qed.

(** ** Binary64: conversion of ints *)

Lemma iter_xO_spec (m d : positive) :
  Zpos (Pos.iter xO m d) = Zpos m * 2 ^ Zpos d
  /\ Zpos (digits2_pos (Pos.iter xO m d)) = Zpos (digits2_pos m) + Zpos d.
Proof.
  induction d as [|d [IHv IHd]] using Pos.peano_ind.
  - simpl. split; lia.
  - rewrite Pos.iter_succ. cbn [digits2_pos].
    rewrite Pos2Z.inj_xO, IHv, !Pos2Z.inj_succ, IHd.
    rewrite Z.pow_succ_r by lia. split; lia.
Qed.

Lemma shl_align_spec (mx : positive) (ex e' : Z) :
  snd (shl_align mx ex e') = Z.min ex e'
  /\ Zpos (fst (shl_align mx ex e'))
     = Zpos mx * 2 ^ (ex - snd (shl_align mx ex e'))
  /\ Zpos (digits2_pos (fst (shl_align mx ex e'))) + snd (shl_align mx ex e')
     = Zpos (digits2_pos mx) + ex.
Proof.
  unfold shl_align. destruct (e' - ex) as [|d|d] eqn:E; cbn [fst snd].
  - replace (ex - ex) with 0 by lia. simpl. lia.
  - replace (ex - ex) with 0 by lia. simpl. lia.
  - destruct (iter_xO_spec mx d) as [Hv Hd]. rewrite Hv, Hd.
    replace (ex - e') with (Zpos d) by lia. lia.
Qed.

Lemma binary_round_spec (sx : bool) (mx : positive) (ex : Z) :
  Zpos (digits2_pos mx) + ex <= 1023 ->
  (binary_round prec emax sx mx ex = S754_zero sx
   /\ Zpos (digits2_pos mx) + ex <= -1074)
  \/ exists m e,
       binary_round prec emax sx mx ex = S754_finite sx m e
       /\ e <= 971
       /\ Zpos (digits2_pos m) + e
          <= Z.max (Zpos (digits2_pos mx) + ex) (-1074) + 1
       /\ fexp prec emax (Zpos (digits2_pos m) + e) = e.
Proof.
  intros HD. unfold binary_round.
  pose proof (shl_align_spec mx ex (fexp prec emax (Zpos (digits2_pos mx) + ex)))
    as (He & _ & Hd).
  destruct (shl_align mx ex (fexp prec emax (Zpos (digits2_pos mx) + ex)))
    as [mz ez]. cbn [fst snd] in *.
  assert (HDz : Zdigits2 (Zpos mz) + ez = Zpos (digits2_pos mx) + ex) by exact Hd.
  pose proof (binary_round_aux_spec sx (Zpos mz) ez loc_Exact) as H.
  rewrite HDz in H.
  destruct H as [[H [Hz|Hz]]|H]; try lia; [left; split; assumption | right; exact H].
Qed.

(** Conversion of an int within the range of doubles: never infinite, never
    not-a-number, and of the sign of the int. *)
Lemma Z2SF_spec (n : Z) :
  Z.abs n < 2 ^ 1023 ->
  (n = 0 /\ Z2SF n = S754_zero false)
  \/ exists m e,
       Z2SF n = S754_finite (n <? 0) m e
       /\ e <= 971
       /\ Zpos (digits2_pos m) + e <= Zdigits2 n + 1
       /\ fexp prec emax (Zpos (digits2_pos m) + e) = e.
Proof.
  intros Hn. unfold Z2SF, binary_normalize.
  assert (HD : Zdigits2 (Z.abs n) <= 1023).
  { apply Zdigits2_le; lia. }
  destruct n as [|p|p]; [left; split; reflexivity| |]; right.
  - destruct (binary_round_spec false p 0) as [[_ H]|(m & e & H & He & Hd & Hc)].
    + simpl in HD. lia.
    + lia.
    + exists m, e. simpl in *. split; [exact H|]. repeat split; try lia; exact Hc.
  - destruct (binary_round_spec true p 0) as [[_ H]|(m & e & H & He & Hd & Hc)].
    + simpl in HD. lia.
    + lia.
    + exists m, e. simpl in *. split; [exact H|]. repeat split; try lia; exact Hc.
Qed.

Lemma float_of_int_spec (n : Z) :
  Z.abs n < 2 ^ 1023 ->
  exists f, float_of_int n = Return f
    /\ ((n = 0 /\ f = S754_zero false)
        \/ exists m e, f = S754_finite (n <? 0) m e
             /\ Zpos (digits2_pos m) + e <= Zdigits2 n + 1
             /\ fexp prec emax (Zpos (digits2_pos m) + e) = e).
Proof.
  intros Hn. unfold float_of_int.
  destruct (Z2SF_spec n Hn) as [[H0 H]|(m & e & H & He & Hd & Hc)]; rewrite H.
  - eexists; split; [reflexivity|]. left. split; [assumption | reflexivity].
  - eexists; split; [reflexivity|]. right. exists m, e. repeat split; assumption.
Qed.

(** ** Binary64: products and pixel coordinates *)

Lemma Zdigits2_mul (a b : Z) :
  0 <= a -> 0 <= b -> Zdigits2 (a * b) <= Zdigits2 a + Zdigits2 b.
Proof.
  intros Ha Hb.
  pose proof (Zdigits2_nonneg a). pose proof (Zdigits2_nonneg b).
  apply Zdigits2_le; [lia|]. split; [apply Z.mul_nonneg_nonneg; assumption|].
  rewrite Z.pow_add_r by lia.
  pose proof (Zdigits2_upper a Ha). pose proof (Zdigits2_upper b Hb).
  apply Z.mul_lt_mono_nonneg; lia.
Qed.

(** The product of two finite doubles in canonical form whose magnitudes
    multiply to less than [2 ^ 1023]. *)
Lemma fmul_finite_spec (sx sy : bool) (mx my : positive) (ex ey : Z) :
  fexp prec emax (Zpos (digits2_pos mx) + ex) = ex ->
  fexp prec emax (Zpos (digits2_pos my) + ey) = ey ->
  (Zpos (digits2_pos mx) + ex) + (Zpos (digits2_pos my) + ey) <= 1023 ->
  fmul (S754_finite sx mx ex) (S754_finite sy my ey) = S754_zero (xorb sx sy)
  \/ exists m e,
       fmul (S754_finite sx mx ex) (S754_finite sy my ey)
         = S754_finite (xorb sx sy) m e
       /\ Zpos (digits2_pos m) + e
          <= Z.max ((Zpos (digits2_pos mx) + ex) + (Zpos (digits2_pos my) + ey))
                   (-1074) + 1.
Proof.
  intros Hcx Hcy HD. unfold fmul, SFmul. rewrite fexp_eq in *.
  pose proof (Zdigits2_mul (Zpos mx) (Zpos my)) as Hmul.
  pose proof (Zdigits2_mono (Zpos mx) (Zpos mx * Zpos my)) as Hx.
  pose proof (Zdigits2_mono (Zpos my) (Zpos mx * Zpos my)) as Hy.
  change (Zdigits2 (Zpos mx)) with (Zpos (digits2_pos mx)) in *.
  change (Zdigits2 (Zpos my)) with (Zpos (digits2_pos my)) in *.
  change (Zpos mx * Zpos my) with (Zpos (mx * my)) in *.
  assert (Hmx : Zpos mx <= Zpos (mx * my)) by nia.
  assert (Hmy : Zpos my <= Zpos (mx * my)) by nia.
  destruct (binary_round_aux_spec (xorb sx sy) (Zpos (mx * my)) (ex + ey) loc_Exact)
    as [[H _]|(m & e & H & He & Hd & _)].
  - lia.
  - rewrite fexp_eq. lia.
  - lia.
  - left. exact H.
  - right. exists m, e. split; [exact H|].
    change (Zdigits2 (Zpos m)) with (Zpos (digits2_pos m)) in Hd. lia.
Qed.

Lemma int_of_float_bound (s : bool) (m : positive) (e K : Z) :
  0 <= K -> Zpos (digits2_pos m) + e <= K ->
  exists p, int_of_float (S754_finite s m e) = Return p
    /\ Z.abs p < 2 ^ K /\ (s = false -> 0 <= p).
Proof.
  intros HK Hd. unfold int_of_float. eexists. split; [reflexivity|].
  pose proof (Zdigits2_upper (Zpos m)) as Hu.
  change (Zdigits2 (Zpos m)) with (Zpos (digits2_pos m)) in Hu.
  assert (Hsh : 0 <= Z.shiftl (Zpos m) e < 2 ^ K).
  { destruct (Z_le_gt_dec 0 e) as [He|He].
    - rewrite Z.shiftl_mul_pow2 by lia.
      assert (0 < 2 ^ e) by (apply Z.pow_pos_nonneg; lia).
      split; [lia|].
      apply Z.lt_le_trans with (2 ^ Zpos (digits2_pos m) * 2 ^ e).
      + apply Z.mul_lt_mono_pos_r; lia.
      + rewrite <- Z.pow_add_r by lia. apply Z.pow_le_mono_r; lia.
    - replace e with (- (- e)) by lia. rewrite Z.shiftl_opp_r.
      rewrite Z.shiftr_div_pow2 by lia.
      assert (0 < 2 ^ (- e)) by (apply Z.pow_pos_nonneg; lia).
      split; [apply Z.div_pos; lia|].
      apply Z.div_lt_upper_bound; [lia|].
      rewrite <- Z.pow_add_r by lia.
      apply Z.lt_le_trans with (2 ^ Zpos (digits2_pos m)); [lia|].
      apply Z.pow_le_mono_r; lia. }
  destruct s; simpl; split; try lia; discriminate.
Qed.

Lemma Z2SF_0 : Z2SF 0 = S754_zero false.
Proof. reflexivity. Qed.

Lemma Z2SF_1 : Z2SF 1 = S754_finite false 4503599627370496 (-52).
Proof. reflexivity. Qed.

(** A coordinate of ordinary size is a zero or a canonical finite double. *)
Lemma magnitude_below_inv (k : Z) (c : float) :
  magnitude_below k c = true ->
  (exists s, c = S754_zero s)
  \/ exists s m e, c = S754_finite s m e
       /\ fexp prec emax (Zpos (digits2_pos m) + e) = e
       /\ Zpos (digits2_pos m) + e <= k.
Proof.
  destruct c as [s|s| |s m e]; cbn [magnitude_below valid_binary];
    try discriminate; intros H.
  - left. eauto.
  - right. apply andb_prop in H. destruct H as [Hv Hk].
    unfold bounded, canonical_mantissa in Hv.
    apply andb_prop in Hv. destruct Hv as [Hc _].
    apply Z.eqb_eq in Hc. apply Z.leb_le in Hk.
    exists s, m, e. repeat split; assumption.
Qed.

(** Scaled by a frame dimension, such a coordinate converts to a pixel. *)
Lemma to_pixel_on_scale (c : float) (n : Z) :
  magnitude_below 32 c = true -> 0 <= n < 2 ^ 31 ->
  exists p, to_pixel c n = Return p /\ Z.abs p < 2 ^ 65.
Proof.
  intros Hc Hn. unfold to_pixel, float_mul_int.
  assert (Hn' : Z.abs n < 2 ^ 1023).
  { apply Z.lt_trans with (2 ^ 31); [lia|]. apply Z.pow_lt_mono_r; lia. }
  destruct (float_of_int_spec n Hn') as (g & Hg & Hgs). rewrite Hg. cbn [bind].
  assert (Hdn : Zdigits2 n <= 31) by (apply Zdigits2_le; lia).
  assert (Hs : (n <? 0) = false) by (apply Z.ltb_ge; lia). rewrite Hs in Hgs.
  assert (P0 : Z.abs 0 < 2 ^ 65) by reflexivity.
  destruct (magnitude_below_inv 32 c Hc) as [[s ->]|(s & m & e & -> & Hcan & HD)].
  - exists 0. split; [|exact P0].
    destruct Hgs as [[_ ->]|(mg & eg & -> & _)]; reflexivity.
  - destruct Hgs as [[_ ->]|(mg & eg & -> & Hdg & Hcg)].
    + exists 0. split; [reflexivity | exact P0].
    + destruct (fmul_finite_spec s false m mg e eg Hcan Hcg) as [H|(m' & e' & H & Hd')].
      * lia.
      * rewrite H. exists 0. split; [reflexivity | exact P0].
      * rewrite H.
        destruct (int_of_float_bound (xorb s false) m' e' 65 ltac:(lia) ltac:(lia))
          as (p & Hp & Hb & _).
        exists p. split; [exact Hp | exact Hb].
Qed.

(** ** Binary64: square roots and exact conversions *)

(** Rounding a non-negative mantissa never yields not-a-number and keeps
    the sign. *)
Lemma binary_round_aux_sign (sx : bool) (mx ex : Z) (lx : location) :
  0 <= mx ->
  binary_round_aux prec emax sx mx ex lx = S754_zero sx
  \/ binary_round_aux prec emax sx mx ex lx = S754_infinity sx
  \/ exists m e, binary_round_aux prec emax sx mx ex lx = S754_finite sx m e.
Proof.
  intros Hm. unfold binary_round_aux.
  pose proof (shr_fexp_spec mx ex lx Hm) as H1. cbv zeta in H1.
  destruct (shr_fexp prec emax mx ex lx) as [r1 e1]. cbn [fst snd] in H1.
  destruct H1 as [Hm1 _].
  pose proof (round_nearest_even_bounds (shr_m r1) (loc_of_shr_record r1)) as Hrne.
  set (m2 := round_nearest_even (shr_m r1) (loc_of_shr_record r1)) in *.
  assert (Hm2 : 0 <= m2).
  { assert (0 <= shr_m r1); [|lia]. rewrite Hm1. apply Z.div_pos; [lia|].
    apply Z.pow_pos_nonneg; lia. }
  pose proof (shr_fexp_spec m2 e1 loc_Exact Hm2) as H2. cbv zeta in H2.
  destruct (shr_fexp prec emax m2 e1 loc_Exact) as [r2 e2]. cbn [fst snd] in H2.
  destruct H2 as [Hm3 _].
  assert (H3 : 0 <= shr_m r2).
  { rewrite Hm3. apply Z.div_pos; [lia|]. apply Z.pow_pos_nonneg; lia. }
  destruct (shr_m r2) as [|m3|m3].
  - left. reflexivity.
  - destruct (e2 <=? emax - prec); eauto.
  - lia.
Qed.

Lemma float_of_int_nonneg (n : Z) :
  0 <= n < 2 ^ 1023 ->
  exists f, float_of_int n = Return f /\ Z2SF n = f /\ nonneg_finite f
            /\ (n = 0 -> f = S754_zero false)
            /\ (0 < n -> exists m e, f = S754_finite false m e).
Proof.
  intros Hn. unfold float_of_int.
  destruct (Z2SF_spec n) as [[H0 H]|(m & e & H & _)]; [lia| |]; rewrite H.
  - eexists; repeat split; [left; reflexivity | lia].
  - assert (Hs : (n <? 0) = false) by (apply Z.ltb_ge; lia). rewrite Hs.
    eexists; repeat split; [right; eauto | | eauto].
    intros ->. discriminate H.
Qed.

Lemma fsqrt_nonneg (f : float) :
  nonneg_finite f -> is_nan (fsqrt f) = false /\ sign_bit (fsqrt f) = false.
Proof.
  intros [->|(m & e & ->)]; [split; reflexivity|].
  unfold fsqrt, SFsqrt.
  destruct (SFsqrt_core_binary prec emax (Zpos m) e) as [[mz ez] lz] eqn:E.
  assert (Hmz : 0 <= mz).
  { unfold SFsqrt_core_binary in E.
    set (m' := match e - 2 * _ with Zpos _ => _ | Z0 => _ | Zneg _ => _ end) in E.
    assert (Hm' : 0 <= m').
    { unfold m'. destruct (e - 2 * _); try lia. apply Z.shiftl_nonneg. lia. }
    pose proof (Z.sqrtrem_spec m' Hm') as Hs.
    destruct (Z.sqrtrem m') as [q r]. injection E as <- _ _. nia. }
  destruct (binary_round_aux_sign false mz ez lz Hmz) as [H|[H|(m' & e' & H)]];
    rewrite H; split; reflexivity.
Qed.

Lemma feq_refl (f : float) : is_nan f = false -> feq f f = true.
Proof.
  unfold feq, SFeqb. destruct f as [s|s| |s m e]; simpl; try discriminate; intros _.
  - reflexivity.
  - destruct s; reflexivity.
  - rewrite Z.compare_refl. change (Pos.compare_cont Eq m m) with (Pos.compare m m).
    rewrite Pos.compare_refl. destruct s; reflexivity.
Qed.

Lemma math_sqrt_spec (n : Z) :
  0 <= n < 2 ^ 1023 ->
  exists d, math_sqrt n = Return d /\ d = fsqrt (Z2SF n)
            /\ is_nan d = false /\ sign_bit d = false.
Proof.
  intros Hn. unfold math_sqrt.
  destruct (float_of_int_nonneg n Hn) as (f & Hf & Hz & Hnn & _).
  rewrite Hf. cbn [bind]. rewrite Hz.
  destruct (fsqrt_nonneg f Hnn) as [H1 H2].
  exists (fsqrt f).
  destruct Hnn as [->|(m & e & ->)]; repeat split; assumption.
Qed.

(** *** Exact conversion of small ints *)

Lemma binary_round_aux_exact (sx : bool) (m : positive) (e : Z) :
  Zpos (digits2_pos m) = 53 -> -1074 <= e <= 971 ->
  binary_round_aux prec emax sx (Zpos m) e loc_Exact = S754_finite sx m e.
Proof.
  intros Hd He. unfold binary_round_aux, shr_fexp.
  change (Zdigits2 (Zpos m)) with (Zpos (digits2_pos m)). rewrite Hd.
  replace (fexp prec emax (53 + e) - e) with 0 by (rewrite fexp_eq; lia).
  cbn [shr shr_record_of_loc loc_of_shr_record round_nearest_even shr_m].
  change (Zdigits2 (Zpos m)) with (Zpos (digits2_pos m)). rewrite Hd.
  replace (fexp prec emax (53 + e) - e) with 0 by (rewrite fexp_eq; lia).
  cbn [shr shr_record_of_loc shr_m].
  replace (e <=? emax - prec) with true; [reflexivity|].
  symmetry. apply Z.leb_le. unfold emax, prec. lia.
Qed.

Lemma binary_round_exact (sx : bool) (p : positive) :
  Zpos (digits2_pos p) <= 53 ->
  exists m e, binary_round prec emax sx p 0 = S754_finite sx m e
    /\ e <= 0 /\ Zpos m = Zpos p * 2 ^ (- e).
Proof.
  intros Hd. unfold binary_round.
  pose proof (shl_align_spec p 0 (fexp prec emax (Zpos (digits2_pos p) + 0)))
    as (He & Hv & HD).
  destruct (shl_align p 0 (fexp prec emax (Zpos (digits2_pos p) + 0))) as [mz ez].
  cbn [fst snd] in *. rewrite fexp_eq in He.
  exists mz, ez. split.
  - apply binary_round_aux_exact; lia.
  - split; [lia|]. rewrite Hv. f_equal.
Qed.

Lemma SF2R_exact (s : bool) (m p : positive) (e : Z) :
  e <= 0 -> Zpos m = Zpos p * 2 ^ (- e) ->
  SF2R (S754_finite s m e) = IZR (cond_Zopp s (Zpos p)).
Proof.
  intros He Hm. unfold SF2R.
  assert (H : (IZR (Zpos m) * powerRZ 2 e = IZR (Zpos p))%R).
  { rewrite Hm, mult_IZR. 
    replace e with (- (- e)) at 2 by lia.
    rewrite powerRZ_neg' . rewrite Rmult_assoc.
    replace (IZR (2 ^ (- e))) with (powerRZ 2 (- e)).
    - rewrite Rinv_r; [lra|]. apply powerRZ_NOR. lra.
    - rewrite <- (Z2Nat.id (- e)) by lia. rewrite <- pow_powerRZ.
      rewrite <- pow_IZR. reflexivity. }
  destruct s; cbn [cond_Zopp].
  - change (Z.opp (Zpos m)) with (Zneg m). change (Z.opp (Zpos p)) with (Zneg p).
    change (Zneg m) with (- Zpos m). change (Zneg p) with (- Zpos p).
    rewrite !opp_IZR. lra.
  - exact H.
Qed.

(** An int of at most 53 bits is converted without rounding. *)
Lemma Z2SF_exact (n : Z) :
  Z.abs n < 2 ^ 53 -> SF2R (Z2SF n) = IZR n.
Proof.
  intros Hn. unfold Z2SF, binary_normalize.
  assert (HD : Zdigits2 (Z.abs n) <= 53) by (apply Zdigits2_le; lia).
  destruct n as [|p|p]; [reflexivity| |]; simpl in HD.
  - destruct (binary_round_exact false p HD) as (m & e & -> & He & Hm).
    apply (SF2R_exact false m p e He Hm).
  - destruct (binary_round_exact true p HD) as (m & e & -> & He & Hm).
    apply (SF2R_exact true m p e He Hm).
Qed.

(** ** Real-number facts behind [find_angle] *)

Lemma atan_nonneg (t : R) : (0 <= t)%R -> (0 <= atan t)%R.
Proof.
  intros [Ht| <-].
  - left. rewrite <- atan_0. apply atan_increasing. exact Ht.
  - rewrite atan_0. right. reflexivity.
Qed.

Lemma Ratan2_quadrant (y x : R) :
  (0 <= y)%R -> (0 <= x)%R -> (0 <= Ratan2 y x <= PI / 2)%R.
Proof.
  intros Hy Hx. unfold Ratan2. pose proof PI_RGT_0 as Hpi.
  destruct (Rlt_dec 0 x) as [Hx0|Hx0].
  - split.
    + apply atan_nonneg. apply Rmult_le_pos; [exact Hy|].
      left. apply Rinv_0_lt_compat. exact Hx0.
    + left. apply atan_bound.
  - destruct (Rlt_dec x 0) as [Hx1|Hx1]; [lra|].
    destruct (Rlt_dec 0 y) as [Hy0|Hy0]; [lra|].
    destruct (Rlt_dec y 0) as [Hy1|Hy1]; lra.
Qed.

Lemma Ratan2_zero (x : R) : (0 <= x)%R -> Ratan2 0 x = 0%R.
Proof.
  intros Hx. unfold Ratan2.
  destruct (Rlt_dec 0 x) as [Hx0|Hx0].
  - unfold Rdiv. rewrite Rmult_0_l. apply atan_0.
  - destruct (Rlt_dec x 0); [lra|].
    destruct (Rlt_dec 0 0); [lra|]. destruct (Rlt_dec 0 0); [lra|]. reflexivity.
Qed.

Lemma degrees_quadrant (r : R) :
  (0 <= r <= PI / 2)%R -> (0 <= r * (180 / PI) <= 90)%R.
Proof.
  intros [H0 H1]. pose proof PI_RGT_0 as Hpi.
  assert (Hk : (0 < 180 / PI)%R) by (apply Rdiv_lt_0_compat; lra).
  split.
  - apply Rmult_le_pos; lra.
  - replace 90%R with (PI / 2 * (180 / PI))%R by (field; lra).
    apply Rmult_le_compat_r; lra.
Qed.

Lemma Rtrunc_floor (r : R) (k : Z) :
  (0 <= r)%R -> (IZR k <= r < IZR k + 1)%R -> Rtrunc r = k.
Proof.
  intros H0 [Hl Hu]. unfold Rtrunc.
  destruct (Rle_dec 0 r) as [_|Hn]; [|contradiction].
  symmetry. apply Int_part_spec. lra.
Qed.

Lemma Rtrunc_range (r : R) (n : Z) :
  (0 <= r <= IZR n)%R -> 0 <= Rtrunc r <= n.
Proof.
  intros [H0 Hn]. unfold Rtrunc.
  destruct (Rle_dec 0 r) as [_|Hc]; [|contradiction].
  destruct (base_Int_part r) as [Hl Hu].
  split.
  - assert (H : (-1 < IZR (Int_part r))%R) by lra.
    apply lt_IZR in H. lia.
  - apply le_IZR. lra.
Qed.

Lemma SF2R_nonneg (f : float) : nonneg_finite f -> (0 <= SF2R f)%R.
Proof.
  intros [->|(m & e & ->)]; simpl; [lra|].
  apply Rmult_le_pos.
  - apply IZR_le. lia.
  - left. apply powerRZ_lt. lra.
Qed.

Lemma SF2R_pos (m : positive) (e : Z) : (0 < SF2R (S754_finite false m e))%R.
Proof.
  simpl. apply Rmult_lt_0_compat.
  - apply IZR_lt. lia.
  - apply powerRZ_lt. lra.
Qed.

(** On the doubles that non-negative ints convert to, [atan2] is the real
    two-argument arctangent of their values. *)
Lemma atan2_nonneg (fy fx : float) :
  nonneg_finite fy -> nonneg_finite fx ->
  atan2 fy fx = Xreal (Ratan2 (SF2R fy) (SF2R fx)).
Proof.
  intros Hy Hx. pose proof (SF2R_nonneg fx Hx) as Hx0.
  destruct Hy as [->|(m & e & ->)].
  - change (SF2R (S754_zero false)) with 0%R. rewrite Ratan2_zero by exact Hx0.
    destruct Hx as [->|(m' & e' & ->)]; reflexivity.
  - destruct Hx as [->|(m' & e' & ->)]; reflexivity.
Qed.

Lemma find_angle_spec (x1 y1 x2 y2 : Z) :
  Z.abs (x2 - x1) < 2 ^ 1023 -> Z.abs (y2 - y1) < 2 ^ 1023 ->
  find_angle x1 y1 x2 y2 = Return (inclination (x2 - x1) (y2 - y1))
  /\ 0 <= inclination (x2 - x1) (y2 - y1) <= 90.
Proof.
  intros Hx Hy. unfold find_angle, math_atan2, inclination.
  destruct (float_of_int_nonneg (Z.abs (x2 - x1))) as (fy & Ey & Zy & Ny & _); [lia|].
  destruct (float_of_int_nonneg (Z.abs (y2 - y1))) as (fx & Ex & Zx & Nx & _); [lia|].
  rewrite Ey, Ex, Zy, Zx. cbn [bind]. rewrite (atan2_nonneg fy fx Ny Nx).
  cbn [math_degrees int_of_xreal try_except]. split; [reflexivity|].
  apply (Rtrunc_range _ 90). apply degrees_quadrant. apply Ratan2_quadrant.
  - apply SF2R_nonneg. exact Ny.
  - apply SF2R_nonneg. exact Nx.
Qed.

Lemma inclination_exact (dx dy : Z) :
  Z.abs dx < 2 ^ 53 -> Z.abs dy < 2 ^ 53 ->
  inclination dx dy
  = Rtrunc (Ratan2 (IZR (Z.abs dx)) (IZR (Z.abs dy)) * (180 / PI)).
Proof.
  intros Hx Hy. unfold inclination.
  rewrite !Z2SF_exact by (rewrite Z.abs_idemp; assumption). reflexivity.
Qed.

(** ** Numerical enclosure of one angle *)

(** The alternating series of the arctangent encloses it. *)
Lemma atan_series_bounds (t : R) (N : nat) :
  (0 < t < 1)%R ->
  (sum_f_R0 (tg_alt (Ratan_seq t)) (S (2 * N)) <= atan t
   <= sum_f_R0 (tg_alt (Ratan_seq t)) (2 * N))%R.
Proof.
  intros Ht. assert (Ht' : (0 <= t <= 1)%R) by lra.
  rewrite (atan_eq_ps_atan t Ht). unfold ps_atan.
  destruct (in_int t) as [h|h]; [|exfalso; apply h; lra].
  destruct (ps_atan_exists_1 t h) as [v Pv].
  apply alternated_series_ineq.
  - apply Ratan_seq_decreasing. exact Ht'.
  - apply Ratan_seq_converging. exact Ht'.
  - exact Pv.
Qed.

Lemma PI_enclosure : (3135 / 1000 < PI < 3143 / 1000)%R.
Proof.
  pose proof (PI_2_3_7_ineq 0) as [Hl _].
  pose proof (PI_2_3_7_ineq 1) as [_ Hu].
  unfold PI_2_3_7_tg, tg_alt, Ratan_seq in Hl, Hu.
  simpl in Hl, Hu. lra.
Qed.

Lemma atan_4_5_enclosure : (672 / 1000 < atan (4 / 5) < 677 / 1000)%R.
Proof.
  assert (Ht : (0 < 4 / 5 < 1)%R) by lra.
  pose proof (atan_series_bounds (4 / 5) 2 Ht) as [Hl _].
  pose proof (atan_series_bounds (4 / 5) 3 Ht) as [_ Hu].
  unfold tg_alt, Ratan_seq in Hl, Hu.
  simpl in Hl, Hu. lra.
Qed.

Lemma inclination_40_50 : inclination 40 (-50) = 38.
Proof.
  rewrite inclination_exact by (simpl; lia).
  change (Z.abs 40) with 40. change (Z.abs (-50)) with 50.
  pose proof PI_enclosure as [Pl Pu]. pose proof atan_4_5_enclosure as [Al Au].
  assert (E : Ratan2 40 50 = atan (4 / 5)).
  { unfold Ratan2. destruct (Rlt_dec 0 50) as [_|H]; [|lra].
    f_equal. field. }
  rewrite E.
  assert (Hpi : (0 < PI)%R) by lra.
  assert (Hl : (38 <= atan (4 / 5) * (180 / PI))%R).
  { unfold Rdiv. rewrite <- Rmult_assoc.
    apply (Rmult_le_reg_r PI); [exact Hpi|].
    rewrite Rmult_assoc, Rinv_l by lra. lra. }
  assert (Hu : (atan (4 / 5) * (180 / PI) < 39)%R).
  { unfold Rdiv. rewrite <- Rmult_assoc.
    apply (Rmult_lt_reg_r PI); [exact Hpi|].
    rewrite Rmult_assoc, Rinv_l by lra. lra. }
  apply Rtrunc_floor; lra.
Qed.

(** ** Comparison of doubles *)

Lemma SFcompare_antisym (a b : float) :
  SFcompare b a = option_map CompOpp (SFcompare a b).
Proof.
  destruct a as [sa|sa| |sa ma ea], b as [sb|sb| |sb mb eb]; simpl;
    try reflexivity;
    try (destruct sa; reflexivity); try (destruct sb; reflexivity);
    try (destruct sa, sb; reflexivity).
  destruct sa, sb; simpl; try reflexivity;
    rewrite (Z.compare_antisym ea eb);
    destruct (ea ?= eb); simpl; try reflexivity;
    pose proof (Pos.compare_cont_antisym ma mb Eq) as H; simpl in H;
    rewrite <- H; destruct (Pos.compare_cont Eq ma mb); reflexivity.
Qed.

(** [a <= b] excludes [b < a]. *)
Lemma fle_not_flt (a b : float) : fle a b = true -> flt b a = false.
Proof.
  unfold fle, flt, SFleb, SFltb. rewrite (SFcompare_antisym a b).
  destruct (SFcompare a b) as [[]|]; simpl; intros H; try reflexivity; discriminate.
Qed.

(** [a == b] excludes [a < b]. *)
Lemma feq_not_flt (a b : float) : feq a b = true -> flt a b = false.
Proof.
  unfold feq, flt, SFeqb, SFltb.
  destruct (SFcompare a b) as [[]|]; intros H; try reflexivity; discriminate.
Qed.

Lemma float_gt_int_not_zero (f : float) :
  float_gt_int f 0 = true -> is_zero f = false.
Proof.
  destruct f; simpl; try reflexivity. discriminate.
Qed.

(** ** Look-ups *)

Lemma getitem_some (txt : nat -> string) (lm : list MediaPipe.landmark)
    (p : MediaPipe.PoseLandmark) (l : MediaPipe.landmark) :
  MediaPipe.landmark_at lm p = Some l -> getitem txt lm p = Return l.
Proof.
  intros H. unfold getitem. rewrite H. reflexivity.
Qed.

Lemma getitem_in_range (txt : nat -> string) (lm : list MediaPipe.landmark)
    (p : MediaPipe.PoseLandmark) :
  (MediaPipe.index p < List.length lm)%nat -> exists l, getitem txt lm p = Return l.
Proof.
  intros H. unfold getitem, MediaPipe.landmark_at.
  destruct (nth_error lm (MediaPipe.index p)) as [l|] eqn:E; [eauto|].
  apply nth_error_None in E. lia.
Qed.

Lemma getitem_out_of_range (txt : nat -> string) (lm : list MediaPipe.landmark)
    (p : MediaPipe.PoseLandmark) :
  (List.length lm <= MediaPipe.index p)%nat ->
  getitem txt lm p = Raise (Exn IndexError (txt (MediaPipe.index p))).
Proof.
  intros H. unfold getitem, MediaPipe.landmark_at.
  apply nth_error_None in H. rewrite H. reflexivity.
Qed.

(** ** Pixel arithmetic *)

Lemma forward_head_distance_max (mid_ear_x mid_shoulder_x : Z) :
  (if mid_ear_x >? mid_shoulder_x then mid_ear_x - mid_shoulder_x else 0)
  = Z.max 0 (mid_ear_x - mid_shoulder_x).
Proof.
  destruct (Z.gtb_spec mid_ear_x mid_shoulder_x); lia.
Qed.

Lemma pow2_70_lt : 2 ^ 70 * 2 ^ 70 + 2 ^ 70 * 2 ^ 70 < 2 ^ 1023.
Proof. reflexivity. Qed.

Lemma square_lt (a B : Z) : Z.abs a < B -> 0 <= a * a < B * B.
Proof.
  intros Ha. split; [nia|].
  replace (a * a) with (Z.abs a * Z.abs a) by nia.
  apply Z.mul_lt_mono_nonneg; lia.
Qed.

Lemma sum_squares_range (a b : Z) :
  Z.abs a < 2 ^ 70 -> Z.abs b < 2 ^ 70 -> 0 <= a ^ 2 + b ^ 2 < 2 ^ 1023.
Proof.
  intros Ha Hb. pose proof pow2_70_lt as Hp.
  pose proof (square_lt a _ Ha) as Ha2.
  pose proof (square_lt b _ Hb) as Hb2.
  rewrite !Z.pow_2_r. lia.
Qed.

Lemma find_distance_spec (x1 y1 x2 y2 : Z) :
  Z.abs (x2 - x1) < 2 ^ 70 -> Z.abs (y2 - y1) < 2 ^ 70 ->
  exists d, find_distance x1 y1 x2 y2 = Return d
    /\ d = fsqrt (Z2SF ((x2 - x1) ^ 2 + (y2 - y1) ^ 2))
    /\ is_nan d = false /\ sign_bit d = false.
Proof.
  intros Hx Hy. unfold find_distance.
  apply math_sqrt_spec. apply sum_squares_range; assumption.
Qed.

(** ** The classifying path of the analyser *)

Section Classifying.

Variable txt : nat -> string.
Variable lm : list MediaPipe.landmark.
Variables h w : Z.
Variables left_ear right_ear left_shoulder right_shoulder left_hip right_hip
  : MediaPipe.landmark.

Hypothesis complete : (24 < List.length lm)%nat.
Hypothesis at_left_ear :
  MediaPipe.landmark_at lm MediaPipe.LEFT_EAR = Some left_ear.
Hypothesis at_right_ear :
  MediaPipe.landmark_at lm MediaPipe.RIGHT_EAR = Some right_ear.
Hypothesis at_left_shoulder :
  MediaPipe.landmark_at lm MediaPipe.LEFT_SHOULDER = Some left_shoulder.
Hypothesis at_right_shoulder :
  MediaPipe.landmark_at lm MediaPipe.RIGHT_SHOULDER = Some right_shoulder.
Hypothesis at_left_hip :
  MediaPipe.landmark_at lm MediaPipe.LEFT_HIP = Some left_hip.
Hypothesis at_right_hip :
  MediaPipe.landmark_at lm MediaPipe.RIGHT_HIP = Some right_hip.

Hypothesis gate_left_shoulder :
  flt (MediaPipe.visibility left_shoulder) visibility_threshold = false.
Hypothesis gate_right_shoulder :
  flt (MediaPipe.visibility right_shoulder) visibility_threshold = false.
Hypothesis gate_left_hip :
  flt (MediaPipe.visibility left_hip) visibility_threshold = false.

Hypothesis scale_left_ear : MediaPipe.on_scale left_ear = true.
Hypothesis scale_right_ear : MediaPipe.on_scale right_ear = true.
Hypothesis scale_left_shoulder : MediaPipe.on_scale left_shoulder = true.
Hypothesis scale_right_shoulder : MediaPipe.on_scale right_shoulder = true.
Hypothesis scale_left_hip : MediaPipe.on_scale left_hip = true.
Hypothesis scale_right_hip : MediaPipe.on_scale right_hip = true.

Hypothesis height_range : 0 <= h < 2 ^ 31.
Hypothesis width_range : 0 <= w < 2 ^ 31.

Lemma on_scale_pixels (l : MediaPipe.landmark) :
  MediaPipe.on_scale l = true ->
  exists px py,
    to_pixel (MediaPipe.x l) w = Return px
    /\ to_pixel (MediaPipe.y l) h = Return py
    /\ - 2 ^ 65 < px < 2 ^ 65 /\ - 2 ^ 65 < py < 2 ^ 65.
Proof.
  intros H. apply andb_prop in H. destruct H as [Hx Hy].
  destruct (to_pixel_on_scale _ w Hx width_range) as (px & Ex & Bx).
  destruct (to_pixel_on_scale _ h Hy height_range) as (py & Ey & By).
  apply Z.abs_lt in Bx, By.
  exists px, py. repeat split; try assumption; lia.
Qed.

Lemma midpoint_bound (a b B : Z) :
  - B < a < B -> - B < b < B -> - B <= (a + b) / 2 < B.
Proof.
  intros Ha Hb. split.
  - apply Z.div_le_lower_bound; lia.
  - apply Z.div_lt_upper_bound; lia.
Qed.

(** With the gate passed and landmarks of ordinary size in a frame of
    ordinary size, the [try] block returns the full assessment, computed from the
    pixel positions of shoulders, ears and hips. *)
Lemma analyze_landmarks_full :
  exists a l_shldr_x l_shldr_y r_shldr_x r_shldr_y l_ear_x l_ear_y
         r_ear_x r_ear_y l_hip_x l_hip_y r_hip_x r_hip_y,
    analyze_landmarks txt lm h w = Return (Full a)
    /\ to_pixel (MediaPipe.x left_shoulder) w = Return l_shldr_x
    /\ to_pixel (MediaPipe.y left_shoulder) h = Return l_shldr_y
    /\ to_pixel (MediaPipe.x right_shoulder) w = Return r_shldr_x
    /\ to_pixel (MediaPipe.y right_shoulder) h = Return r_shldr_y
    /\ to_pixel (MediaPipe.x left_ear) w = Return l_ear_x
    /\ to_pixel (MediaPipe.y left_ear) h = Return l_ear_y
    /\ to_pixel (MediaPipe.x right_ear) w = Return r_ear_x
    /\ to_pixel (MediaPipe.y right_ear) h = Return r_ear_y
    /\ to_pixel (MediaPipe.x left_hip) w = Return l_hip_x
    /\ to_pixel (MediaPipe.y left_hip) h = Return l_hip_y
    /\ to_pixel (MediaPipe.x right_hip) w = Return r_hip_x
    /\ to_pixel (MediaPipe.y right_hip) h = Return r_hip_y
    /\ landmarks a =
         [ ("mid_shoulder"%string,
             ((l_shldr_x + r_shldr_x) / 2, (l_shldr_y + r_shldr_y) / 2));
           ("mid_hip"%string,
             ((l_hip_x + r_hip_x) / 2, (l_hip_y + r_hip_y) / 2));
           ("mid_ear"%string,
             ((l_ear_x + r_ear_x) / 2, (l_ear_y + r_ear_y) / 2));
           ("l_shldr"%string, (l_shldr_x, l_shldr_y));
           ("r_shldr"%string, (r_shldr_x, r_shldr_y));
           ("l_ear"%string, (l_ear_x, l_ear_y));
           ("r_ear"%string, (r_ear_x, r_ear_y));
           ("l_hip"%string, (l_hip_x, l_hip_y));
           ("r_hip"%string, (r_hip_x, r_hip_y)) ]
    /\ visibility a =
         [ ("l_shoulder"%string, MediaPipe.visibility left_shoulder);
           ("r_shoulder"%string, MediaPipe.visibility right_shoulder);
           ("l_ear"%string, MediaPipe.visibility left_ear);
           ("r_ear"%string, MediaPipe.visibility right_ear);
           ("l_hip"%string, MediaPipe.visibility left_hip);
           ("r_hip"%string, MediaPipe.visibility right_hip) ]
    /\ shoulder_offset a = Z.abs (l_shldr_y - r_shldr_y)
    /\ find_distance l_shldr_x l_shldr_y r_shldr_x r_shldr_y
       = Return (shoulder_distance a)
    /\ neck_inclination a =
         inclination ((l_ear_x + r_ear_x) / 2 - (l_shldr_x + r_shldr_x) / 2)
                     ((l_ear_y + r_ear_y) / 2 - (l_shldr_y + r_shldr_y) / 2)
    /\ torso_inclination a =
         inclination ((l_shldr_x + r_shldr_x) / 2 - (l_hip_x + r_hip_x) / 2)
                     ((l_shldr_y + r_shldr_y) / 2 - (l_hip_y + r_hip_y) / 2)
    /\ forward_head_ratio a =
         (if float_gt_int (shoulder_distance a) 0
          then PyFloat
                 (fdiv (Z2SF (Z.max 0 ((l_ear_x + r_ear_x) / 2
                                       - (l_shldr_x + r_shldr_x) / 2)))
                       (shoulder_distance a))
          else PyInt 0)
    /\ find_angle ((l_shldr_x + r_shldr_x) / 2) ((l_shldr_y + r_shldr_y) / 2)
                  ((l_ear_x + r_ear_x) / 2) ((l_ear_y + r_ear_y) / 2)
       = Return (neck_inclination a)
    /\ find_angle ((l_hip_x + r_hip_x) / 2) ((l_hip_y + r_hip_y) / 2)
                  ((l_shldr_x + r_shldr_x) / 2) ((l_shldr_y + r_shldr_y) / 2)
       = Return (torso_inclination a).
Proof.
  destruct (on_scale_pixels _ scale_left_shoulder)
    as (lsx & lsy & Elsx & Elsy & Blsx & Blsy).
  destruct (on_scale_pixels _ scale_right_shoulder)
    as (rsx & rsy & Ersx & Ersy & Brsx & Brsy).
  destruct (on_scale_pixels _ scale_left_ear)
    as (lex & ley & Elex & Eley & Blex & Bley).
  destruct (on_scale_pixels _ scale_right_ear)
    as (rex & rey & Erex & Erey & Brex & Brey).
  destruct (on_scale_pixels _ scale_left_hip)
    as (lhx & lhy & Elhx & Elhy & Blhx & Blhy).
  destruct (on_scale_pixels _ scale_right_hip)
    as (rhx & rhy & Erhx & Erhy & Brhx & Brhy).
  assert (P65 : 2 ^ 65 + 2 ^ 65 < 2 ^ 70) by reflexivity.
  assert (P70 : 2 ^ 70 < 2 ^ 1023) by reflexivity.
  set (msx := (lsx + rsx) / 2). set (msy := (lsy + rsy) / 2).
  set (mex := (lex + rex) / 2). set (mey := (ley + rey) / 2).
  set (mhx := (lhx + rhx) / 2). set (mhy := (lhy + rhy) / 2).
  pose proof (midpoint_bound lsx rsx _ Blsx Brsx) as Bmsx. fold msx in Bmsx.
  pose proof (midpoint_bound lsy rsy _ Blsy Brsy) as Bmsy. fold msy in Bmsy.
  pose proof (midpoint_bound lex rex _ Blex Brex) as Bmex. fold mex in Bmex.
  pose proof (midpoint_bound ley rey _ Bley Brey) as Bmey. fold mey in Bmey.
  pose proof (midpoint_bound lhx rhx _ Blhx Brhx) as Bmhx. fold mhx in Bmhx.
  pose proof (midpoint_bound lhy rhy _ Blhy Brhy) as Bmhy. fold mhy in Bmhy.
  destruct (find_distance_spec lsx lsy rsx rsy) as (sd & Esd & _);
    [apply Z.abs_lt; lia | apply Z.abs_lt; lia |].
  destruct (find_angle_spec msx msy mex mey) as [Eneck _];
    [apply Z.abs_lt; lia | apply Z.abs_lt; lia |].
  destruct (find_angle_spec mhx mhy msx msy) as [Etorso _];
    [apply Z.abs_lt; lia | apply Z.abs_lt; lia |].
  assert (Eratio :
    (if float_gt_int sd 0
     then q <- int_truediv_float
                 (if mex >? msx then mex - msx else 0) sd;;
          Return (PyFloat q)
     else Return (PyInt 0))
    = Return (if float_gt_int sd 0
              then PyFloat (fdiv (Z2SF (Z.max 0 (mex - msx))) sd)
              else PyInt 0)).
  { destruct (float_gt_int sd 0) eqn:G; [|reflexivity].
    rewrite forward_head_distance_max. unfold int_truediv_float.
    destruct (float_of_int_nonneg (Z.max 0 (mex - msx))) as (g & -> & <- & _);
      [lia|].
    cbn [bind]. rewrite (float_gt_int_not_zero sd G). reflexivity. }
  destruct (getitem_in_range txt lm MediaPipe.NOSE) as [nose Enose];
    [simpl; lia|].
  destruct (getitem_in_range txt lm MediaPipe.LEFT_EYE) as [leye Eleye];
    [simpl; lia|].
  destruct (getitem_in_range txt lm MediaPipe.RIGHT_EYE) as [reye Ereye];
    [simpl; lia|].
  unfold analyze_landmarks.
  rewrite Enose, Eleye, Ereye.
  rewrite (getitem_some txt _ _ _ at_left_ear),
          (getitem_some txt _ _ _ at_right_ear),
          (getitem_some txt _ _ _ at_left_shoulder),
          (getitem_some txt _ _ _ at_right_shoulder),
          (getitem_some txt _ _ _ at_left_hip),
          (getitem_some txt _ _ _ at_right_hip).
  cbn [bind].
  rewrite gate_left_shoulder, gate_right_shoulder, gate_left_hip.
  cbn [orb].
  rewrite Elsx, Elsy, Ersx, Ersy, Elex, Eley, Erex, Erey, Elhx, Elhy, Erhx, Erhy.
  cbn [bind].
  fold msx msy mex mey mhx mhy.
  rewrite Esd. cbn [bind]. rewrite Eneck, Etorso. cbn [bind].
  fold msx msy mex mey mhx mhy in Eneck, Etorso.
  rewrite Eratio. cbn [bind].
  eexists. exists lsx, lsy, rsx, rsy, lex, ley, rex, rey, lhx, lhy, rhx, rhy.
  split; [reflexivity|].
  cbn [landmarks visibility shoulder_offset shoulder_distance
       neck_inclination torso_inclination forward_head_ratio].
  repeat split; try assumption; reflexivity.
Qed.

End Classifying.

(** ** What the analyser can raise *)

Lemma Z2SF_nonneg_cases (n : Z) :
  0 <= n ->
  Z2SF n = S754_infinity false \/ nonneg_finite (Z2SF n).
Proof.
  intros Hn. unfold Z2SF, binary_normalize.
  destruct n as [|p|p]; [right; left; reflexivity| |lia].
  unfold binary_round.
  destruct (shl_align p 0 (fexp prec emax (Zpos (digits2_pos p) + 0))) as [mz ez].
  destruct (binary_round_aux_sign false (Zpos mz) ez loc_Exact) as [H|[H|(m & e & H)]];
    [lia| | |]; rewrite H.
  - right. left. reflexivity.
  - left. reflexivity.
  - right. right. eauto.
Qed.

Lemma float_of_int_Return (n : Z) (f : float) :
  float_of_int n = Return f -> f = Z2SF n.
Proof.
  unfold float_of_int. destruct (Z2SF n); intros H; try discriminate;
    injection H as <-; reflexivity.
Qed.

Lemma float_of_int_Raise (n : Z) (e : exn) :
  float_of_int n = Raise e -> kind e = OverflowError.
Proof.
  unfold float_of_int. destruct (Z2SF n); intros H; try discriminate.
  injection H as <-. reflexivity.
Qed.

Lemma to_pixel_Raise (c : float) (n : Z) (e : exn) :
  to_pixel c n = Raise e -> kind e = OverflowError \/ kind e = ValueError.
Proof.
  unfold to_pixel, float_mul_int. intros H.
  destruct (float_of_int n) as [g|e'] eqn:E; cbn [bind] in H.
  - destruct (fmul c g); simpl in H; try discriminate;
      injection H as <-; auto.
  - injection H as <-. left. exact (float_of_int_Raise n e' E).
Qed.

Lemma find_distance_Raise (x1 y1 x2 y2 : Z) (e : exn) :
  find_distance x1 y1 x2 y2 = Raise e ->
  kind e = OverflowError \/ kind e = ValueError.
Proof.
  unfold find_distance, math_sqrt. intros H.
  destruct (float_of_int _) as [g|e'] eqn:E; cbn [bind] in H.
  - destruct g as [s|[]| |[] m ex]; try discriminate; injection H as <-; auto.
  - injection H as <-. left. exact (float_of_int_Raise _ e' E).
Qed.

Lemma find_distance_not_nan (x1 y1 x2 y2 : Z) (d : float) :
  find_distance x1 y1 x2 y2 = Return d -> is_nan d = false /\ sign_bit d = false.
Proof.
  unfold find_distance, math_sqrt. intros H.
  set (n := (x2 - x1) ^ 2 + (y2 - y1) ^ 2) in *.
  assert (Hn : 0 <= n) by (subst n; rewrite !Z.pow_2_r; nia).
  destruct (float_of_int n) as [g|e'] eqn:E; cbn [bind] in H; [|discriminate].
  pose proof (float_of_int_Return n g E) as ->.
  destruct (Z2SF_nonneg_cases n Hn) as [Hi|Hf].
  - unfold float_of_int in E. rewrite Hi in E. discriminate.
  - pose proof (fsqrt_nonneg _ Hf) as Hs.
    destruct Hf as [Hz|(m & ex & Hz)]; rewrite Hz in *; injection H as <-; exact Hs.
Qed.

(** Only a conversion overflow escapes [find_angle]. *)
Lemma find_angle_Raise (x1 y1 x2 y2 : Z) (e : exn) :
  find_angle x1 y1 x2 y2 = Raise e -> kind e = OverflowError.
Proof.
  unfold find_angle, math_atan2. intros H.
  destruct (float_of_int (Z.abs (x2 - x1))) as [fy|e1] eqn:E1; cbn [bind] in H.
  - destruct (float_of_int (Z.abs (y2 - y1))) as [fx|e2] eqn:E2; cbn [bind] in H.
    + destruct (math_degrees (atan2 fy fx)); simpl in H; discriminate.
    + pose proof (float_of_int_Raise _ e2 E2) as K. unfold try_except in H.
      rewrite K in H. injection H as <-. exact K.
  - pose proof (float_of_int_Raise _ e1 E1) as K. unfold try_except in H.
    rewrite K in H. injection H as <-. exact K.
Qed.

Lemma int_truediv_float_Raise (n : Z) (f : float) (e : exn) :
  int_truediv_float n f = Raise e ->
  kind e = OverflowError \/ (kind e = ZeroDivisionError /\ is_zero f = true).
Proof.
  unfold int_truediv_float. intros H.
  destruct (float_of_int n) as [g|e'] eqn:E; cbn [bind] in H.
  - destruct (is_zero f); [|discriminate]. injection H as <-. auto.
  - injection H as <-. left. exact (float_of_int_Raise n e' E).
Qed.

Lemma getitem_Raise (txt : nat -> string) (lm : list MediaPipe.landmark)
    (p : MediaPipe.PoseLandmark) (e : exn) :
  getitem txt lm p = Raise e -> kind e = IndexError.
Proof.
  unfold getitem. destruct (MediaPipe.landmark_at lm p); intros H;
    [discriminate|]. injection H as <-. reflexivity.
Qed.

Ltac raise_inv H :=
  repeat (match type of H with
          | bind _ _ = Raise _ =>
              apply bind_Raise_inv in H;
              destruct H as [H | (? & ? & H)]; [|cbv beta zeta in H]
          end).

Ltac return_inv H :=
  repeat (match type of H with
          | bind _ _ = Return _ =>
              let a := fresh "v" in
              let Ha := fresh "E" in
              apply bind_Return_inv in H; destruct H as (a & Ha & H);
              cbv beta zeta in H
          end).

(** No division by zero happens in the [try] block: the quotient is only
    taken when the shoulder distance compares greater than zero. *)
Lemma analyze_landmarks_no_zero_division (txt : nat -> string)
    (lm : list MediaPipe.landmark) (h w : Z) (e : exn) :
  analyze_landmarks txt lm h w = Raise e -> kind e <> ZeroDivisionError.
Proof.
  unfold analyze_landmarks. intros H.
  raise_inv H;
    try (apply getitem_Raise in H; rewrite H; discriminate).
  destruct (_ || _); [discriminate|].
  raise_inv H;
    try (apply to_pixel_Raise in H; destruct H as [H|H]; rewrite H; discriminate);
    try (apply find_distance_Raise in H; destruct H as [H|H]; rewrite H; discriminate);
    try (apply find_angle_Raise in H; rewrite H; discriminate);
    try discriminate.
  match type of H with
  | (if float_gt_int ?sd 0 then _ else _) = _ =>
      destruct (float_gt_int sd 0) eqn:G; [|discriminate]
  end.
  raise_inv H; [|discriminate].
  apply int_truediv_float_Raise in H. destruct H as [H|[_ H]].
  - rewrite H. discriminate.
  - rewrite (float_gt_int_not_zero _ G) in H. discriminate.
Qed.

Lemma analyze_posture_of_landmarks (txt : nat -> string)
    (lm : list MediaPipe.landmark) (frame : cv2.frame) (d : posture_data) :
  analyze_landmarks txt lm (cv2.rows frame) (cv2.cols frame) = Return d ->
  analyze_posture txt (Some (MediaPipe.PoseResults (Some lm))) frame = Return d.
Proof.
  intros H. unfold analyze_posture. simpl. rewrite H. reflexivity.
Qed.

(** A full assessment can only come out of the [try] block. *)
Lemma analyze_posture_Full_inv (txt : nat -> string)
    (results : option MediaPipe.pose_results) (frame : cv2.frame)
    (a : assessment) :
  analyze_posture txt results frame = Return (Full a) ->
  exists lm,
    analyze_landmarks txt lm (cv2.rows frame) (cv2.cols frame) = Return (Full a).
Proof.
  unfold analyze_posture. intros H.
  destruct results as [res|]; [|discriminate].
  destruct (MediaPipe.pose_landmarks res) as [lm|]; [|discriminate].
  exists lm. cbv zeta in H. unfold try_except in H.
  destruct (analyze_landmarks txt lm (cv2.rows frame) (cv2.cols frame)) as [d|e].
  - exact H.
  - destruct (kind e); discriminate.
Qed.

(** ** Absent input *)

(** C7: without a detection result, or with a result that holds no landmark
    set, the analyser returns the variant without landmarks, with the
    message "No pose landmarks detected." and no visibility map. *)
Theorem analyze_posture_no_pose :
  forall (txt : nat -> string) (frame : cv2.frame),
    analyze_posture txt None frame
      = Return (Unavailable "No pose landmarks detected." None)
    /\ analyze_posture txt (Some (MediaPipe.PoseResults None)) frame
      = Return (Unavailable "No pose landmarks detected." None)
    /\ has_landmarks (Unavailable "No pose landmarks detected." None) = false.
Proof.
  intros txt frame. repeat split.
Qed.

(** ** The renderer *)

(** C9: for an assessment without landmarks the renderer returns the frame
    it was given, and nothing is drawn. *)
Theorem draw_pose_annotations_unavailable :
  forall (frame : cv2.frame) (d : posture_data),
    has_landmarks d = false ->
    draw_pose_annotations frame (Some d) = frame
    /\ cv2.drawn (draw_pose_annotations frame (Some d)) = cv2.drawn frame.
Proof.
  intros frame d H. unfold draw_pose_annotations. rewrite H. simpl. split; reflexivity.
Qed.

Lemma draw_pose_annotations_unavailable_witness :
  let frame := cv2.Frame 480 640 [] in
  let d := Unavailable "Key landmarks not visible enough" None in
  has_landmarks d = false
  /\ draw_pose_annotations frame (Some d) = frame
  /\ cv2.drawn (draw_pose_annotations frame (Some d)) = cv2.drawn frame.
Proof.
  split; [reflexivity | apply draw_pose_annotations_unavailable; reflexivity].
Defined.

(** ** The judgments of a full assessment *)

Lemma analyze_landmarks_judgments (txt : nat -> string)
    (lm : list MediaPipe.landmark) (h w : Z) (a : assessment) :
  analyze_landmarks txt lm h w = Return (Full a) ->
  is_aligned a = (shoulder_offset a <? 30)
  /\ is_neck_good a = (neck_inclination a <? 35)
  /\ is_torso_good a = (torso_inclination a <? 10)
  /\ is_head_position_good a
     = num_lt_float (forward_head_ratio a) forward_head_threshold
  /\ is_good_posture a
     = is_aligned a && is_neck_good a && is_torso_good a
       && is_head_position_good a.
Proof.
  unfold analyze_landmarks. intros H.
  return_inv H. destruct (_ || _); [discriminate|].
  return_inv H. injection H as <-. cbn. repeat split.
Qed.

(** C1: in every full assessment the four sub-judgments are the strict
    comparisons of the metrics with 30, 35, 10 and 0.2 (a metric equal to its
    threshold fails), and the overall judgment is their conjunction. *)
Theorem classification_thresholds :
  forall (txt : nat -> string) (results : option MediaPipe.pose_results)
         (frame : cv2.frame) (a : assessment),
    analyze_posture txt results frame = Return (Full a) ->
    (is_aligned a = true <-> shoulder_offset a < 30)
    /\ (is_neck_good a = true <-> neck_inclination a < 35)
    /\ (is_torso_good a = true <-> torso_inclination a < 10)
    /\ (is_head_position_good a = true
        <-> num_lt_float (forward_head_ratio a) forward_head_threshold = true)
    /\ (is_good_posture a = true
        <-> is_aligned a = true /\ is_neck_good a = true
            /\ is_torso_good a = true /\ is_head_position_good a = true)
    /\ (shoulder_offset a = 30 -> is_aligned a = false)
    /\ (neck_inclination a = 35 -> is_neck_good a = false)
    /\ (torso_inclination a = 10 -> is_torso_good a = false)
    /\ (forall g, forward_head_ratio a = PyFloat g ->
                  feq g forward_head_threshold = true ->
                  is_head_position_good a = false).
Proof.
  intros txt results frame a H.
  destruct (analyze_posture_Full_inv txt results frame a H) as [lm E].
  destruct (analyze_landmarks_judgments txt lm _ _ a E)
    as (Ha & Hn & Ht & Hh & Hg).
  rewrite Hg, Ha, Hn, Ht, Hh.
  split; [apply Z.ltb_lt|].
  split; [apply Z.ltb_lt|].
  split; [apply Z.ltb_lt|].
  split; [reflexivity|].
  split; [rewrite !andb_true_iff; tauto|].
  split; [intros ->; reflexivity|].
  split; [intros ->; reflexivity|].
  split; [intros ->; reflexivity|].
  intros g -> Hg'. simpl. apply feq_not_flt. exact Hg'.
Qed.

(** ** The sample frames *)

Ltac sample_side :=
  match goal with
  | |- (_ < _)%nat => cbv; lia
  | |- _ <= _ < _ => vm_compute; split; [discriminate | reflexivity]
  | |- _ = Some _ => reflexivity
  | |- _ = true => vm_compute; reflexivity
  | |- _ = false => vm_compute; reflexivity
  end.

Lemma classification_thresholds_witness :
  exists a,
    analyze_posture Sample.index_error_text (Sample.results Sample.upright)
      Sample.frame = Return (Full a)
    /\ (is_aligned a = true <-> shoulder_offset a < 30)
    /\ (is_neck_good a = true <-> neck_inclination a < 35)
    /\ (is_torso_good a = true <-> torso_inclination a < 10)
    /\ (is_head_position_good a = true
        <-> num_lt_float (forward_head_ratio a) forward_head_threshold = true)
    /\ (is_good_posture a = true
        <-> is_aligned a = true /\ is_neck_good a = true
            /\ is_torso_good a = true /\ is_head_position_good a = true)
    /\ (shoulder_offset a = 30 -> is_aligned a = false)
    /\ (neck_inclination a = 35 -> is_neck_good a = false)
    /\ (torso_inclination a = 10 -> is_torso_good a = false)
    /\ (forall g, forward_head_ratio a = PyFloat g ->
                  feq g forward_head_threshold = true ->
                  is_head_position_good a = false).
Proof.
  destruct (analyze_landmarks_full Sample.index_error_text Sample.upright 400 640
              (Sample.at_pixel 110 150 Sample.seen)
              (Sample.at_pixel 130 150 Sample.seen)
              (Sample.at_pixel 100 200 Sample.seen)
              (Sample.at_pixel 140 200 Sample.seen)
              (Sample.at_pixel 100 350 Sample.seen)
              (Sample.at_pixel 140 350 Sample.seen))
    as (a & ? & ? & ? & ? & ? & ? & ? & ? & ? & ? & ? & ? & H & _);
    try sample_side.
  exists a.
  assert (E : analyze_posture Sample.index_error_text
                (Sample.results Sample.upright) Sample.frame = Return (Full a))
    by (apply analyze_posture_of_landmarks; exact H).
  split; [exact E|].
  exact (classification_thresholds _ _ _ a E).
Defined.

(** ** The visibility gate *)

(** C2: whenever the left shoulder, the right shoulder or the left hip has
    visibility below 0.5, the analyser returns the variant without landmarks,
    with the message "Key landmarks not visible enough" and the visibility of
    all six tracked points, whatever the other landmarks are; visibilities
    equal to 0.5 do not trigger it. *)
Theorem visibility_gate :
  forall (txt : nat -> string) (lm : list MediaPipe.landmark)
         (frame : cv2.frame)
         (left_ear right_ear left_shoulder right_shoulder left_hip right_hip
            : MediaPipe.landmark),
    (24 < List.length lm)%nat ->
    MediaPipe.landmark_at lm MediaPipe.LEFT_EAR = Some left_ear ->
    MediaPipe.landmark_at lm MediaPipe.RIGHT_EAR = Some right_ear ->
    MediaPipe.landmark_at lm MediaPipe.LEFT_SHOULDER = Some left_shoulder ->
    MediaPipe.landmark_at lm MediaPipe.RIGHT_SHOULDER = Some right_shoulder ->
    MediaPipe.landmark_at lm MediaPipe.LEFT_HIP = Some left_hip ->
    MediaPipe.landmark_at lm MediaPipe.RIGHT_HIP = Some right_hip ->
    let result :=
      analyze_posture txt (Some (MediaPipe.PoseResults (Some lm))) frame in
    let scores :=
      [ ("l_shoulder"%string, MediaPipe.visibility left_shoulder);
        ("r_shoulder"%string, MediaPipe.visibility right_shoulder);
        ("l_ear"%string, MediaPipe.visibility left_ear);
        ("r_ear"%string, MediaPipe.visibility right_ear);
        ("l_hip"%string, MediaPipe.visibility left_hip);
        ("r_hip"%string, MediaPipe.visibility right_hip) ] in
    (flt (MediaPipe.visibility left_shoulder) visibility_threshold = true
     \/ flt (MediaPipe.visibility right_shoulder) visibility_threshold = true
     \/ flt (MediaPipe.visibility left_hip) visibility_threshold = true ->
     result = Return (Unavailable "Key landmarks not visible enough" (Some scores))
     /\ has_landmarks (Unavailable "Key landmarks not visible enough" (Some scores))
        = false
     /\ keys scores
        = ["l_shoulder"; "r_shoulder"; "l_ear"; "r_ear"; "l_hip"; "r_hip"]%string)
    /\ (feq (MediaPipe.visibility left_shoulder) visibility_threshold = true ->
        feq (MediaPipe.visibility right_shoulder) visibility_threshold = true ->
        feq (MediaPipe.visibility left_hip) visibility_threshold = true ->
        forall v,
          result <> Return (Unavailable "Key landmarks not visible enough" v)).
Proof.
  intros txt lm frame left_ear right_ear left_shoulder right_shoulder
    left_hip right_hip Hlen Hle Hre Hls Hrs Hlh Hrh result scores.
  destruct (getitem_in_range txt lm MediaPipe.NOSE) as [nose Enose];
    [simpl; lia|].
  destruct (getitem_in_range txt lm MediaPipe.LEFT_EYE) as [leye Eleye];
    [simpl; lia|].
  destruct (getitem_in_range txt lm MediaPipe.RIGHT_EYE) as [reye Ereye];
    [simpl; lia|].
  split.
  - intros Hlow.
    assert (G : flt (MediaPipe.visibility left_shoulder) visibility_threshold
                || flt (MediaPipe.visibility right_shoulder) visibility_threshold
                || flt (MediaPipe.visibility left_hip) visibility_threshold = true).
    { destruct Hlow as [H|[H|H]]; rewrite H; rewrite ?orb_true_r; reflexivity. }
    split; [|split; reflexivity].
    subst result. apply analyze_posture_of_landmarks.
    unfold analyze_landmarks.
    rewrite Enose, Eleye, Ereye.
    rewrite (getitem_some txt _ _ _ Hle), (getitem_some txt _ _ _ Hre),
            (getitem_some txt _ _ _ Hls), (getitem_some txt _ _ _ Hrs),
            (getitem_some txt _ _ _ Hlh), (getitem_some txt _ _ _ Hrh).
    cbn [bind]. rewrite G. reflexivity.
  - intros E1 E2 E3 v Hres.
    apply feq_not_flt in E1, E2, E3.
    subst result. unfold analyze_posture in Hres. cbn in Hres.
    unfold try_except in Hres.
    destruct (analyze_landmarks txt lm (cv2.rows frame) (cv2.cols frame))
      as [d|e] eqn:E.
    + injection Hres as ->.
      unfold analyze_landmarks in E.
      rewrite Enose, Eleye, Ereye in E.
      rewrite (getitem_some txt _ _ _ Hle), (getitem_some txt _ _ _ Hre),
              (getitem_some txt _ _ _ Hls), (getitem_some txt _ _ _ Hrs),
              (getitem_some txt _ _ _ Hlh), (getitem_some txt _ _ _ Hrh) in E.
      cbn [bind] in E. rewrite E1, E2, E3 in E. cbn [orb] in E.
      return_inv E. discriminate.
    + destruct (kind e); try discriminate; injection Hres as Hs _; discriminate.
Qed.

Lemma visibility_gate_witness :
  analyze_posture Sample.index_error_text
    (Sample.results Sample.shoulder_hidden) Sample.frame
  = Return (Unavailable "Key landmarks not visible enough"
      (Some [ ("l_shoulder"%string, Sample.seen);
              ("r_shoulder"%string, literal 3 10);
              ("l_ear"%string, Sample.seen);
              ("r_ear"%string, Sample.seen);
              ("l_hip"%string, Sample.seen);
              ("r_hip"%string, Sample.seen) ])).
Proof.
  apply (visibility_gate Sample.index_error_text Sample.shoulder_hidden
           Sample.frame
           (Sample.at_pixel 110 150 Sample.seen)
           (Sample.at_pixel 130 150 Sample.seen)
           (Sample.at_pixel 100 200 Sample.seen)
           (Sample.at_pixel 140 200 (literal 3 10))
           (Sample.at_pixel 100 350 Sample.seen)
           (Sample.at_pixel 140 350 Sample.seen));
    try sample_side.
  right. left. vm_compute. reflexivity.
Defined.

(** The whole degrees [find_angle] returns are the real angle rounded down:
    less than one degree below it. *)
Lemma inclination_near (dx dy : Z) :
  (degrees_to_vertical dx dy - 1 < IZR (inclination dx dy)
   <= degrees_to_vertical dx dy)%R.
Proof.
  unfold inclination, degrees_to_vertical.
  assert (Hv : forall n, (0 <= SF2R (Z2SF (Z.abs n)))%R).
  { intros n.
    destruct (Z2SF_nonneg_cases (Z.abs n) (Z.abs_nonneg n)) as [->|H].
    - simpl. lra.
    - apply SF2R_nonneg. exact H. }
  pose proof (degrees_quadrant _ (Ratan2_quadrant _ _ (Hv dx) (Hv dy)))
    as [H0 _].
  set (t := (Ratan2 _ _ * (180 / PI))%R) in *.
  unfold Rtrunc. destruct (Rle_dec 0 t) as [_|Hn]; [|contradiction].
  destruct (base_Int_part t) as [Hl Hu]. lra.
Qed.

(** ** The geometry helpers *)






(** C6: [find_distance] and [find_angle] do not change when their two points
    are swapped (the results compare equal with [==]), and the distance of a
    point to itself is zero. *)
Theorem geometry_symmetric :
  forall x1 y1 x2 y2 : Z,
    find_distance x1 y1 x2 y2 = find_distance x2 y2 x1 y1
    /\ match find_distance x1 y1 x2 y2, find_distance x2 y2 x1 y1 with
       | Return d, Return d' => feq d d' = true
       | Raise e, Raise e' => e = e'
       | _, _ => False
       end
    /\ find_distance x1 y1 x1 y1 = Return (S754_zero false)
    /\ float_eq_int (S754_zero false) 0 = true
    /\ find_angle x1 y1 x2 y2 = find_angle x2 y2 x1 y1.
Proof.
  intros x1 y1 x2 y2.
  assert (Ed : find_distance x1 y1 x2 y2 = find_distance x2 y2 x1 y1).
  { unfold find_distance. f_equal. rewrite !Z.pow_2_r. ring. }
  split; [exact Ed|]. split.
  - rewrite <- Ed. destruct (find_distance x1 y1 x2 y2) as [d|e] eqn:E.
    + apply feq_refl. apply (find_distance_not_nan _ _ _ _ _ E).
    + reflexivity.
  - split.
    + unfold find_distance. replace ((x1 - x1) ^ 2 + (y1 - y1) ^ 2) with 0
        by (rewrite !Z.sub_diag; reflexivity).
      reflexivity.
    + split; [reflexivity|].
      unfold find_angle.
      replace (Z.abs (x1 - x2)) with (Z.abs (x2 - x1)) by lia.
      replace (Z.abs (y1 - y2)) with (Z.abs (y2 - y1)) by lia.
      reflexivity.
Qed.

(** ** The forward-head ratio *)

(** C4: in every full assessment the forward-head distance is
    max(0, mid_ear_x - mid_shoulder_x); the ratio is its quotient by the
    shoulder distance when that distance is positive and 0 when it is 0; and
    the analyser never raises a division by zero. *)
Theorem forward_head_ratio_guarded :
  forall (txt : nat -> string) (results : option MediaPipe.pose_results)
         (frame : cv2.frame),
    (forall e, analyze_posture txt results frame = Raise e ->
               kind e <> ZeroDivisionError)
    /\ (forall a, analyze_posture txt results frame = Return (Full a) ->
          exists mid_ear_x mid_ear_y mid_shoulder_x mid_shoulder_y,
            get (landmarks a) "mid_ear" = Some (mid_ear_x, mid_ear_y)
            /\ get (landmarks a) "mid_shoulder"
               = Some (mid_shoulder_x, mid_shoulder_y)
            /\ let forward_head_distance :=
                 Z.max 0 (mid_ear_x - mid_shoulder_x) in
               (float_gt_int (shoulder_distance a) 0 = true ->
                forward_head_ratio a
                = PyFloat (fdiv (Z2SF forward_head_distance)
                                (shoulder_distance a))
                /\ int_truediv_float forward_head_distance (shoulder_distance a)
                   = Return (fdiv (Z2SF forward_head_distance)
                                  (shoulder_distance a)))
               /\ (float_eq_int (shoulder_distance a) 0 = true ->
                   forward_head_ratio a = PyInt 0)).
Proof.
  intros txt results frame. split.
  - intros e H. unfold analyze_posture in H.
    destruct results as [res|]; [|discriminate].
    destruct (MediaPipe.pose_landmarks res) as [lm|]; [|discriminate].
    cbv zeta in H. unfold try_except in H.
    destruct (analyze_landmarks txt lm (cv2.rows frame) (cv2.cols frame))
      as [d|e'] eqn:E; [discriminate|].
    pose proof (analyze_landmarks_no_zero_division _ _ _ _ _ E) as K.
    destruct (kind e') eqn:Ke; simpl in H; try discriminate;
      injection H as <-; rewrite Ke in *; congruence.
  - intros a H.
    destruct (analyze_posture_Full_inv txt results frame a H) as [lm E].
    unfold analyze_landmarks in E.
    return_inv E. destruct (_ || _); [discriminate|].
    return_inv E. injection E as <-.
    cbn [landmarks shoulder_distance forward_head_ratio].
    do 4 eexists. split; [reflexivity|]. split; [reflexivity|].
    cbv zeta. rewrite <- forward_head_distance_max.
    match goal with
    | Hq : (if float_gt_int ?sd 0 then _ else _) = Return ?r |- _ =>
        destruct (float_gt_int sd 0) eqn:G
    end.
    + match goal with
      | Hq : bind (int_truediv_float ?n ?sd) _ = Return _ |- _ =>
          return_inv Hq; injection Hq as <-;
          match goal with
          | Hd : int_truediv_float n sd = Return ?q |- _ =>
              assert (Eq : q = fdiv (Z2SF n) sd)
          end
      end.
      { match goal with
        | Hd : int_truediv_float _ _ = Return _ |- _ =>
            unfold int_truediv_float in Hd; return_inv Hd;
            rewrite (float_gt_int_not_zero _ G) in Hd; injection Hd as <-
        end.
        match goal with
        | Hf : float_of_int _ = Return _ |- _ =>
            rewrite (float_of_int_Return _ _ Hf)
        end.
        reflexivity. }
      split.
      * intros _. subst. split; [reflexivity | assumption].
      * unfold float_eq_int. unfold float_gt_int in G.
        destruct (float_compare_int _ 0) as [[]|]; discriminate.
    + match goal with
      | Hq : Return _ = Return _ |- _ => injection Hq as <-
      end.
      split; [discriminate | reflexivity].
Qed.

Ltac pixel_values :=
  repeat match goal with
         | H : to_pixel _ _ = Return ?p |- _ =>
             vm_compute in H; injection H as <-
         end.

Lemma forward_head_ratio_guarded_witness :
  (exists a,
     analyze_posture Sample.index_error_text (Sample.results Sample.upright)
       Sample.frame = Return (Full a)
     /\ float_gt_int (shoulder_distance a) 0 = true
     /\ forward_head_ratio a
        = PyFloat (fdiv (Z2SF (Z.max 0 (120 - 120))) (shoulder_distance a)))
  /\ (exists a,
        analyze_posture Sample.index_error_text
          (Sample.results Sample.shoulders_coincide) Sample.frame
        = Return (Full a)
        /\ float_eq_int (shoulder_distance a) 0 = true
        /\ forward_head_ratio a = PyInt 0).
Proof.
  split.
  - destruct (analyze_landmarks_full Sample.index_error_text Sample.upright
                400 640
                (Sample.at_pixel 110 150 Sample.seen)
                (Sample.at_pixel 130 150 Sample.seen)
                (Sample.at_pixel 100 200 Sample.seen)
                (Sample.at_pixel 140 200 Sample.seen)
                (Sample.at_pixel 100 350 Sample.seen)
                (Sample.at_pixel 140 350 Sample.seen))
      as (a & ? & ? & ? & ? & ? & ? & ? & ? & ? & ? & ? & ? & H & R);
      try sample_side.
    destruct R as (? & ? & ? & ? & ? & ? & ? & ? & ? & ? & ? & ? & L & _ & _ & D & _).
    pixel_values.
    assert (G : match find_distance 100 200 140 200 with
                | Return d => float_gt_int d 0
                | Raise _ => false
                end = true) by (vm_compute; reflexivity).
    rewrite D in G.
    assert (E : analyze_posture Sample.index_error_text
                  (Sample.results Sample.upright) Sample.frame = Return (Full a))
      by (apply analyze_posture_of_landmarks; exact H).
    destruct (proj2 (forward_head_ratio_guarded _ _ _) a E)
      as (mex & mey & msx & msy & Ge & Gs & Hpos & _).
    rewrite L in Ge, Gs. vm_compute in Ge, Gs.
    injection Ge as <- <-. injection Gs as <- <-.
    exists a. split; [exact E|]. split; [exact G|]. apply Hpos. exact G.
  - destruct (analyze_landmarks_full Sample.index_error_text
                Sample.shoulders_coincide 400 640
                (Sample.at_pixel 110 150 Sample.seen)
                (Sample.at_pixel 130 150 Sample.seen)
                (Sample.at_pixel 120 200 Sample.seen)
                (Sample.at_pixel 120 200 Sample.seen)
                (Sample.at_pixel 100 350 Sample.seen)
                (Sample.at_pixel 140 350 Sample.seen))
      as (a & ? & ? & ? & ? & ? & ? & ? & ? & ? & ? & ? & ? & H & R);
      try sample_side.
    destruct R as (? & ? & ? & ? & ? & ? & ? & ? & ? & ? & ? & ? & L & _ & _ & D & _).
    pixel_values.
    assert (G : match find_distance 120 200 120 200 with
                | Return d => float_eq_int d 0
                | Raise _ => false
                end = true) by (vm_compute; reflexivity).
    rewrite D in G.
    assert (E : analyze_posture Sample.index_error_text
                  (Sample.results Sample.shoulders_coincide) Sample.frame
                = Return (Full a))
      by (apply analyze_posture_of_landmarks; exact H).
    destruct (proj2 (forward_head_ratio_guarded _ _ _) a E)
      as (mex & mey & msx & msy & _ & _ & _ & Hzero).
    exists a. split; [exact E|]. split; [exact G|]. apply Hzero. exact G.
Defined.

(** ** One neck angle *)

Lemma find_angle_40_50 : find_angle 120 200 160 150 = Return 38.
Proof.
  destruct (find_angle_spec 120 200 160 150) as [E _]; try reflexivity.
  rewrite E. change (160 - 120) with 40. change (150 - 200) with (-50).
  rewrite inclination_40_50. reflexivity.
Qed.

(** The angle computed for the deltas 40 and 50 is 38, not 39: what C5 says
    about the number fails. *)
Lemma neck_angle_is_38_not_39 :
  find_angle 120 200 160 150 = Return 38
  /\ find_angle 120 200 160 150 <> Return 39.
Proof.
  split; [exact find_angle_40_50|]. rewrite find_angle_40_50. discriminate.
Qed.

(** C5, amended: with the shoulder midpoint at (120, 200) and the ear
    midpoint at (160, 150) the neck inclination is 38 degrees, the arctangent
    of 40/50 truncated, and the neck judgment is false since 38 is not below
    35. *)
Theorem head_forward_neck_angle :
  exists a,
    analyze_posture Sample.index_error_text
      (Sample.results Sample.head_forward) Sample.frame = Return (Full a)
    /\ get (landmarks a) "mid_shoulder" = Some (120, 200)
    /\ get (landmarks a) "mid_ear" = Some (160, 150)
    /\ find_angle 120 200 160 150 = Return 38
    /\ neck_inclination a = 38
    /\ is_neck_good a = false.
Proof.
  destruct (analyze_landmarks_full Sample.index_error_text Sample.head_forward
              400 640
              (Sample.at_pixel 150 150 Sample.seen)
              (Sample.at_pixel 170 150 Sample.seen)
              (Sample.at_pixel 100 200 Sample.seen)
              (Sample.at_pixel 140 200 Sample.seen)
              (Sample.at_pixel 100 350 Sample.seen)
              (Sample.at_pixel 140 350 Sample.seen))
    as (a & ? & ? & ? & ? & ? & ? & ? & ? & ? & ? & ? & ? & H & R);
    try sample_side.
  destruct R as (? & ? & ? & ? & ? & ? & ? & ? & ? & ? & ? & ? & L & _ & _ & _ & N & _).
  pixel_values.
  change ((150 + 170) / 2 - (100 + 140) / 2) with 40 in N.
  change ((150 + 150) / 2 - (200 + 200) / 2) with (-50) in N.
  rewrite inclination_40_50 in N.
  destruct (analyze_landmarks_judgments _ _ _ _ _ H) as (_ & Hn & _).
  exists a. split; [apply analyze_posture_of_landmarks; exact H|].
  rewrite L. split; [reflexivity|]. split; [reflexivity|].
  split; [exact find_angle_40_50|]. split; [exact N|].
  rewrite Hn, N. reflexivity.
Qed.

(** ** Look-up failures *)

Ltac lookup txt lm p :=
  destruct (Nat.le_gt_cases (List.length lm) (MediaPipe.index p)) as [Hout|Hin];
  [ rewrite (getitem_out_of_range txt lm p Hout); cbn [bind];
    exists (MediaPipe.index p); split; [exact Hout | reflexivity]
  | let l := fresh "l" in
    let E := fresh "E" in
    destruct (getitem_in_range txt lm p Hin) as [l E]; rewrite E; cbn [bind];
    clear Hin ].

Lemma analyze_landmarks_incomplete (txt : nat -> string)
    (lm : list MediaPipe.landmark) (h w : Z) :
  (List.length lm <= 24)%nat ->
  exists i : nat,
    (List.length lm <= i)%nat
    /\ analyze_landmarks txt lm h w = Raise (Exn IndexError (txt i)).
Proof.
  intros Hlen. unfold analyze_landmarks.
  lookup txt lm MediaPipe.NOSE.
  lookup txt lm MediaPipe.LEFT_EYE.
  lookup txt lm MediaPipe.RIGHT_EYE.
  lookup txt lm MediaPipe.LEFT_EAR.
  lookup txt lm MediaPipe.RIGHT_EAR.
  lookup txt lm MediaPipe.LEFT_SHOULDER.
  lookup txt lm MediaPipe.RIGHT_SHOULDER.
  lookup txt lm MediaPipe.LEFT_HIP.
  rewrite (getitem_out_of_range txt lm MediaPipe.RIGHT_HIP Hlen). cbn [bind].
  exists 24%nat. split; [exact Hlen | reflexivity].
Qed.

Lemma index_le_24 (p : MediaPipe.PoseLandmark) : (MediaPipe.index p <= 24)%nat.
Proof. destruct p; simpl; lia. Qed.

(** C8: when the look-up of a required landmark fails (the list is too short
    for it), an [IndexError] is raised inside the analyser, which catches it
    and returns the variant without landmarks whose message carries the
    error's text; and no [IndexError] or [AttributeError] ever leaves the
    analyser. *)
Theorem lookup_failure_reported :
  forall (txt : nat -> string) (frame : cv2.frame),
    (forall (lm : list MediaPipe.landmark) (p : MediaPipe.PoseLandmark),
       MediaPipe.landmark_at lm p = None ->
       exists i : nat,
         (List.length lm <= i)%nat
         /\ analyze_landmarks txt lm (cv2.rows frame) (cv2.cols frame)
            = Raise (Exn IndexError (txt i))
         /\ analyze_posture txt (Some (MediaPipe.PoseResults (Some lm))) frame
            = Return (Unavailable
                        ("Error processing landmarks: " ++ txt i) None)
         /\ has_landmarks
              (Unavailable ("Error processing landmarks: " ++ txt i) None)
            = false)
    /\ (forall results e,
          analyze_posture txt results frame = Raise e ->
          kind e <> IndexError /\ kind e <> AttributeError).
Proof.
  intros txt frame. split.
  - intros lm p Hp.
    assert (Hlen : (List.length lm <= 24)%nat).
    { apply nth_error_None in Hp. pose proof (index_le_24 p). lia. }
    destruct (analyze_landmarks_incomplete txt lm (cv2.rows frame)
                (cv2.cols frame) Hlen) as (i & Hi & E).
    exists i. split; [exact Hi|]. split; [exact E|]. split; [|reflexivity].
    unfold analyze_posture. cbn. rewrite E. reflexivity.
  - intros results e H. unfold analyze_posture in H.
    destruct results as [res|]; [|discriminate].
    destruct (MediaPipe.pose_landmarks res) as [lm|]; [|discriminate].
    cbv zeta in H. unfold try_except in H.
    destruct (analyze_landmarks txt lm (cv2.rows frame) (cv2.cols frame))
      as [d|e']; [discriminate|].
    destruct (kind e') eqn:K; simpl in H; try discriminate;
      injection H as <-; rewrite K; split; discriminate.
Qed.

Lemma lookup_failure_reported_witness :
  MediaPipe.landmark_at (firstn 12 Sample.upright) MediaPipe.RIGHT_SHOULDER
  = None
  /\ analyze_posture Sample.index_error_text
       (Sample.results (firstn 12 Sample.upright)) Sample.frame
     = Return (Unavailable
                 "Error processing landmarks: list index out of range" None).
Proof.
  split; [reflexivity|].
  destruct (proj1 (lookup_failure_reported Sample.index_error_text Sample.frame)
              (firstn 12 Sample.upright) MediaPipe.RIGHT_SHOULDER)
    as (i & _ & _ & E & _).
  - reflexivity.
  - exact E.
Defined.

(** ** Landmarks that are not gated *)

(** C10, amended: when the landmark list is complete, the left shoulder, the
    right shoulder and the left hip each have visibility at least 0.5, and
    the coordinates of ears, shoulders and hips are finite numbers of
    magnitude below 2^32 (on the frame or off it) in a frame of fewer than
    2^31 rows and columns, the analyser returns the full assessment whatever
    the visibility of the ears and the right hip is.  Its mid-ear point is
    the midpoint of the ear pixels as reported; its neck inclination is what
    [find_angle] returns for the shoulder and ear midpoints, the angle of
    that segment to the vertical rounded down to whole degrees (stated with
    a margin of one more degree on either side, which covers the rounding
    of the library calls that the model leaves out); and its forward-head
    ratio is the quotient of the forward distance of the ear midpoint by
    the shoulder distance. *)
Theorem ungated_landmarks_classified :
  forall (txt : nat -> string) (lm : list MediaPipe.landmark)
         (frame : cv2.frame)
         (left_ear right_ear left_shoulder right_shoulder left_hip right_hip
            : MediaPipe.landmark),
    (24 < List.length lm)%nat ->
    MediaPipe.landmark_at lm MediaPipe.LEFT_EAR = Some left_ear ->
    MediaPipe.landmark_at lm MediaPipe.RIGHT_EAR = Some right_ear ->
    MediaPipe.landmark_at lm MediaPipe.LEFT_SHOULDER = Some left_shoulder ->
    MediaPipe.landmark_at lm MediaPipe.RIGHT_SHOULDER = Some right_shoulder ->
    MediaPipe.landmark_at lm MediaPipe.LEFT_HIP = Some left_hip ->
    MediaPipe.landmark_at lm MediaPipe.RIGHT_HIP = Some right_hip ->
    fle visibility_threshold (MediaPipe.visibility left_shoulder) = true ->
    fle visibility_threshold (MediaPipe.visibility right_shoulder) = true ->
    fle visibility_threshold (MediaPipe.visibility left_hip) = true ->
    MediaPipe.on_scale left_ear = true ->
    MediaPipe.on_scale right_ear = true ->
    MediaPipe.on_scale left_shoulder = true ->
    MediaPipe.on_scale right_shoulder = true ->
    MediaPipe.on_scale left_hip = true ->
    MediaPipe.on_scale right_hip = true ->
    0 <= cv2.rows frame < 2 ^ 31 ->
    0 <= cv2.cols frame < 2 ^ 31 ->
    exists a l_ear_x l_ear_y r_ear_x r_ear_y mid_shoulder_x mid_shoulder_y,
      analyze_posture txt (Some (MediaPipe.PoseResults (Some lm))) frame
        = Return (Full a)
      /\ has_landmarks (Full a) = true
      /\ to_pixel (MediaPipe.x left_ear) (cv2.cols frame) = Return l_ear_x
      /\ to_pixel (MediaPipe.y left_ear) (cv2.rows frame) = Return l_ear_y
      /\ to_pixel (MediaPipe.x right_ear) (cv2.cols frame) = Return r_ear_x
      /\ to_pixel (MediaPipe.y right_ear) (cv2.rows frame) = Return r_ear_y
      /\ get (visibility a) "l_ear" = Some (MediaPipe.visibility left_ear)
      /\ get (visibility a) "r_ear" = Some (MediaPipe.visibility right_ear)
      /\ get (visibility a) "r_hip" = Some (MediaPipe.visibility right_hip)
      /\ get (landmarks a) "mid_shoulder" = Some (mid_shoulder_x, mid_shoulder_y)
      /\ get (landmarks a) "mid_ear"
         = Some ((l_ear_x + r_ear_x) / 2, (l_ear_y + r_ear_y) / 2)
      /\ find_angle mid_shoulder_x mid_shoulder_y
           ((l_ear_x + r_ear_x) / 2) ((l_ear_y + r_ear_y) / 2)
         = Return (neck_inclination a)
      /\ (degrees_to_vertical ((l_ear_x + r_ear_x) / 2 - mid_shoulder_x)
                              ((l_ear_y + r_ear_y) / 2 - mid_shoulder_y) - 2
          < IZR (neck_inclination a)
          < degrees_to_vertical ((l_ear_x + r_ear_x) / 2 - mid_shoulder_x)
                                ((l_ear_y + r_ear_y) / 2 - mid_shoulder_y) + 1)%R
      /\ forward_head_ratio a
         = (if float_gt_int (shoulder_distance a) 0
            then PyFloat
                   (fdiv (Z2SF (Z.max 0 ((l_ear_x + r_ear_x) / 2
                                         - mid_shoulder_x)))
                         (shoulder_distance a))
            else PyInt 0).
Proof.
  intros txt lm frame left_ear right_ear left_shoulder right_shoulder
    left_hip right_hip Hlen Hle Hre Hls Hrs Hlh Hrh G1 G2 G3
    Nle Nre Nls Nrs Nlh Nrh Hrows Hcols.
  apply fle_not_flt in G1, G2, G3.
  destruct (analyze_landmarks_full txt lm (cv2.rows frame) (cv2.cols frame)
              left_ear right_ear left_shoulder right_shoulder left_hip right_hip
              Hlen Hle Hre Hls Hrs Hlh Hrh G1 G2 G3 Nle Nre Nls Nrs Nlh Nrh
              Hrows Hcols)
    as (a & lsx & lsy & rsx & rsy & lex & ley & rex & rey & lhx & lhy & rhx & rhy
        & H & Plsx & Plsy & Prsx & Prsy & Plex & Pley & Prex & Prey
        & _ & _ & _ & _ & L & V & _ & _ & I & _ & R & N & _).
  exists a, lex, ley, rex, rey, ((lsx + rsx) / 2), ((lsy + rsy) / 2).
  split; [apply analyze_posture_of_landmarks; exact H|].
  split; [reflexivity|].
  repeat (split; [assumption|]).
  rewrite V, L. repeat (split; [reflexivity|]).
  split; [exact N|]. split; [|exact R].
  rewrite I.
  pose proof (inclination_near ((lex + rex) / 2 - (lsx + rsx) / 2)
                ((ley + rey) / 2 - (lsy + rsy) / 2)) as Hn.
  lra.
Qed.

Lemma ungated_landmarks_classified_witness :
  exists a mid_shoulder_x mid_shoulder_y,
    analyze_posture Sample.index_error_text
      (Sample.results Sample.ears_hidden) Sample.frame = Return (Full a)
    /\ get (visibility a) "l_ear" = Some (Z2SF 0)
    /\ get (visibility a) "r_ear" = Some (Z2SF 0)
    /\ get (visibility a) "r_hip" = Some (Z2SF 0)
    /\ get (landmarks a) "mid_ear" = Some (120, 150)
    /\ find_angle mid_shoulder_x mid_shoulder_y 120 150
       = Return (neck_inclination a).
Proof.
  destruct (ungated_landmarks_classified Sample.index_error_text
              Sample.ears_hidden Sample.frame
              (Sample.at_pixel 110 150 Sample.unseen)
              (Sample.at_pixel 130 150 Sample.unseen)
              (Sample.at_pixel 100 200 Sample.seen)
              (Sample.at_pixel 140 200 Sample.seen)
              (Sample.at_pixel 100 350 Sample.seen)
              (Sample.at_pixel 140 350 Sample.unseen))
    as (a & lex & ley & rex & rey & msx & msy & H & _ & R);
    try sample_side.
  destruct R as (? & ? & ? & ? & V1 & V2 & V3 & _ & Le & N & _).
  pixel_values.
  exists a, msx, msy. repeat (split; [assumption|]). exact N.
Defined.

(** What C10 says of every landmark set fails: with all six landmarks well
    visible and one ear coordinate not a number, the analyser returns no
    assessment but raises. *)
Lemma gated_landmarks_not_classified :
  MediaPipe.landmark_at ear_lost MediaPipe.LEFT_SHOULDER
  = Some (Sample.at_pixel 100 200 Sample.seen)
  /\ MediaPipe.landmark_at ear_lost MediaPipe.RIGHT_SHOULDER
     = Some (Sample.at_pixel 140 200 Sample.seen)
  /\ MediaPipe.landmark_at ear_lost MediaPipe.LEFT_HIP
     = Some (Sample.at_pixel 100 350 Sample.seen)
  /\ fle visibility_threshold Sample.seen = true
  /\ analyze_posture Sample.index_error_text (Sample.results ear_lost)
       Sample.frame
     = Raise (Exn ValueError "cannot convert float NaN to integer").
Proof.
  split; [reflexivity|]. split; [reflexivity|]. split; [reflexivity|].
  split; vm_compute; reflexivity.
Qed.

(** ** Further properties of the analyser *)

Lemma float_of_int_nonneg_Return (n : Z) (f : float) :
  0 <= n -> float_of_int n = Return f -> nonneg_finite f.
Proof.
  intros Hn H. pose proof (float_of_int_Return n f H) as ->.
  destruct (Z2SF_nonneg_cases n Hn) as [Hi|Hf]; [|exact Hf].
  unfold float_of_int in H. rewrite Hi in H. discriminate.
Qed.

Lemma find_angle_Return_range (x1 y1 x2 y2 angle : Z) :
  find_angle x1 y1 x2 y2 = Return angle -> 0 <= angle <= 90.
Proof.
  intros H. unfold find_angle, math_atan2 in H.
  destruct (float_of_int (Z.abs (x2 - x1))) as [fy|e1] eqn:E1; cbn [bind] in H.
  - destruct (float_of_int (Z.abs (y2 - y1))) as [fx|e2] eqn:E2; cbn [bind] in H.
    + pose proof (float_of_int_nonneg_Return _ _ (Z.abs_nonneg _) E1) as Ny.
      pose proof (float_of_int_nonneg_Return _ _ (Z.abs_nonneg _) E2) as Nx.
      rewrite (atan2_nonneg fy fx Ny Nx) in H.
      cbn [math_degrees int_of_xreal try_except] in H. injection H as <-.
      apply (Rtrunc_range _ 90). apply degrees_quadrant. apply Ratan2_quadrant;
        apply SF2R_nonneg; assumption.
    + unfold try_except in H. rewrite (float_of_int_Raise _ _ E2) in H.
      discriminate.
  - unfold try_except in H. rewrite (float_of_int_Raise _ _ E1) in H.
    discriminate.
Qed.

(** X1: whatever its arguments, [find_angle] returns an angle between 0 and 90
    when it returns, and raises nothing but the [OverflowError] of an int
    too large for a double. *)
Theorem find_angle_total :
  forall x1 y1 x2 y2 : Z,
    (forall angle, find_angle x1 y1 x2 y2 = Return angle -> 0 <= angle <= 90)
    /\ (forall e, find_angle x1 y1 x2 y2 = Raise e -> kind e = OverflowError).
Proof.
  intros x1 y1 x2 y2. split.
  - intros angle. apply find_angle_Return_range.
  - intros e. apply find_angle_Raise.
Qed.

(** X2: in every full assessment the shoulder offset is non-negative and both
    inclinations are whole degrees between 0 and 90. *)
Theorem assessment_metrics_bounded :
  forall (txt : nat -> string) (results : option MediaPipe.pose_results)
         (frame : cv2.frame) (a : assessment),
    analyze_posture txt results frame = Return (Full a) ->
    0 <= shoulder_offset a
    /\ 0 <= neck_inclination a <= 90
    /\ 0 <= torso_inclination a <= 90
    /\ sign_bit (shoulder_distance a) = false
    /\ is_nan (shoulder_distance a) = false.
Proof.
  intros txt results frame a H.
  destruct (analyze_posture_Full_inv txt results frame a H) as [lm E].
  unfold analyze_landmarks in E.
  return_inv E. destruct (_ || _); [discriminate|].
  return_inv E. injection E as <-.
  cbn [shoulder_offset neck_inclination torso_inclination shoulder_distance].
  split; [apply Z.abs_nonneg|].
  repeat match goal with
         | Hf : find_angle _ _ _ _ = Return _ |- _ =>
             apply find_angle_Return_range in Hf
         | Hd : find_distance _ _ _ _ = Return _ |- _ =>
             apply find_distance_not_nan in Hd; destruct Hd
         end.
  repeat split; try assumption; lia.
Qed.

Lemma analyze_landmarks_labels (txt : nat -> string)
    (lm : list MediaPipe.landmark) (h w : Z) (a : assessment) :
  analyze_landmarks txt lm h w = Return (Full a) ->
  posture_assessment a
  = [ ("shoulder_balance", if is_aligned a then "Good" else "Poor");
      ("neck_position",
        if is_neck_good a then "Good" else "Forward head posture");
      ("torso_position", if is_torso_good a then "Good" else "Slouching");
      ("overall", if is_good_posture a then "Good" else "Needs improvement")
    ]%string.
Proof.
  unfold analyze_landmarks. intros E.
  return_inv E. destruct (_ || _); [discriminate|].
  return_inv E. injection E as <-. reflexivity.
Qed.

(** X3: the labels of a full assessment spell its judgments. *)
Theorem assessment_labels :
  forall (txt : nat -> string) (results : option MediaPipe.pose_results)
         (frame : cv2.frame) (a : assessment),
    analyze_posture txt results frame = Return (Full a) ->
    posture_assessment a
    = [ ("shoulder_balance", if is_aligned a then "Good" else "Poor");
        ("neck_position",
          if is_neck_good a then "Good" else "Forward head posture");
        ("torso_position", if is_torso_good a then "Good" else "Slouching");
        ("overall", if is_good_posture a then "Good" else "Needs improvement")
      ]%string.
Proof.
  intros txt results frame a H.
  destruct (analyze_posture_Full_inv txt results frame a H) as [lm E].
  exact (analyze_landmarks_labels txt lm _ _ a E).
Qed.

(** ** The overlay of a full assessment *)

(** X4: for a full assessment of the analyser whose points fit the C ints
    that [cv2] takes, the renderer adds, in this order, the neck line, the
    torso line, the vertical reference line of 150 pixels, the shoulder line
    and the three texts; every element but the reference line has the one
    colour chosen by the overall judgment. *)
Theorem overlay_of_full_assessment :
  forall (txt : nat -> string) (results : option MediaPipe.pose_results)
         (analysed frame : cv2.frame) (a : assessment),
    analyze_posture txt results analysed = Return (Full a) ->
    drawable frame a = true ->
    exists mid_shoulder mid_ear mid_hip l_shldr r_shldr,
      get (landmarks a) "mid_shoulder" = Some mid_shoulder
      /\ get (landmarks a) "mid_ear" = Some mid_ear
      /\ get (landmarks a) "mid_hip" = Some mid_hip
      /\ get (landmarks a) "l_shldr" = Some l_shldr
      /\ get (landmarks a) "r_shldr" = Some r_shldr
      /\ let color := if is_good_posture a then (0, 255, 0) else (0, 0, 255) in
         let overall :=
           (if is_good_posture a then "Good" else "Needs improvement")%string in
         draw_pose_annotations frame (Some (Full a))
         = cv2.Frame (cv2.rows frame) (cv2.cols frame)
             (cv2.drawn frame ++
              [ cv2.Line mid_shoulder mid_ear color 2;
                cv2.Line mid_shoulder mid_hip color 2;
                cv2.Line mid_shoulder
                  (fst mid_shoulder, snd mid_shoulder - 150) (255, 255, 0) 2;
                cv2.Line l_shldr r_shldr color 3;
                cv2.PutText
                  ("Neck: " ++ str_of_int (neck_inclination a) ++ degree_sign)
                  (10, 30) cv2.FONT_HERSHEY_SIMPLEX (literal 6 10) color 2;
                cv2.PutText
                  ("Torso: " ++ str_of_int (torso_inclination a) ++ degree_sign)
                  (10, 60) cv2.FONT_HERSHEY_SIMPLEX (literal 6 10) color 2;
                cv2.PutText ("Posture: " ++ overall)
                  (10, cv2.rows frame - 20) cv2.FONT_HERSHEY_SIMPLEX
                  (literal 6 10) color 2 ]).
Proof.
  intros txt results analysed frame a H _.
  destruct (analyze_posture_Full_inv txt results analysed a H) as [lm E].
  unfold analyze_landmarks in E.
  return_inv E. destruct (_ || _); [discriminate|].
  return_inv E. injection E as <-.
  cbn [landmarks is_good_posture neck_inclination torso_inclination].
  do 5 eexists. repeat (split; [reflexivity|]).
  cbv zeta. unfold draw_pose_annotations, draw_assessment.
  cbn [has_landmarks negb landmarks is_good_posture neck_inclination
       torso_inclination posture_assessment].
  cbn [get String.eqb Ascii.eqb Bool.eqb].
  unfold cv2.putText, cv2.line, label. cbn [cv2.rows cv2.cols cv2.drawn fst snd].
  rewrite <- !app_assoc. cbn [app].
  reflexivity.
Qed.

(** ** The upright sample *)

Lemma inclination_vertical (dy : Z) : inclination 0 dy = 0.
Proof.
  unfold inclination. change (Z.abs 0) with 0.
  change (SF2R (Z2SF 0)) with 0%R.
  assert (Hx : (0 <= SF2R (Z2SF (Z.abs dy)))%R).
  { destruct (Z2SF_nonneg_cases (Z.abs dy) (Z.abs_nonneg dy)) as [->|H].
    - simpl. lra.
    - apply SF2R_nonneg. exact H. }
  rewrite (Ratan2_zero _ Hx), Rmult_0_l.
  apply Rtrunc_floor; simpl; lra.
Qed.

Lemma upright_analysed :
  exists a,
    analyze_posture Sample.index_error_text (Sample.results Sample.upright)
      Sample.frame = Return (Full a)
    /\ shoulder_offset a = 0
    /\ neck_inclination a = 0
    /\ torso_inclination a = 0
    /\ forward_head_ratio a = PyFloat (S754_zero false).
Proof.
  destruct (analyze_landmarks_full Sample.index_error_text Sample.upright
              400 640
              (Sample.at_pixel 110 150 Sample.seen)
              (Sample.at_pixel 130 150 Sample.seen)
              (Sample.at_pixel 100 200 Sample.seen)
              (Sample.at_pixel 140 200 Sample.seen)
              (Sample.at_pixel 100 350 Sample.seen)
              (Sample.at_pixel 140 350 Sample.seen))
    as (a & ? & ? & ? & ? & ? & ? & ? & ? & ? & ? & ? & ? & H & R);
    try sample_side.
  destruct R as (? & ? & ? & ? & ? & ? & ? & ? & ? & ? & ? & ? & _ & _ & O & D
                 & N & T & F & _).
  pixel_values.
  exists a. split; [apply analyze_posture_of_landmarks; exact H|].
  split; [exact O|].
  split; [rewrite N; apply inclination_vertical|].
  split; [rewrite T; apply inclination_vertical|].
  rewrite F.
  assert (G : match find_distance 100 200 140 200 with
              | Return d =>
                  (if float_gt_int d 0
                   then PyFloat (fdiv (Z2SF (Z.max 0 ((110 + 130) / 2
                                                      - (100 + 140) / 2))) d)
                   else PyInt 0) = PyFloat (S754_zero false)
              | Raise _ => False
              end) by (vm_compute; reflexivity).
  rewrite D in G. exact G.
Qed.

(** The points of the upright sample's assessment fit C ints. *)
Lemma upright_drawable :
  exists a,
    analyze_posture Sample.index_error_text (Sample.results Sample.upright)
      Sample.frame = Return (Full a)
    /\ drawable Sample.frame a = true.
Proof.
  destruct (analyze_landmarks_full Sample.index_error_text Sample.upright
              400 640
              (Sample.at_pixel 110 150 Sample.seen)
              (Sample.at_pixel 130 150 Sample.seen)
              (Sample.at_pixel 100 200 Sample.seen)
              (Sample.at_pixel 140 200 Sample.seen)
              (Sample.at_pixel 100 350 Sample.seen)
              (Sample.at_pixel 140 350 Sample.seen))
    as (a & ? & ? & ? & ? & ? & ? & ? & ? & ? & ? & ? & ? & H & R);
    try sample_side.
  destruct R as (? & ? & ? & ? & ? & ? & ? & ? & ? & ? & ? & ? & L & _).
  pixel_values.
  exists a. split; [apply analyze_posture_of_landmarks; exact H|].
  unfold drawable. rewrite L. vm_compute. reflexivity.
Qed.

(** X5: the upright sample (shoulders at (100, 200) and (140, 200), ears at
    (110, 150) and (130, 150)): the neck is vertical, the shoulders level,
    and every judgment is good. *)
Theorem upright_is_good_posture :
  exists a,
    analyze_posture Sample.index_error_text (Sample.results Sample.upright)
      Sample.frame = Return (Full a)
    /\ shoulder_offset a = 0
    /\ neck_inclination a = 0
    /\ is_aligned a = true
    /\ is_neck_good a = true
    /\ is_torso_good a = true
    /\ is_head_position_good a = true
    /\ is_good_posture a = true
    /\ get (posture_assessment a) "overall" = Some "Good"%string.
Proof.
  destruct upright_analysed as (a & E & O & N & T & F).
  destruct (analyze_posture_Full_inv _ _ _ a E) as [lm El].
  destruct (analyze_landmarks_judgments _ _ _ _ a El)
    as (Ha & Hn & Ht & Hh & Hg).
  rewrite O in Ha. rewrite N in Hn. rewrite T in Ht. rewrite F in Hh.
  change (0 <? 30) with true in Ha. change (0 <? 35) with true in Hn.
  change (0 <? 10) with true in Ht.
  assert (Hh' : is_head_position_good a = true) by (rewrite Hh; reflexivity).
  rewrite Ha, Hn, Ht, Hh' in Hg.
  exists a. repeat (split; [assumption|]).
  rewrite (analyze_landmarks_labels _ _ _ _ a El). rewrite Hg. reflexivity.
Qed.

Lemma assessment_metrics_bounded_witness :
  exists a,
    analyze_posture Sample.index_error_text (Sample.results Sample.upright)
      Sample.frame = Return (Full a)
    /\ 0 <= shoulder_offset a
    /\ 0 <= neck_inclination a <= 90
    /\ 0 <= torso_inclination a <= 90
    /\ sign_bit (shoulder_distance a) = false
    /\ is_nan (shoulder_distance a) = false.
Proof.
  destruct upright_analysed as (a & E & _).
  exists a. split; [exact E|].
  exact (assessment_metrics_bounded _ _ _ a E).
Defined.

Lemma assessment_labels_witness :
  exists a,
    analyze_posture Sample.index_error_text (Sample.results Sample.upright)
      Sample.frame = Return (Full a)
    /\ posture_assessment a
       = [ ("shoulder_balance", if is_aligned a then "Good" else "Poor");
           ("neck_position",
             if is_neck_good a then "Good" else "Forward head posture");
           ("torso_position", if is_torso_good a then "Good" else "Slouching");
           ("overall",
             if is_good_posture a then "Good" else "Needs improvement")
         ]%string.
Proof.
  destruct upright_analysed as (a & E & _).
  exists a. split; [exact E|].
  exact (assessment_labels _ _ _ a E).
Defined.

Lemma overlay_of_full_assessment_witness :
  exists a,
    analyze_posture Sample.index_error_text (Sample.results Sample.upright)
      Sample.frame = Return (Full a)
    /\ List.length (cv2.drawn (draw_pose_annotations Sample.frame (Some (Full a))))
       = 7%nat.
Proof.
  destruct upright_drawable as (a & E & F).
  exists a. split; [exact E|].
  destruct (overlay_of_full_assessment _ _ _ Sample.frame a E F)
    as (? & ? & ? & ? & ? & _ & _ & _ & _ & _ & D).
  cbv zeta in D. rewrite D. reflexivity.
Defined.

(** ** What a full assessment says about its input *)

Lemma getitem_Return (txt : nat -> string) (lm : list MediaPipe.landmark)
    (p : MediaPipe.PoseLandmark) (l : MediaPipe.landmark) :
  getitem txt lm p = Return l -> MediaPipe.landmark_at lm p = Some l.
Proof.
  unfold getitem. destruct (MediaPipe.landmark_at lm p); intros H;
    [injection H as <-; reflexivity | discriminate].
Qed.

Ltac lookups_found :=
  repeat match goal with
         | H : getitem _ _ _ = Return _ |- _ => apply getitem_Return in H
         end.

Lemma ratio_Return_inv (forward_head_distance : Z) (shoulder_distance : float)
    (ratio : num) :
  (if float_gt_int shoulder_distance 0
   then q <- int_truediv_float forward_head_distance shoulder_distance;;
        Return (PyFloat q)
   else Return (PyInt 0)) = Return ratio ->
  if float_gt_int shoulder_distance 0
  then exists q,
         int_truediv_float forward_head_distance shoulder_distance = Return q
         /\ ratio = PyFloat q
  else ratio = PyInt 0.
Proof.
  destruct (float_gt_int shoulder_distance 0); intros H.
  - return_inv H. injection H as <-. eauto.
  - injection H as <-. reflexivity.
Qed.

(** The [try] block returns a full assessment only for a list that holds
    every required landmark and passes the gate; the assessment carries the
    six visibilities and the pixel coordinates its metrics are computed
    from. *)
Lemma analyze_landmarks_Full_inv (txt : nat -> string)
    (lm : list MediaPipe.landmark) (h w : Z) (a : assessment) :
  analyze_landmarks txt lm h w = Return (Full a) ->
  exists left_ear right_ear left_shoulder right_shoulder left_hip right_hip
         l_shldr_x l_shldr_y r_shldr_x r_shldr_y l_ear_x l_ear_y
         r_ear_x r_ear_y l_hip_x l_hip_y r_hip_x r_hip_y,
    (MediaPipe.landmark_at lm MediaPipe.LEFT_EAR = Some left_ear
     /\ MediaPipe.landmark_at lm MediaPipe.RIGHT_EAR = Some right_ear
     /\ MediaPipe.landmark_at lm MediaPipe.LEFT_SHOULDER = Some left_shoulder
     /\ MediaPipe.landmark_at lm MediaPipe.RIGHT_SHOULDER
        = Some right_shoulder
     /\ MediaPipe.landmark_at lm MediaPipe.LEFT_HIP = Some left_hip
     /\ MediaPipe.landmark_at lm MediaPipe.RIGHT_HIP = Some right_hip)
    /\ (flt (MediaPipe.visibility left_shoulder) visibility_threshold = false
        /\ flt (MediaPipe.visibility right_shoulder) visibility_threshold
           = false
        /\ flt (MediaPipe.visibility left_hip) visibility_threshold = false)
    /\ ((to_pixel (MediaPipe.x left_shoulder) w = Return l_shldr_x
         /\ to_pixel (MediaPipe.y left_shoulder) h = Return l_shldr_y)
        /\ (to_pixel (MediaPipe.x right_shoulder) w = Return r_shldr_x
            /\ to_pixel (MediaPipe.y right_shoulder) h = Return r_shldr_y)
        /\ (to_pixel (MediaPipe.x left_ear) w = Return l_ear_x
            /\ to_pixel (MediaPipe.y left_ear) h = Return l_ear_y)
        /\ (to_pixel (MediaPipe.x right_ear) w = Return r_ear_x
            /\ to_pixel (MediaPipe.y right_ear) h = Return r_ear_y)
        /\ (to_pixel (MediaPipe.x left_hip) w = Return l_hip_x
            /\ to_pixel (MediaPipe.y left_hip) h = Return l_hip_y)
        /\ (to_pixel (MediaPipe.x right_hip) w = Return r_hip_x
            /\ to_pixel (MediaPipe.y right_hip) h = Return r_hip_y))
    /\ visibility a =
         [ ("l_shoulder"%string, MediaPipe.visibility left_shoulder);
           ("r_shoulder"%string, MediaPipe.visibility right_shoulder);
           ("l_ear"%string, MediaPipe.visibility left_ear);
           ("r_ear"%string, MediaPipe.visibility right_ear);
           ("l_hip"%string, MediaPipe.visibility left_hip);
           ("r_hip"%string, MediaPipe.visibility right_hip) ]
    /\ landmarks a =
         [ ("mid_shoulder"%string,
             ((l_shldr_x + r_shldr_x) / 2, (l_shldr_y + r_shldr_y) / 2));
           ("mid_hip"%string,
             ((l_hip_x + r_hip_x) / 2, (l_hip_y + r_hip_y) / 2));
           ("mid_ear"%string,
             ((l_ear_x + r_ear_x) / 2, (l_ear_y + r_ear_y) / 2));
           ("l_shldr"%string, (l_shldr_x, l_shldr_y));
           ("r_shldr"%string, (r_shldr_x, r_shldr_y));
           ("l_ear"%string, (l_ear_x, l_ear_y));
           ("r_ear"%string, (r_ear_x, r_ear_y));
           ("l_hip"%string, (l_hip_x, l_hip_y));
           ("r_hip"%string, (r_hip_x, r_hip_y)) ]
    /\ shoulder_offset a = Z.abs (l_shldr_y - r_shldr_y)
    /\ find_distance l_shldr_x l_shldr_y r_shldr_x r_shldr_y
       = Return (shoulder_distance a)
    /\ find_angle ((l_shldr_x + r_shldr_x) / 2) ((l_shldr_y + r_shldr_y) / 2)
                  ((l_ear_x + r_ear_x) / 2) ((l_ear_y + r_ear_y) / 2)
       = Return (neck_inclination a)
    /\ find_angle ((l_hip_x + r_hip_x) / 2) ((l_hip_y + r_hip_y) / 2)
                  ((l_shldr_x + r_shldr_x) / 2) ((l_shldr_y + r_shldr_y) / 2)
       = Return (torso_inclination a)
    /\ (if float_gt_int (shoulder_distance a) 0
        then exists q,
               int_truediv_float
                 (Z.max 0 ((l_ear_x + r_ear_x) / 2 - (l_shldr_x + r_shldr_x) / 2))
                 (shoulder_distance a) = Return q
               /\ forward_head_ratio a = PyFloat q
        else forward_head_ratio a = PyInt 0).
Proof.
  unfold analyze_landmarks. intros H.
  return_inv H. lookups_found.
  destruct (_ || _) eqn:G; [discriminate|].
  apply orb_false_elim in G. destruct G as [G G3].
  apply orb_false_elim in G. destruct G as [G1 G2].
  return_inv H. injection H as <-.
  match goal with
  | E : (if float_gt_int _ 0 then _ else _) = Return _ |- _ =>
      apply ratio_Return_inv in E; rewrite forward_head_distance_max in E
  end.
  cbn [visibility landmarks shoulder_offset shoulder_distance
       neck_inclination torso_inclination forward_head_ratio].
  do 18 eexists.
  split; [repeat split; eassumption|].
  split; [repeat split; eassumption|].
  split; [repeat split; eassumption|].
  repeat (split; [reflexivity|]).
  repeat (split; [eassumption|]).
  eassumption.
Qed.

Lemma analyze_posture_Full_source (txt : nat -> string)
    (results : option MediaPipe.pose_results) (frame : cv2.frame)
    (a : assessment) :
  analyze_posture txt results frame = Return (Full a) ->
  exists res lm,
    results = Some res
    /\ MediaPipe.pose_landmarks res = Some lm
    /\ analyze_landmarks txt lm (cv2.rows frame) (cv2.cols frame)
       = Return (Full a).
Proof.
  unfold analyze_posture. intros H.
  destruct results as [res|]; [|discriminate].
  destruct (MediaPipe.pose_landmarks res) as [lm|] eqn:L; [|discriminate].
  exists res, lm. split; [reflexivity|]. split; [exact L|].
  cbv zeta in H. unfold try_except in H.
  destruct (analyze_landmarks txt lm (cv2.rows frame) (cv2.cols frame)) as [d|e].
  - exact H.
  - destruct (kind e); discriminate.
Qed.

(** X6: a full assessment is only ever returned for a detection whose
    landmark list holds all required landmarks and in which none of left
    shoulder, right shoulder and left hip has visibility below 0.5; its
    visibility map holds the six visibilities as they came in. *)
Theorem full_assessment_inputs :
  forall (txt : nat -> string) (results : option MediaPipe.pose_results)
         (frame : cv2.frame) (a : assessment),
    analyze_posture txt results frame = Return (Full a) ->
    exists res lm left_ear right_ear left_shoulder right_shoulder
           left_hip right_hip,
      results = Some res
      /\ MediaPipe.pose_landmarks res = Some lm
      /\ (24 < List.length lm)%nat
      /\ MediaPipe.landmark_at lm MediaPipe.LEFT_EAR = Some left_ear
      /\ MediaPipe.landmark_at lm MediaPipe.RIGHT_EAR = Some right_ear
      /\ MediaPipe.landmark_at lm MediaPipe.LEFT_SHOULDER = Some left_shoulder
      /\ MediaPipe.landmark_at lm MediaPipe.RIGHT_SHOULDER
         = Some right_shoulder
      /\ MediaPipe.landmark_at lm MediaPipe.LEFT_HIP = Some left_hip
      /\ MediaPipe.landmark_at lm MediaPipe.RIGHT_HIP = Some right_hip
      /\ flt (MediaPipe.visibility left_shoulder) visibility_threshold = false
      /\ flt (MediaPipe.visibility right_shoulder) visibility_threshold = false
      /\ flt (MediaPipe.visibility left_hip) visibility_threshold = false
      /\ visibility a =
           [ ("l_shoulder"%string, MediaPipe.visibility left_shoulder);
             ("r_shoulder"%string, MediaPipe.visibility right_shoulder);
             ("l_ear"%string, MediaPipe.visibility left_ear);
             ("r_ear"%string, MediaPipe.visibility right_ear);
             ("l_hip"%string, MediaPipe.visibility left_hip);
             ("r_hip"%string, MediaPipe.visibility right_hip) ].
Proof.
  intros txt results frame a H.
  destruct (analyze_posture_Full_source txt results frame a H)
    as (res & lm & -> & L & E).
  destruct (analyze_landmarks_Full_inv txt lm _ _ a E)
    as (le & re & ls & rs & lh & rh & lsx & lsy & rsx & rsy & lex & ley
        & rex & rey & lhx & lhy & rhx & rhy & Hat & Hgate & _ & V & _).
  destruct Hat as (Hle & Hre & Hls & Hrs & Hlh & Hrh).
  destruct Hgate as (G1 & G2 & G3).
  exists res, lm, le, re, ls, rs, lh, rh.
  split; [reflexivity|]. split; [exact L|].
  split.
  { assert (Hn : nth_error lm 24 <> None).
    { unfold MediaPipe.landmark_at in Hrh.
      change (MediaPipe.index MediaPipe.RIGHT_HIP) with 24%nat in Hrh.
      rewrite Hrh. discriminate. }
    apply nth_error_Some in Hn. lia. }
  repeat (split; [assumption|]). exact V.
Qed.

Lemma full_assessment_inputs_witness :
  exists a res lm left_ear,
    analyze_posture Sample.index_error_text (Sample.results Sample.upright)
      Sample.frame = Return (Full a)
    /\ Sample.results Sample.upright = Some res
    /\ MediaPipe.pose_landmarks res = Some lm
    /\ (24 < List.length lm)%nat
    /\ MediaPipe.landmark_at lm MediaPipe.LEFT_EAR = Some left_ear
    /\ get (visibility a) "l_ear" = Some (MediaPipe.visibility left_ear).
Proof.
  destruct upright_analysed as (a & E & _).
  destruct (full_assessment_inputs _ _ _ a E)
    as (res & lm & le & re & ls & rs & lh & rh & R & L & N & Hle & _ & _ & _
        & _ & _ & _ & _ & _ & V).
  exists a, res, lm, le. repeat (split; [assumption|]).
  rewrite V. reflexivity.
Defined.

(** X7: the metrics of a full assessment are those of the pixel coordinates
    it carries: the three midpoints are the floored averages of the shoulder,
    hip and ear pixels, the shoulder offset and distance are those of the two
    shoulder pixels, and the neck and torso inclinations are [find_angle] of
    the midpoints. *)
Theorem assessment_consistent :
  forall (txt : nat -> string) (results : option MediaPipe.pose_results)
         (frame : cv2.frame) (a : assessment),
    analyze_posture txt results frame = Return (Full a) ->
    exists l_shldr_x l_shldr_y r_shldr_x r_shldr_y l_ear_x l_ear_y
           r_ear_x r_ear_y l_hip_x l_hip_y r_hip_x r_hip_y,
      keys (landmarks a)
      = [ "mid_shoulder"; "mid_hip"; "mid_ear"; "l_shldr"; "r_shldr";
          "l_ear"; "r_ear"; "l_hip"; "r_hip" ]%string
      /\ get (landmarks a) "l_shldr" = Some (l_shldr_x, l_shldr_y)
      /\ get (landmarks a) "r_shldr" = Some (r_shldr_x, r_shldr_y)
      /\ get (landmarks a) "l_ear" = Some (l_ear_x, l_ear_y)
      /\ get (landmarks a) "r_ear" = Some (r_ear_x, r_ear_y)
      /\ get (landmarks a) "l_hip" = Some (l_hip_x, l_hip_y)
      /\ get (landmarks a) "r_hip" = Some (r_hip_x, r_hip_y)
      /\ get (landmarks a) "mid_shoulder"
         = Some ((l_shldr_x + r_shldr_x) / 2, (l_shldr_y + r_shldr_y) / 2)
      /\ get (landmarks a) "mid_ear"
         = Some ((l_ear_x + r_ear_x) / 2, (l_ear_y + r_ear_y) / 2)
      /\ get (landmarks a) "mid_hip"
         = Some ((l_hip_x + r_hip_x) / 2, (l_hip_y + r_hip_y) / 2)
      /\ shoulder_offset a = Z.abs (l_shldr_y - r_shldr_y)
      /\ find_distance l_shldr_x l_shldr_y r_shldr_x r_shldr_y
         = Return (shoulder_distance a)
      /\ find_angle ((l_shldr_x + r_shldr_x) / 2) ((l_shldr_y + r_shldr_y) / 2)
                    ((l_ear_x + r_ear_x) / 2) ((l_ear_y + r_ear_y) / 2)
         = Return (neck_inclination a)
      /\ find_angle ((l_hip_x + r_hip_x) / 2) ((l_hip_y + r_hip_y) / 2)
                    ((l_shldr_x + r_shldr_x) / 2) ((l_shldr_y + r_shldr_y) / 2)
         = Return (torso_inclination a).
Proof.
  intros txt results frame a H.
  destruct (analyze_posture_Full_source txt results frame a H)
    as (res & lm & _ & _ & E).
  destruct (analyze_landmarks_Full_inv txt lm _ _ a E)
    as (le & re & ls & rs & lh & rh & lsx & lsy & rsx & rsy & lex & ley
        & rex & rey & lhx & lhy & rhx & rhy & _ & _ & _ & _ & L & O & D & N
        & T & _).
  exists lsx, lsy, rsx, rsy, lex, ley, rex, rey, lhx, lhy, rhx, rhy.
  rewrite L. repeat (split; [reflexivity|]).
  repeat (split; [assumption|]). assumption.
Qed.

Lemma assessment_consistent_witness :
  exists a,
    analyze_posture Sample.index_error_text (Sample.results Sample.upright)
      Sample.frame = Return (Full a)
    /\ exists l_shldr_y r_shldr_y,
         shoulder_offset a = Z.abs (l_shldr_y - r_shldr_y).
Proof.
  destruct upright_analysed as (a & E & _).
  exists a. split; [exact E|].
  destruct (assessment_consistent _ _ _ a E)
    as (lsx & lsy & rsx & rsy & ? & ? & ? & ? & ? & ? & ? & ? & R).
  destruct R as (_ & _ & _ & _ & _ & _ & _ & _ & _ & _ & O & _).
  exists lsy, rsy. exact O.
Defined.

(** ** The thresholds served and the thresholds applied *)

(** X8: the four thresholds the web layer serves are the ones the analyser
    judges by: each sub-judgment of a full assessment is the strict
    comparison of its metric with the threshold served under its name. *)
Theorem served_thresholds_applied :
  forall (txt : nat -> string) (results : option MediaPipe.pose_results)
         (frame : cv2.frame) (a : assessment),
    analyze_posture txt results frame = Return (Full a) ->
    exists neck torso alignment head,
      get get_posture_thresholds "neck_angle_threshold" = Some (PyInt neck)
      /\ get get_posture_thresholds "torso_angle_threshold"
         = Some (PyInt torso)
      /\ get get_posture_thresholds "alignment_threshold"
         = Some (PyInt alignment)
      /\ get get_posture_thresholds "forward_head_threshold"
         = Some (PyFloat head)
      /\ is_neck_good a = (neck_inclination a <? neck)
      /\ is_torso_good a = (torso_inclination a <? torso)
      /\ is_aligned a = (shoulder_offset a <? alignment)
      /\ is_head_position_good a
         = num_lt_float (forward_head_ratio a) head.
Proof.
  intros txt results frame a H.
  destruct (analyze_posture_Full_inv txt results frame a H) as [lm E].
  destruct (analyze_landmarks_judgments _ _ _ _ _ E) as (Ha & Hn & Ht & Hh & _).
  exists 35, 10, 30, (literal 2 10).
  repeat (split; [reflexivity|]).
  split; [exact Hn|]. split; [exact Ht|]. split; [exact Ha|]. exact Hh.
Qed.

Lemma served_thresholds_applied_witness :
  exists a neck,
    analyze_posture Sample.index_error_text (Sample.results Sample.upright)
      Sample.frame = Return (Full a)
    /\ get get_posture_thresholds "neck_angle_threshold" = Some (PyInt neck)
    /\ is_neck_good a = (neck_inclination a <? neck).
Proof.
  destruct upright_analysed as (a & E & _).
  destruct (served_thresholds_applied _ _ _ a E)
    as (neck & torso & alignment & head & Gn & _ & _ & _ & Hn & _).
  exists a, neck. split; [exact E|]. split; [exact Gn | exact Hn].
Defined.

(** ** Frame acquisition *)

Lemma frame_size_zero (frame : cv2.frame) :
  frame_size frame = 0 <-> cv2.rows frame = 0 \/ cv2.cols frame = 0.
Proof. unfold frame_size. lia. Qed.

(** X9: a frame that is missing or has no pixels never reaches the pose
    model: [process_frame] returns no detection and leaves the model's state
    as it was, the analyser then reports that no pose was detected, and the
    renderer hands the frame back with nothing drawn.  Any other frame is
    passed to the model once and its detection is returned. *)
Theorem process_frame_empty :
  forall (pose_state : Type)
         (pose_process :
            pose_state -> cv2.frame -> MediaPipe.pose_results * pose_state)
         (txt : nat -> string) (pose : pose_state) (frame : cv2.frame),
    process_frame pose_state pose_process pose None = (None, pose)
    /\ (cv2.rows frame = 0 \/ cv2.cols frame = 0 ->
        process_frame pose_state pose_process pose (Some frame) = (None, pose)
        /\ (forall d,
              analyze_posture txt
                (fst (process_frame pose_state pose_process pose (Some frame)))
                frame = Return d ->
              d = no_pose /\ draw_pose_annotations frame (Some d) = frame))
    /\ (cv2.rows frame <> 0 /\ cv2.cols frame <> 0 ->
        process_frame pose_state pose_process pose (Some frame)
        = (Some (fst (pose_process pose frame)),
           snd (pose_process pose frame))).
Proof.
  intros pose_state pose_process txt pose frame.
  split; [reflexivity|]. split.
  - intros Hz. apply frame_size_zero in Hz.
    assert (E : process_frame pose_state pose_process pose (Some frame)
                = (None, pose)).
    { unfold process_frame. rewrite Hz. reflexivity. }
    split; [exact E|]. rewrite E. cbn [fst analyze_posture].
    intros d Hd. injection Hd as <-. split; reflexivity.
  - intros Hnz. unfold process_frame.
    destruct (frame_size frame =? 0) eqn:Z0.
    + apply Z.eqb_eq, frame_size_zero in Z0. tauto.
    + destruct (pose_process pose frame). reflexivity.
Qed.

(** ** The renderer on any input *)

Ltac overlay_colours :=
  repeat (apply Forall_cons;
          [ cbn [overlay_colour];
            first [ left; reflexivity
                  | right; left; reflexivity
                  | right; right; reflexivity ] | ]);
  apply Forall_nil.

Lemma draw_assessment_appends (frame : cv2.frame) (a : assessment) :
  let colour := if is_good_posture a then (0, 255, 0) else (0, 0, 255) in
  cv2.rows (draw_assessment frame a) = cv2.rows frame
  /\ cv2.cols (draw_assessment frame a) = cv2.cols frame
  /\ exists before after,
       cv2.drawn (draw_assessment frame a)
       = cv2.drawn frame
         ++ before
         ++ [ cv2.PutText
                ("Neck: " ++ str_of_int (neck_inclination a) ++ degree_sign)
                (10, 30) cv2.FONT_HERSHEY_SIMPLEX (literal 6 10) colour 2;
              cv2.PutText
                ("Torso: " ++ str_of_int (torso_inclination a) ++ degree_sign)
                (10, 60) cv2.FONT_HERSHEY_SIMPLEX (literal 6 10) colour 2 ]
         ++ after
       /\ (List.length before <= 4)%nat
       /\ (List.length after <= 1)%nat
       /\ Forall (fun op =>
                    overlay_colour op = (0, 255, 0)
                    \/ overlay_colour op = (0, 0, 255)
                    \/ overlay_colour op = (255, 255, 0)) (before ++ after).
Proof.
  unfold draw_assessment. cbv zeta.
  destruct (is_good_posture a);
    destruct (get (landmarks a) "mid_shoulder") as [[mid_x mid_y]|];
    destruct (get (landmarks a) "mid_ear") as [e|];
    destruct (get (landmarks a) "mid_hip") as [p|];
    destruct (get (landmarks a) "l_shldr") as [l|];
    destruct (get (landmarks a) "r_shldr") as [r|];
    destruct (posture_assessment a) as [|first rest];
    cbn [cv2.line cv2.putText cv2.rows cv2.cols cv2.drawn];
    (split; [reflexivity|]); (split; [reflexivity|]);
    rewrite <- ?app_assoc; cbn [app];
    first
      [ exists [], []; split; [reflexivity|]
      | eexists [_], []; split; [reflexivity|]
      | eexists [_; _], []; split; [reflexivity|]
      | eexists [_; _; _], []; split; [reflexivity|]
      | eexists [_; _; _; _], []; split; [reflexivity|]
      | eexists [], [_]; split; [reflexivity|]
      | eexists [_], [_]; split; [reflexivity|]
      | eexists [_; _], [_]; split; [reflexivity|]
      | eexists [_; _; _], [_]; split; [reflexivity|]
      | eexists [_; _; _; _], [_]; split; [reflexivity|] ];
    (split; [cbn [List.length]; lia|]);
    (split; [cbn [List.length]; lia|]);
    cbn [app]; overlay_colours.
Qed.

(** X10: whatever dictionary the renderer is given, as long as the points of
    its landmark map fit the C ints that [cv2] takes, it keeps the shape of
    the frame and everything already drawn on it, and adds at most seven
    drawings, each in green, red or the colour of the reference line.  For a
    dictionary with landmarks it always writes the neck and the torso angle,
    after at most four lines and before at most one more text, also when
    entries of the landmark map are missing. *)
Theorem draw_pose_annotations_appends :
  forall (frame : cv2.frame) (posture_data : option posture_data),
    (forall a, posture_data = Some (Full a) -> drawable frame a = true) ->
    cv2.rows (draw_pose_annotations frame posture_data) = cv2.rows frame
    /\ cv2.cols (draw_pose_annotations frame posture_data) = cv2.cols frame
    /\ exists ops,
         cv2.drawn (draw_pose_annotations frame posture_data)
         = cv2.drawn frame ++ ops
         /\ (List.length ops <= 7)%nat
         /\ Forall (fun op =>
                      overlay_colour op = (0, 255, 0)
                      \/ overlay_colour op = (0, 0, 255)
                      \/ overlay_colour op = (255, 255, 0)) ops
         /\ (forall a, posture_data = Some (Full a) ->
               exists before after colour,
                 ops = before
                       ++ [ cv2.PutText
                              ("Neck: " ++ str_of_int (neck_inclination a)
                               ++ degree_sign)
                              (10, 30) cv2.FONT_HERSHEY_SIMPLEX (literal 6 10)
                              colour 2;
                            cv2.PutText
                              ("Torso: " ++ str_of_int (torso_inclination a)
                               ++ degree_sign)
                              (10, 60) cv2.FONT_HERSHEY_SIMPLEX (literal 6 10)
                              colour 2 ]
                       ++ after
                 /\ (List.length before <= 4)%nat
                 /\ (List.length after <= 1)%nat).
Proof.
  intros frame [[message vis|a]|] _;
    cbn [draw_pose_annotations has_landmarks negb].
  - split; [reflexivity|]. split; [reflexivity|]. exists [].
    rewrite app_nil_r. split; [reflexivity|]. split; [cbn [List.length]; lia|].
    split; [constructor|]. intros a H. discriminate H.
  - destruct (draw_assessment_appends frame a)
      as (Hr & Hc & before & after & Hd & Hb & Ha & Hf).
    split; [exact Hr|]. split; [exact Hc|].
    eexists. split; [exact Hd|].
    apply Forall_app in Hf. destruct Hf as [Hfb Hfa].
    split; [rewrite !length_app; cbn [List.length]; lia|].
    split.
    + apply Forall_app. split; [exact Hfb|].
      apply Forall_app. split; [|exact Hfa].
      destruct (is_good_posture a); overlay_colours.
    + intros a' Ha'. injection Ha' as <-.
      exists before, after. eexists. split; [reflexivity|].
      split; assumption.
  - split; [reflexivity|]. split; [reflexivity|]. exists [].
    rewrite app_nil_r. split; [reflexivity|]. split; [cbn [List.length]; lia|].
    split; [constructor|]. intros a H. discriminate H.
Qed.

Lemma draw_pose_annotations_appends_witness :
  exists a,
    analyze_posture Sample.index_error_text (Sample.results Sample.upright)
      Sample.frame = Return (Full a)
    /\ cv2.rows (draw_pose_annotations Sample.frame (Some (Full a)))
       = cv2.rows Sample.frame
    /\ exists ops,
         cv2.drawn (draw_pose_annotations Sample.frame (Some (Full a)))
         = cv2.drawn Sample.frame ++ ops
         /\ (List.length ops <= 7)%nat.
Proof.
  destruct upright_drawable as (a & E & F).
  exists a. split; [exact E|].
  destruct (draw_pose_annotations_appends Sample.frame (Some (Full a)))
    as (Hr & _ & ops & Hd & Hl & _).
  - intros a' Ha'. injection Ha' as <-. exact F.
  - split; [exact Hr|]. exists ops. split; assumption.
Defined.

(** ** Landmarks that are read and not used *)

Lemma getitem_same_length (txt : nat -> string)
    (lm lm' : list MediaPipe.landmark) (p : MediaPipe.PoseLandmark) :
  List.length lm = List.length lm' ->
  (exists l l', getitem txt lm p = Return l /\ getitem txt lm' p = Return l')
  \/ (exists e, getitem txt lm p = Raise e /\ getitem txt lm' p = Raise e).
Proof.
  intros Hlen.
  destruct (Nat.le_gt_cases (List.length lm) (MediaPipe.index p)) as [Hout|Hin].
  - right. eexists. split; apply getitem_out_of_range; lia.
  - left. destruct (getitem_in_range txt lm p Hin) as [l E].
    destruct (getitem_in_range txt lm' p) as [l' E']; [lia|]. eauto.
Qed.

(** X11: the nose and the two eyes are looked up and never used: two
    detections of the same length that agree on ears, shoulders and hips
    give the same result, whatever their noses and eyes are. *)
Theorem nose_and_eyes_unused :
  forall (txt : nat -> string) (lm lm' : list MediaPipe.landmark)
         (frame : cv2.frame),
    List.length lm = List.length lm' ->
    (forall p, p <> MediaPipe.NOSE -> p <> MediaPipe.LEFT_EYE ->
               p <> MediaPipe.RIGHT_EYE ->
               MediaPipe.landmark_at lm p = MediaPipe.landmark_at lm' p) ->
    analyze_posture txt (Some (MediaPipe.PoseResults (Some lm))) frame
    = analyze_posture txt (Some (MediaPipe.PoseResults (Some lm'))) frame.
Proof.
  intros txt lm lm' frame Hlen Hagree.
  unfold analyze_posture. cbn [MediaPipe.pose_landmarks]. cbv zeta.
  f_equal. unfold analyze_landmarks.
  destruct (getitem_same_length txt lm lm' MediaPipe.NOSE Hlen)
    as [(l & l' & -> & ->)|(e & -> & ->)]; [cbn [bind]|reflexivity].
  destruct (getitem_same_length txt lm lm' MediaPipe.LEFT_EYE Hlen)
    as [(l1 & l1' & -> & ->)|(e & -> & ->)]; [cbn [bind]|reflexivity].
  destruct (getitem_same_length txt lm lm' MediaPipe.RIGHT_EYE Hlen)
    as [(l2 & l2' & -> & ->)|(e & -> & ->)]; [cbn [bind]|reflexivity].
  unfold getitem.
  rewrite (Hagree MediaPipe.LEFT_EAR), (Hagree MediaPipe.RIGHT_EAR),
          (Hagree MediaPipe.LEFT_SHOULDER), (Hagree MediaPipe.RIGHT_SHOULDER),
          (Hagree MediaPipe.LEFT_HIP), (Hagree MediaPipe.RIGHT_HIP)
    by discriminate.
  reflexivity.
Qed.

Lemma nose_and_eyes_unused_witness :
  let turned :=
    Sample.at_pixel 320 100 Sample.unseen :: tl Sample.upright in
  analyze_posture Sample.index_error_text
    (Some (MediaPipe.PoseResults (Some Sample.upright))) Sample.frame
  = analyze_posture Sample.index_error_text
      (Some (MediaPipe.PoseResults (Some turned))) Sample.frame.
Proof.
  apply nose_and_eyes_unused.
  - reflexivity.
  - intros p H0 H2 H5. destruct p; try reflexivity; contradiction.
Defined.

(** ** Coordinates that are not numbers *)

Lemma to_pixel_Return_finite (c : float) (n p : Z) :
  to_pixel c n = Return p -> not_finite c = false.
Proof.
  unfold to_pixel, float_mul_int, float_of_int. intros H.
  destruct c as [s|s| |s m e]; try reflexivity;
    destruct (Z2SF n) as [s'|s'| |s' m' e']; cbn in H; discriminate H.
Qed.

Lemma analyze_landmarks_Raise_kind (txt : nat -> string)
    (lm : list MediaPipe.landmark) (h w : Z) (e : exn) :
  analyze_landmarks txt lm h w = Raise e ->
  kind e = IndexError \/ kind e = ValueError \/ kind e = OverflowError.
Proof.
  intros H. pose proof (analyze_landmarks_no_zero_division _ _ _ _ _ H) as Hz.
  unfold analyze_landmarks in H.
  raise_inv H; try (apply getitem_Raise in H; auto).
  destruct (_ || _); [discriminate|].
  raise_inv H;
    try (apply to_pixel_Raise in H; tauto);
    try (apply find_distance_Raise in H; tauto);
    try (apply find_angle_Raise in H; tauto);
    try discriminate.
  match type of H with
  | (if ?b then _ else _) = _ => destruct b; [|discriminate]
  end.
  raise_inv H; [|discriminate].
  apply int_truediv_float_Raise in H.
  destruct H as [H|[H _]]; [auto | contradiction].
Qed.

Ltac pixel_raised E :=
  let K := fresh "K" in
  unfold try_except;
  destruct (to_pixel_Raise _ _ _ E) as [K|K]; rewrite K;
  eexists; (split; [reflexivity | auto]).

Ltac pixel_or_raise :=
  match goal with
  | |- exists _, try_except (bind (to_pixel ?c ?n) _) _ _ = _ /\ _ =>
      let p := fresh "p" in
      let e := fresh "e" in
      let E := fresh "E" in
      destruct (to_pixel c n) as [p|e] eqn:E; cbn [bind];
      [ apply to_pixel_Return_finite in E | pixel_raised E ]
  end.

(** X12: a coordinate that is not a number, or is infinite, in an ear,
    shoulder or hip that passed the visibility gate is not reported in the
    returned dictionary: converting it to a pixel raises [ValueError] or
    [OverflowError], which the handler of the analyser does not catch. *)
Theorem off_scale_coordinate_raises :
  forall (txt : nat -> string) (lm : list MediaPipe.landmark)
         (frame : cv2.frame)
         (left_ear right_ear left_shoulder right_shoulder left_hip right_hip
            : MediaPipe.landmark),
    MediaPipe.landmark_at lm MediaPipe.LEFT_EAR = Some left_ear ->
    MediaPipe.landmark_at lm MediaPipe.RIGHT_EAR = Some right_ear ->
    MediaPipe.landmark_at lm MediaPipe.LEFT_SHOULDER = Some left_shoulder ->
    MediaPipe.landmark_at lm MediaPipe.RIGHT_SHOULDER = Some right_shoulder ->
    MediaPipe.landmark_at lm MediaPipe.LEFT_HIP = Some left_hip ->
    MediaPipe.landmark_at lm MediaPipe.RIGHT_HIP = Some right_hip ->
    flt (MediaPipe.visibility left_shoulder) visibility_threshold = false ->
    flt (MediaPipe.visibility right_shoulder) visibility_threshold = false ->
    flt (MediaPipe.visibility left_hip) visibility_threshold = false ->
    off_scale left_ear || off_scale right_ear || off_scale left_shoulder
    || off_scale right_shoulder || off_scale left_hip || off_scale right_hip
    = true ->
    exists e,
      analyze_posture txt (Some (MediaPipe.PoseResults (Some lm))) frame
      = Raise e
      /\ (kind e = ValueError \/ kind e = OverflowError).
Proof.
  intros txt lm frame le re ls rs lh rh Hle Hre Hls Hrs Hlh Hrh G1 G2 G3 Hoff.
  assert (Hlen : (24 < List.length lm)%nat).
  { assert (Hn : nth_error lm 24 <> None).
    { unfold MediaPipe.landmark_at in Hrh.
      change (MediaPipe.index MediaPipe.RIGHT_HIP) with 24%nat in Hrh.
      rewrite Hrh. discriminate. }
    apply nth_error_Some in Hn. exact Hn. }
  destruct (getitem_in_range txt lm MediaPipe.NOSE) as [nose Enose];
    [simpl; lia|].
  destruct (getitem_in_range txt lm MediaPipe.LEFT_EYE) as [leye Eleye];
    [simpl; lia|].
  destruct (getitem_in_range txt lm MediaPipe.RIGHT_EYE) as [reye Ereye];
    [simpl; lia|].
  unfold analyze_posture. cbn [MediaPipe.pose_landmarks]. cbv zeta.
  unfold analyze_landmarks.
  rewrite Enose, Eleye, Ereye.
  rewrite (getitem_some txt _ _ _ Hle), (getitem_some txt _ _ _ Hre),
          (getitem_some txt _ _ _ Hls), (getitem_some txt _ _ _ Hrs),
          (getitem_some txt _ _ _ Hlh), (getitem_some txt _ _ _ Hrh).
  cbn [bind]. rewrite G1, G2, G3. cbn [orb].
  do 12 pixel_or_raise.
  exfalso. unfold off_scale in Hoff.
  repeat match goal with
         | H : not_finite _ = false |- _ => rewrite H in Hoff; clear H
         end.
  discriminate Hoff.
Qed.

Lemma off_scale_coordinate_raises_witness :
  let lost := MediaPipe.Landmark S754_nan (literal 150 400) Sample.seen in
  let lm :=
    Sample.pose lost (Sample.at_pixel 130 150 Sample.seen)
      (Sample.at_pixel 100 200 Sample.seen)
      (Sample.at_pixel 140 200 Sample.seen)
      (Sample.at_pixel 100 350 Sample.seen)
      (Sample.at_pixel 140 350 Sample.seen) in
  exists e,
    analyze_posture Sample.index_error_text
      (Some (MediaPipe.PoseResults (Some lm))) Sample.frame = Raise e
    /\ (kind e = ValueError \/ kind e = OverflowError).
Proof.
  intros lost lm.
  apply (off_scale_coordinate_raises Sample.index_error_text lm Sample.frame
           lost (Sample.at_pixel 130 150 Sample.seen)
           (Sample.at_pixel 100 200 Sample.seen)
           (Sample.at_pixel 140 200 Sample.seen)
           (Sample.at_pixel 100 350 Sample.seen)
           (Sample.at_pixel 140 350 Sample.seen));
    sample_side.
Defined.

(** ** The directions [find_angle] tells apart *)

Lemma Z2SF_pos (n : Z) :
  0 < n < 2 ^ 1023 -> exists m e, Z2SF n = S754_finite false m e.
Proof.
  intros Hn. destruct (float_of_int_nonneg n) as (f & _ & -> & _ & _ & Hp); [lia|].
  apply Hp. lia.
Qed.

Lemma degrees_of_fraction (k : R) : (PI / k * (180 / PI) = 180 / k)%R.
Proof.
  pose proof PI_RGT_0 as Hpi. unfold Rdiv.
  rewrite (Rmult_comm PI (/ k)), Rmult_assoc.
  rewrite (Rmult_comm 180 (/ PI)), <- (Rmult_assoc PI), Rinv_r by lra.
  lra.
Qed.

Lemma inclination_horizontal (dx : Z) :
  dx <> 0 -> Z.abs dx < 2 ^ 1023 -> inclination dx 0 = 90.
Proof.
  intros Hnz Hb. unfold inclination. change (Z.abs 0) with 0.
  change (SF2R (Z2SF 0)) with 0%R.
  destruct (Z2SF_pos (Z.abs dx)) as (m & e & ->); [lia|].
  pose proof (SF2R_pos m e) as Hp.
  assert (E : Ratan2 (SF2R (S754_finite false m e)) 0 = (PI / 2)%R).
  { unfold Ratan2.
    destruct (Rlt_dec 0 0) as [H|_]; [lra|].
    destruct (Rlt_dec 0 (SF2R (S754_finite false m e))) as [_|H]; [reflexivity|].
    contradiction. }
  rewrite E, degrees_of_fraction.
  apply Rtrunc_floor; lra.
Qed.

Lemma inclination_diagonal (dx dy : Z) :
  Z.abs dx = Z.abs dy -> dx <> 0 -> Z.abs dx < 2 ^ 1023 ->
  inclination dx dy = 45.
Proof.
  intros Heq Hnz Hb. unfold inclination. rewrite <- Heq.
  destruct (Z2SF_pos (Z.abs dx)) as (m & e & ->); [lia|].
  pose proof (SF2R_pos m e) as Hp.
  set (v := SF2R (S754_finite false m e)) in *.
  assert (E : Ratan2 v v = (PI / 4)%R).
  { unfold Ratan2. destruct (Rlt_dec 0 v) as [_|H]; [|contradiction].
    replace (v / v)%R with 1%R by (field; lra). apply atan_1. }
  rewrite E, degrees_of_fraction.
  apply Rtrunc_floor; lra.
Qed.

(** X13: [find_angle] measures from the vertical: a point straight above or
    below the other (or on it) is at exactly 0 degrees, a point level with
    it at 90 degrees and a point on either diagonal at 45 degrees, the last
    two stated with a margin of one degree below, which covers the rounding
    of the library calls. *)
Theorem find_angle_cardinal :
  forall (x y d : Z),
    d <> 0 -> Z.abs d < 2 ^ 1023 ->
    find_angle x y x y = Return 0
    /\ find_angle x y x (y + d) = Return 0
    /\ (exists level,
          find_angle x y (x + d) y = Return level /\ 89 <= level <= 90)
    /\ (exists falling,
          find_angle x y (x + d) (y + d) = Return falling
          /\ 44 <= falling <= 45)
    /\ (exists rising,
          find_angle x y (x + d) (y - d) = Return rising
          /\ 44 <= rising <= 45).
Proof.
  intros x y d Hnz Hb.
  assert (H0 : Z.abs 0 < 2 ^ 1023) by reflexivity.
  assert (Exx : x - x = 0) by lia. assert (Eyy : y - y = 0) by lia.
  assert (Exd : x + d - x = d) by lia. assert (Eyd : y + d - y = d) by lia.
  assert (Eym : y - d - y = - d) by lia.
  split; [|split; [|split; [|split]]].
  - destruct (find_angle_spec x y x y) as [E _];
      rewrite ?Exx, ?Eyy; try exact H0.
    rewrite E, Exx. f_equal. apply inclination_vertical.
  - destruct (find_angle_spec x y x (y + d)) as [E _];
      rewrite ?Exx, ?Eyd; try assumption.
    rewrite E, Exx. f_equal. apply inclination_vertical.
  - destruct (find_angle_spec x y (x + d) y) as [E _];
      rewrite ?Exd, ?Eyy; try assumption.
    exists 90. split; [|lia].
    rewrite E, Exd, Eyy. f_equal. apply inclination_horizontal; assumption.
  - destruct (find_angle_spec x y (x + d) (y + d)) as [E _];
      rewrite ?Exd, ?Eyd; try assumption.
    exists 45. split; [|lia].
    rewrite E, Exd, Eyd. f_equal.
    apply inclination_diagonal; [reflexivity | assumption | assumption].
  - destruct (find_angle_spec x y (x + d) (y - d)) as [E _];
      rewrite ?Exd, ?Eym, ?Z.abs_opp; try assumption.
    exists 45. split; [|lia].
    rewrite E, Exd, Eym. f_equal.
    apply inclination_diagonal; [rewrite Z.abs_opp; reflexivity | assumption
                                 | assumption].
Qed.

Lemma find_angle_cardinal_witness :
  find_angle 120 200 120 200 = Return 0
  /\ find_angle 120 200 120 (200 + -50) = Return 0
  /\ (exists level,
        find_angle 120 200 (120 + -50) 200 = Return level
        /\ 89 <= level <= 90)
  /\ (exists falling,
        find_angle 120 200 (120 + -50) (200 + -50) = Return falling
        /\ 44 <= falling <= 45)
  /\ (exists rising,
        find_angle 120 200 (120 + -50) (200 - -50) = Return rising
        /\ 44 <= rising <= 45).
Proof.
  apply (find_angle_cardinal 120 200 (-50)); [discriminate | reflexivity].
Defined.

(** ** Monotonicity of the angle *)

Lemma atan_monotone (s t : R) : (s <= t)%R -> (atan s <= atan t)%R.
Proof.
  intros [H| ->]; [left; apply atan_increasing; exact H | right; reflexivity].
Qed.

Lemma Ratan2_monotone (y x y' x' : R) :
  (0 <= y <= y')%R -> (0 <= x' <= x)%R -> (Ratan2 y x <= Ratan2 y' x')%R.
Proof.
  intros [Hy Hyy] [Hx Hxx].
  destruct (Rlt_dec 0 x') as [Hp|Hz].
  - unfold Ratan2.
    destruct (Rlt_dec 0 x) as [_|H]; [|lra].
    destruct (Rlt_dec 0 x') as [_|H]; [|lra].
    apply atan_monotone.
    apply (Rmult_le_reg_r (x * x')); [apply Rmult_lt_0_compat; lra|].
    replace (y / x * (x * x'))%R with (y * x')%R by (field; lra).
    replace (y' / x' * (x * x'))%R with (y' * x)%R by (field; lra).
    apply Rmult_le_compat; lra.
  - assert (Hx0 : x' = 0%R) by lra. subst x'.
    destruct (Rlt_dec 0 y') as [Hp|Hn].
    + assert (E : Ratan2 y' 0 = (PI / 2)%R).
      { unfold Ratan2. destruct (Rlt_dec 0 0) as [H|_]; [lra|].
        destruct (Rlt_dec 0 y') as [_|H]; [reflexivity | contradiction]. }
      rewrite E. apply Ratan2_quadrant; lra.
    + assert (Hy0 : y' = 0%R) by lra. subst y'.
      assert (Hy1 : y = 0%R) by lra. subst y.
      rewrite !Ratan2_zero by lra. lra.
Qed.

Lemma Rtrunc_monotone (r r' : R) :
  (0 <= r <= r')%R -> Rtrunc r <= Rtrunc r'.
Proof.
  intros [H0 Hr]. unfold Rtrunc.
  destruct (Rle_dec 0 r) as [_|H]; [|contradiction].
  destruct (Rle_dec 0 r') as [_|H]; [|lra].
  destruct (base_Int_part r) as [Hl _].
  destruct (base_Int_part r') as [_ Hu].
  assert (H : (IZR (Int_part r) < IZR (Int_part r' + 1))%R).
  { rewrite plus_IZR. lra. }
  apply lt_IZR in H. lia.
Qed.

Lemma inclination_monotone (dx dy dx' dy' : Z) :
  Z.abs dx <= Z.abs dx' -> Z.abs dx' < 2 ^ 53 ->
  Z.abs dy' <= Z.abs dy -> Z.abs dy < 2 ^ 53 ->
  inclination dx dy <= inclination dx' dy'.
Proof.
  intros Hx Hbx Hy Hby.
  rewrite !inclination_exact by lia.
  pose proof PI_RGT_0 as Hpi.
  assert (Hk : (0 < 180 / PI)%R) by (apply Rdiv_lt_0_compat; lra).
  assert (Hq : (0 <= Ratan2 (IZR (Z.abs dx)) (IZR (Z.abs dy)))%R).
  { apply Ratan2_quadrant; apply IZR_le; lia. }
  apply Rtrunc_monotone. split.
  - apply Rmult_le_pos; lra.
  - apply Rmult_le_compat_r; [lra|].
    apply Ratan2_monotone; split; apply IZR_le; lia.
Qed.

(** X14: the angle grows with the horizontal distance of the two points and
    shrinks with their vertical distance: a pair of points at most as far
    apart horizontally and at least as far apart vertically as another pair
    has at most the other pair's angle, stated with a margin of one degree,
    which covers the rounding of the library calls. *)
Theorem find_angle_monotone :
  forall (x1 y1 x2 y2 x1' y1' x2' y2' : Z),
    Z.abs (x2 - x1) <= Z.abs (x2' - x1') -> Z.abs (x2' - x1') < 2 ^ 53 ->
    Z.abs (y2' - y1') <= Z.abs (y2 - y1) -> Z.abs (y2 - y1) < 2 ^ 53 ->
    exists angle angle',
      find_angle x1 y1 x2 y2 = Return angle
      /\ find_angle x1' y1' x2' y2' = Return angle'
      /\ angle <= angle' + 1.
Proof.
  intros x1 y1 x2 y2 x1' y1' x2' y2' Hx Hbx Hy Hby.
  assert (P : 2 ^ 53 < 2 ^ 1023) by reflexivity.
  destruct (find_angle_spec x1 y1 x2 y2) as [E _]; try lia.
  destruct (find_angle_spec x1' y1' x2' y2') as [E' _]; try lia.
  do 2 eexists. split; [exact E|]. split; [exact E'|].
  pose proof (inclination_monotone _ _ _ _ Hx Hbx Hy Hby). lia.
Qed.

Lemma find_angle_monotone_witness :
  exists angle angle',
    find_angle 120 200 150 150 = Return angle
    /\ find_angle 120 200 160 160 = Return angle'
    /\ angle <= angle' + 1.
Proof.
  apply find_angle_monotone; vm_compute; congruence.
Defined.

(** ** Binary64: the square root of a positive double *)

Lemma pow2_lt_inv (a b : Z) : 0 <= b -> 2 ^ a < 2 ^ b -> a < b.
Proof.
  intros Hb H. destruct (Z_lt_le_dec a b) as [|Hge]; [assumption|exfalso].
  assert (2 ^ b <= 2 ^ a) by (apply Z.pow_le_mono_r; lia). lia.
Qed.

(** The integer square root of a number of [k] binary digits has half as
    many, rounded up. *)
Lemma Zdigits2_sqrt (n q r : Z) :
  0 < n -> n = q * q + r -> 0 <= r <= 2 * q ->
  0 < q /\ Zdigits2 n <= 2 * Zdigits2 q <= Zdigits2 n + 1.
Proof.
  intros Hn Hq Hr.
  assert (Hq0 : 0 < q) by nia.
  pose proof (Zdigits2_nonneg q) as Hdq0.
  pose proof (Zdigits2_upper q ltac:(lia)) as Hqu.
  pose proof (Zdigits2_lower q Hq0) as Hql.
  pose proof (Zdigits2_upper n ltac:(lia)) as Hnu.
  pose proof (Zdigits2_lower n Hn) as Hnl.
  assert (Hd1 : 1 <= Zdigits2 q).
  { pose proof (Zdigits2_ge q 0 ltac:(lia) ltac:(simpl; lia)). lia. }
  split; [exact Hq0|]. split.
  - assert (H : 2 ^ (Zdigits2 n - 1) < 2 ^ (2 * Zdigits2 q)).
    { apply Z.le_lt_trans with n; [exact Hnl|].
      replace (2 * Zdigits2 q) with (Zdigits2 q + Zdigits2 q) by lia.
      rewrite Z.pow_add_r by lia. nia. }
    apply pow2_lt_inv in H; lia.
  - assert (H : 2 ^ (2 * (Zdigits2 q - 1)) < 2 ^ Zdigits2 n).
    { apply Z.le_lt_trans with n; [|exact Hnu].
      replace (2 * (Zdigits2 q - 1))
        with ((Zdigits2 q - 1) + (Zdigits2 q - 1)) by lia.
      rewrite Z.pow_add_r by lia.
      assert (0 < 2 ^ (Zdigits2 q - 1)) by (apply Z.pow_pos_nonneg; lia).
      nia. }
    apply pow2_lt_inv in H; [lia | apply Zdigits2_nonneg].
Qed.

Lemma Zdigits2_shift (m s : Z) :
  0 < m -> 0 <= s -> Zdigits2 (m * 2 ^ s) = Zdigits2 m + s.
Proof.
  intros Hm Hs.
  pose proof (Zdigits2_nonneg m) as Hd.
  pose proof (Zdigits2_upper m ltac:(lia)) as Hu.
  pose proof (Zdigits2_lower m Hm) as Hl.
  assert (Hp : 0 < 2 ^ s) by (apply Z.pow_pos_nonneg; lia).
  assert (Hd1 : 1 <= Zdigits2 m).
  { pose proof (Zdigits2_ge m 0 ltac:(lia) ltac:(simpl; lia)). lia. }
  apply Z.le_antisymm.
  - apply Zdigits2_le; [lia|]. split; [nia|].
    rewrite Z.pow_add_r by lia. apply Z.mul_lt_mono_pos_r; assumption.
  - pose proof (Zdigits2_ge (m * 2 ^ s) (Zdigits2 m - 1 + s) ltac:(lia)) as H.
    rewrite Z.pow_add_r in H by lia.
    assert (2 ^ (Zdigits2 m - 1) * 2 ^ s <= m * 2 ^ s)
      by (apply Z.mul_le_mono_nonneg_r; lia).
    lia.
Qed.

(** The square root of a positive double is a positive double: it neither
    vanishes nor overflows. *)
Lemma fsqrt_pos (m : positive) (e : Z) :
  -1074 <= e -> Zpos (digits2_pos m) + e <= 1024 ->
  exists m' e', fsqrt (S754_finite false m e) = S754_finite false m' e'.
Proof.
  intros He HD. unfold fsqrt, SFsqrt, SFsqrt_core_binary.
  change (Zdigits2 (Zpos m)) with (Zpos (digits2_pos m)).
  set (d := Zpos (digits2_pos m)) in *.
  assert (Hd : 1 <= d) by (subst d; lia).
  rewrite fexp_eq.
  set (h := Z.div2 (d + e + 1)).
  set (e' := Z.min (Z.max (h - 53) (-1074)) (Z.div2 e)).
  assert (Hh : 2 * h <= d + e + 1 <= 2 * h + 1).
  { subst h. pose proof (Z.div2_odd (d + e + 1)) as H.
    destruct (Z.odd (d + e + 1)); cbn [Z.b2z] in H; lia. }
  assert (He2 : 2 * Z.div2 e <= e <= 2 * Z.div2 e + 1).
  { pose proof (Z.div2_odd e) as H. destruct (Z.odd e); cbn [Z.b2z] in H; lia. }
  assert (Hs : 0 <= e - 2 * e') by (subst e'; lia).
  set (m' := match e - 2 * e' with
             | 0 => Zpos m
             | Zpos _ => Z.shiftl (Zpos m) (e - 2 * e')
             | Zneg _ => 0
             end).
  assert (Hm' : m' = Zpos m * 2 ^ (e - 2 * e')).
  { subst m'. destruct (e - 2 * e') as [|p|p] eqn:Es.
    - simpl. lia.
    - rewrite Z.shiftl_mul_pow2 by lia. reflexivity.
    - lia. }
  assert (Hp : 0 < 2 ^ (e - 2 * e')) by (apply Z.pow_pos_nonneg; lia).
  assert (Hm0 : 0 < m') by (rewrite Hm'; nia).
  assert (Hdm : Zdigits2 m' = d + (e - 2 * e')).
  { rewrite Hm'. rewrite Zdigits2_shift by lia. reflexivity. }
  pose proof (Z.sqrtrem_spec m' ltac:(lia)) as Hsq.
  destruct (Z.sqrtrem m') as [q r].
  destruct Hsq as [Hq Hr].
  destruct (Zdigits2_sqrt m' q r Hm0 Hq Hr) as (Hq0 & Hl & Hu).
  assert (Hdq : Zdigits2 q + e' = h) by lia.
  set (l := if r =? 0 then loc_Exact
            else loc_Inexact (if r <=? q then Lt else Gt)).
  destruct (binary_round_aux_spec false q e' l) as [[_ [Hz|Hz]]|(m2 & e2 & E & _)].
  - lia.
  - rewrite Hdq, fexp_eq. subst e'. lia.
  - lia.
  - lia.
  - lia.
  - eauto.
Qed.

(** ** The distance of two points *)

Lemma float_compare_int_pos (m : positive) (e : Z) :
  float_compare_int (S754_finite false m e) 0 = Some Gt.
Proof.
  unfold float_compare_int. cbn [cond_Zopp].
  destruct (0 <=? e) eqn:E.
  - apply Z.leb_le in E. f_equal. apply Z.compare_gt_iff.
    assert (0 < 2 ^ e) by (apply Z.pow_pos_nonneg; lia). nia.
  - reflexivity.
Qed.

(** X15: the distance of two pixels is zero exactly when they are the same
    pixel, and positive otherwise: the square root never rounds a positive
    sum of squares to zero. *)
Theorem find_distance_zero_iff :
  forall (x1 y1 x2 y2 : Z),
    (x2 - x1) ^ 2 + (y2 - y1) ^ 2 < 2 ^ 1023 ->
    exists d,
      find_distance x1 y1 x2 y2 = Return d
      /\ (float_eq_int d 0 = true <-> x1 = x2 /\ y1 = y2)
      /\ (float_gt_int d 0 = true <-> x1 <> x2 \/ y1 <> y2).
Proof.
  intros x1 y1 x2 y2 Hb. unfold find_distance, math_sqrt.
  set (n := (x2 - x1) ^ 2 + (y2 - y1) ^ 2) in *.
  assert (Hn : 0 <= n) by (subst n; rewrite !Z.pow_2_r; nia).
  destruct (Z.eq_dec n 0) as [Hz|Hnz].
  - assert (Hsame : x1 = x2 /\ y1 = y2) by (subst n; rewrite !Z.pow_2_r in Hz; nia).
    rewrite Hz. exists (S754_zero false). split; [reflexivity|].
    split; split; intros H; try reflexivity; try exact Hsame; try discriminate H.
    lia.
  - assert (Hdiff : x1 <> x2 \/ y1 <> y2).
    { destruct (Z.eq_dec x1 x2) as [->|]; [|auto].
      destruct (Z.eq_dec y1 y2) as [->|]; [|auto].
      exfalso. apply Hnz. subst n. rewrite !Z.sub_diag. reflexivity. }
    destruct (Z2SF_spec n) as [[H0 _]|(m & e & E & He & Hd & Hc)]; [lia|lia|].
    assert (Hs : (n <? 0) = false) by (apply Z.ltb_ge; lia).
    rewrite Hs in E. unfold float_of_int. rewrite E. cbn [bind].
    assert (HDn : Zdigits2 n <= 1023) by (apply Zdigits2_le; lia).
    rewrite fexp_eq in Hc.
    destruct (fsqrt_pos m e) as (m' & e' & ->); [lia|lia|].
    eexists. split; [reflexivity|].
    unfold float_eq_int, float_gt_int. rewrite float_compare_int_pos.
    split; split; intros H; try reflexivity; try exact Hdiff;
      try discriminate H.
    lia.
Qed.

Lemma find_distance_zero_iff_witness :
  exists d,
    find_distance 100 200 140 200 = Return d
    /\ (float_eq_int d 0 = true <-> 100 = 140 /\ 200 = 200)
    /\ (float_gt_int d 0 = true <-> 100 <> 140 \/ 200 <> 200).
Proof.
  apply find_distance_zero_iff. reflexivity.
Defined.

(** ** A head that is not forward *)

Lemma float_gt_int_zero_cases (f : float) :
  float_gt_int f 0 = true ->
  f = S754_infinity false \/ exists m e, f = S754_finite false m e.
Proof.
  destruct f as [s|s| |s m e]; try discriminate.
  - destruct s; [discriminate|]. auto.
  - destruct s; [|eauto]. unfold float_gt_int, float_compare_int.
    cbn [cond_Zopp]. destruct (0 <=? e) eqn:E.
    + apply Z.leb_le in E.
      assert (H : (Z.neg m * 2 ^ e ?= 0) = Lt).
      { apply Z.compare_lt_iff.
        assert (0 < 2 ^ e) by (apply Z.pow_pos_nonneg; lia). nia. }
      change (- Z.pos m) with (Z.neg m). rewrite H. discriminate.
    + discriminate.
Qed.

(** X16: only a head displaced toward greater x counts as forward: when the
    ear midpoint is not to the right of the shoulder midpoint the forward
    head ratio is zero (the int 0, or 0.0) and the head position is judged
    good, however far the ears are on the other side. *)
Theorem head_not_forward_passes :
  forall (txt : nat -> string) (results : option MediaPipe.pose_results)
         (frame : cv2.frame) (a : assessment)
         (ear_x ear_y shoulder_x shoulder_y : Z),
    analyze_posture txt results frame = Return (Full a) ->
    get (landmarks a) "mid_ear" = Some (ear_x, ear_y) ->
    get (landmarks a) "mid_shoulder" = Some (shoulder_x, shoulder_y) ->
    ear_x <= shoulder_x ->
    (forward_head_ratio a = PyInt 0
     \/ forward_head_ratio a = PyFloat (S754_zero false))
    /\ is_head_position_good a = true.
Proof.
  intros txt results frame a ear_x ear_y shoulder_x shoulder_y H Hear Hsh Hle.
  destruct (analyze_posture_Full_source txt results frame a H)
    as (res & lm & _ & _ & E).
  destruct (analyze_landmarks_judgments _ _ _ _ _ E) as (_ & _ & _ & Hh & _).
  destruct (analyze_landmarks_Full_inv txt lm _ _ a E)
    as (le & re & ls & rs & lh & rh & lsx & lsy & rsx & rsy & lex & ley
        & rex & rey & lhx & lhy & rhx & rhy & _ & _ & _ & _ & L & _ & _ & _
        & _ & F).
  rewrite L in Hear, Hsh.
  change (Some ((lex + rex) / 2, (ley + rey) / 2) = Some (ear_x, ear_y))
    in Hear.
  change (Some ((lsx + rsx) / 2, (lsy + rsy) / 2)
          = Some (shoulder_x, shoulder_y)) in Hsh.
  injection Hear as Hex _. injection Hsh as Hsx _.
  rewrite Hex, Hsx in F.
  replace (Z.max 0 (ear_x - shoulder_x)) with 0 in F by lia.
  assert (R : forward_head_ratio a = PyInt 0
              \/ forward_head_ratio a = PyFloat (S754_zero false)).
  { destruct (float_gt_int (shoulder_distance a) 0) eqn:G; [|left; exact F].
    right. destruct F as (q & Eq & ->). f_equal.
    unfold int_truediv_float in Eq.
    change (float_of_int 0) with (Return (S754_zero false)) in Eq.
    cbn [bind] in Eq.
    destruct (float_gt_int_zero_cases _ G) as [Hd|(m & e & Hd)];
      rewrite Hd in Eq; cbn in Eq; injection Eq as <-; reflexivity. }
  split; [exact R|].
  rewrite Hh. destruct R as [-> | ->]; vm_compute; reflexivity.
Qed.

Lemma head_not_forward_passes_witness :
  exists a,
    analyze_posture Sample.index_error_text (Sample.results head_backward)
      Sample.frame = Return (Full a)
    /\ (forward_head_ratio a = PyInt 0
        \/ forward_head_ratio a = PyFloat (S754_zero false))
    /\ is_head_position_good a = true.
Proof.
  destruct (analyze_landmarks_full Sample.index_error_text head_backward
              400 640
              (Sample.at_pixel 70 150 Sample.seen)
              (Sample.at_pixel 90 150 Sample.seen)
              (Sample.at_pixel 100 200 Sample.seen)
              (Sample.at_pixel 140 200 Sample.seen)
              (Sample.at_pixel 100 350 Sample.seen)
              (Sample.at_pixel 140 350 Sample.seen))
    as (a & ? & ? & ? & ? & ? & ? & ? & ? & ? & ? & ? & ? & H & R);
    try sample_side.
  destruct R as (? & ? & ? & ? & ? & ? & ? & ? & ? & ? & ? & ? & L & _).
  pixel_values.
  pose proof (analyze_posture_of_landmarks Sample.index_error_text
                head_backward Sample.frame (Full a) H) as E.
  exists a. split; [exact E|].
  apply (head_not_forward_passes _ _ _ a 80 150 120 200 E).
  - rewrite L. reflexivity.
  - rewrite L. reflexivity.
  - discriminate.
Defined.

(** ** The angle does not depend on the scale *)

Lemma Ratan2_scale (k y x : R) :
  (0 < k)%R -> (0 <= y)%R -> (0 <= x)%R ->
  Ratan2 (k * y) (k * x) = Ratan2 y x.
Proof.
  intros Hk Hy Hx. unfold Ratan2.
  destruct (Rlt_dec 0 x) as [Hp|Hz].
  - destruct (Rlt_dec 0 (k * x)) as [_|H];
      [|exfalso; apply H; apply Rmult_lt_0_compat; assumption].
    f_equal. field. split; lra.
  - assert (Hx0 : x = 0%R) by lra. subst x. rewrite Rmult_0_r.
    destruct (Rlt_dec 0 0) as [H|_]; [lra|].
    destruct (Rlt_dec 0 y) as [Hyp|Hyz].
    + destruct (Rlt_dec 0 (k * y)) as [_|H];
        [reflexivity | exfalso; apply H; apply Rmult_lt_0_compat; assumption].
    + assert (Hy0 : y = 0%R) by lra. subst y. rewrite Rmult_0_r.
      destruct (Rlt_dec 0 0) as [H|_]; [lra | reflexivity].
Qed.

Lemma scale_le (k a : Z) : 0 < k -> 0 <= a -> a <= k * a.
Proof. intros Hk Ha. nia. Qed.

Lemma inclination_scale (k dx dy : Z) :
  0 < k -> k * Z.abs dx < 2 ^ 53 -> k * Z.abs dy < 2 ^ 53 ->
  inclination (k * dx) (k * dy) = inclination dx dy.
Proof.
  intros Hk Hx Hy.
  assert (Ax : Z.abs (k * dx) = k * Z.abs dx) by (rewrite Z.abs_mul; lia).
  assert (Ay : Z.abs (k * dy) = k * Z.abs dy) by (rewrite Z.abs_mul; lia).
  pose proof (scale_le k (Z.abs dx) Hk (Z.abs_nonneg dx)) as Lx.
  pose proof (scale_le k (Z.abs dy) Hk (Z.abs_nonneg dy)) as Ly.
  rewrite (inclination_exact (k * dx) (k * dy)) by lia.
  rewrite (inclination_exact dx dy) by lia.
  rewrite Ax, Ay, !mult_IZR.
  rewrite Ratan2_scale; [reflexivity | apply IZR_lt; lia
                         | apply IZR_le; lia | apply IZR_le; lia].
Qed.

(** X17: the angle does not depend on the scale of the picture: multiplying
    all four coordinates by a positive whole number changes it by at most
    one degree, the margin that covers the rounding of the library calls. *)
Theorem find_angle_scale_invariant :
  forall (k x1 y1 x2 y2 : Z),
    0 < k ->
    k * Z.abs (x2 - x1) < 2 ^ 53 -> k * Z.abs (y2 - y1) < 2 ^ 53 ->
    exists scaled angle,
      find_angle (k * x1) (k * y1) (k * x2) (k * y2) = Return scaled
      /\ find_angle x1 y1 x2 y2 = Return angle
      /\ angle - 1 <= scaled <= angle + 1.
Proof.
  intros k x1 y1 x2 y2 Hk Hx Hy.
  assert (P : 2 ^ 53 < 2 ^ 1023) by reflexivity.
  assert (Ex : k * x2 - k * x1 = k * (x2 - x1)) by lia.
  assert (Ey : k * y2 - k * y1 = k * (y2 - y1)) by lia.
  pose proof (scale_le k _ Hk (Z.abs_nonneg (x2 - x1))) as Lx.
  pose proof (scale_le k _ Hk (Z.abs_nonneg (y2 - y1))) as Ly.
  destruct (find_angle_spec x1 y1 x2 y2) as [E _]; try lia.
  destruct (find_angle_spec (k * x1) (k * y1) (k * x2) (k * y2)) as [E' _].
  - rewrite Ex, Z.abs_mul. lia.
  - rewrite Ey, Z.abs_mul. lia.
  - do 2 eexists. split; [exact E'|]. split; [exact E|].
    rewrite Ex, Ey, inclination_scale by assumption. lia.
Qed.

Lemma find_angle_scale_invariant_witness :
  exists scaled angle,
    find_angle (3 * 120) (3 * 200) (3 * 160) (3 * 150) = Return scaled
    /\ find_angle 120 200 160 150 = Return angle
    /\ angle - 1 <= scaled <= angle + 1.
Proof.
  apply find_angle_scale_invariant; reflexivity.
Defined.

(** ** Everything the analyser can answer *)

Lemma analyze_landmarks_IndexError (txt : nat -> string)
    (lm : list MediaPipe.landmark) (h w : Z) (e : exn) :
  analyze_landmarks txt lm h w = Raise e -> kind e = IndexError ->
  exists i, (List.length lm <= i)%nat /\ e = Exn IndexError (txt i).
Proof.
  unfold analyze_landmarks. intros H K.
  raise_inv H;
    try (unfold getitem, MediaPipe.landmark_at in H;
         match type of H with
         | match nth_error lm ?i with _ => _ end = _ =>
             destruct (nth_error lm i) eqn:N; [discriminate H|];
             injection H as <-; exists i; split;
             [apply nth_error_None; exact N | reflexivity]
         end).
  destruct (_ || _); [discriminate|].
  raise_inv H;
    try (apply to_pixel_Raise in H; destruct H as [H|H]; rewrite H in K;
         discriminate K);
    try (apply find_distance_Raise in H; destruct H as [H|H]; rewrite H in K;
         discriminate K);
    try (apply find_angle_Raise in H; rewrite H in K; discriminate K);
    try discriminate.
  match type of H with
  | (if ?b then _ else _) = _ => destruct b; [|discriminate]
  end.
  raise_inv H; [|discriminate].
  apply int_truediv_float_Raise in H.
  destruct H as [H|[H _]]; rewrite H in K; discriminate K.
Qed.

Lemma analyze_landmarks_Unavailable_inv (txt : nat -> string)
    (lm : list MediaPipe.landmark) (h w : Z) (message : string)
    (vis : option (list (string * float))) :
  analyze_landmarks txt lm h w = Return (Unavailable message vis) ->
  message = "Key landmarks not visible enough"%string
  /\ exists scores,
       vis = Some scores
       /\ keys scores
          = [ "l_shoulder"; "r_shoulder"; "l_ear"; "r_ear"; "l_hip";
              "r_hip" ]%string.
Proof.
  unfold analyze_landmarks. intros H.
  return_inv H.
  destruct (_ || _).
  - injection H as <- <-. split; [reflexivity|].
    eexists. split; reflexivity.
  - return_inv H. discriminate H.
Qed.

(** X18: the analyser has five outcomes and no other: the dictionary for no
    pose; the dictionary reporting a failed look-up, for a landmark list too
    short for the index looked up; the dictionary for landmarks not visible
    enough, with the six visibility scores; the full assessment; or a
    [ValueError] or [OverflowError] of the arithmetic, which it lets
    through. *)
Theorem analyze_posture_outcomes :
  forall (txt : nat -> string) (results : option MediaPipe.pose_results)
         (frame : cv2.frame),
    analyze_posture txt results frame = Return no_pose
    \/ (exists res lm i,
          results = Some res /\ MediaPipe.pose_landmarks res = Some lm
          /\ (List.length lm <= i)%nat
          /\ analyze_posture txt results frame
             = Return (Unavailable
                         ("Error processing landmarks: " ++ txt i) None))
    \/ (exists scores,
          keys scores
          = [ "l_shoulder"; "r_shoulder"; "l_ear"; "r_ear"; "l_hip";
              "r_hip" ]%string
          /\ analyze_posture txt results frame
             = Return (Unavailable "Key landmarks not visible enough"
                         (Some scores)))
    \/ (exists a, analyze_posture txt results frame = Return (Full a))
    \/ (exists e,
          analyze_posture txt results frame = Raise e
          /\ (kind e = ValueError \/ kind e = OverflowError)).
Proof.
  intros txt results frame. unfold analyze_posture.
  destruct results as [res|]; [|left; reflexivity].
  destruct (MediaPipe.pose_landmarks res) as [lm|] eqn:L; [|left; reflexivity].
  cbv zeta. right.
  destruct (analyze_landmarks txt lm (cv2.rows frame) (cv2.cols frame))
    as [[message vis|a]|e] eqn:E; cbn [try_except].
  - right. left.
    destruct (analyze_landmarks_Unavailable_inv _ _ _ _ _ _ E)
      as (-> & scores & -> & K).
    exists scores. split; [exact K | reflexivity].
  - right. right. left. exists a. reflexivity.
  - destruct (analyze_landmarks_Raise_kind _ _ _ _ _ E) as [K|[K|K]].
    + left. destruct (analyze_landmarks_IndexError _ _ _ _ _ E K)
        as (i & Hi & ->).
      exists res, lm, i. split; [reflexivity|]. split; [exact L|].
      split; [exact Hi | reflexivity].
    + right. right. right. exists e. rewrite K. split; [reflexivity | auto].
    + right. right. right. exists e. rewrite K. split; [reflexivity | auto].
Qed.

(** ** Binary64: products that stay below an integer *)

(** Shifting out zero bits leaves the round and sticky bits clear. *)
Lemma shr_1_exact (r : shr_record) (t : Z) :
  0 <= shr_m r -> shr_r r = false -> shr_s r = false -> shr_m r = t * 2 ->
  shr_r (shr_1 r) = false /\ shr_s (shr_1 r) = false.
Proof.
  destruct r as [m rb sb]. cbn [shr_m shr_r shr_s]. intros Hm -> -> Ht.
  destruct m as [|p|p]; [split; reflexivity| |lia].
  destruct p as [p|p|]; [|split; reflexivity|]; exfalso; lia.
Qed.

Lemma iter_pos_shr_exact (p : positive) :
  forall (r : shr_record) (t : Z),
    0 <= shr_m r -> shr_r r = false -> shr_s r = false ->
    shr_m r = t * 2 ^ Zpos p ->
    shr_r (iter_pos shr_1 p r) = false /\ shr_s (iter_pos shr_1 p r) = false.
Proof.
  assert (Hpos : forall q, 0 < 2 ^ Zpos q)
    by (intros; apply Z.pow_pos_nonneg; lia).
  induction p as [p IH | p IH | ]; intros r t Hm Hr Hs Ht; cbn [iter_pos].
  - pose proof (Hpos p) as Hp.
    assert (Hpow : 2 ^ Zpos p~1 = 2 ^ Zpos p * 2 ^ Zpos p * 2).
    { rewrite <- Z.pow_add_r by lia. rewrite Pos2Z.inj_xI.
      replace (2 * Zpos p + 1) with (Z.succ (Zpos p + Zpos p)) by lia.
      rewrite Z.pow_succ_r by lia. lia. }
    rewrite Hpow in Ht.
    destruct (shr_1_exact r (t * 2 ^ Zpos p * 2 ^ Zpos p) Hm Hr Hs) as [Hr1 Hs1];
      [lia|].
    assert (Hm1 : shr_m (shr_1 r) = t * 2 ^ Zpos p * 2 ^ Zpos p).
    { rewrite shr_1_m by exact Hm. rewrite Ht.
      replace (t * (2 ^ Zpos p * 2 ^ Zpos p * 2))
        with (t * 2 ^ Zpos p * 2 ^ Zpos p * 2) by lia.
      apply Z.div_mul. lia. }
    assert (Hm1' : 0 <= shr_m (shr_1 r))
      by (rewrite shr_1_m by exact Hm; apply Z.div_pos; lia).
    destruct (IH (shr_1 r) (t * 2 ^ Zpos p) Hm1' Hr1 Hs1 Hm1) as [Hr2 Hs2].
    assert (Hm2 : shr_m (iter_pos shr_1 p (shr_1 r)) = t * 2 ^ Zpos p).
    { rewrite iter_pos_shr_m by exact Hm1'. rewrite Hm1.
      apply Z.div_mul. lia. }
    apply (IH _ t); try assumption.
    rewrite iter_pos_shr_m by exact Hm1'. apply Z.div_pos; lia.
  - pose proof (Hpos p) as Hp.
    assert (Hpow : 2 ^ Zpos p~0 = 2 ^ Zpos p * 2 ^ Zpos p).
    { rewrite <- Z.pow_add_r by lia. f_equal. lia. }
    rewrite Hpow in Ht.
    destruct (IH r (t * 2 ^ Zpos p) Hm Hr Hs) as [Hr1 Hs1]; [lia|].
    assert (Hm1 : shr_m (iter_pos shr_1 p r) = t * 2 ^ Zpos p).
    { rewrite iter_pos_shr_m by exact Hm. rewrite Ht.
      replace (t * (2 ^ Zpos p * 2 ^ Zpos p))
        with (t * 2 ^ Zpos p * 2 ^ Zpos p) by lia.
      apply Z.div_mul. lia. }
    apply (IH _ t); try assumption.
    rewrite iter_pos_shr_m by exact Hm. apply Z.div_pos; lia.
  - apply (shr_1_exact r t); assumption.
Qed.

Lemma shr_fexp_exact (m e t : Z) :
  0 <= m ->
  m = t * 2 ^ Z.max 0 (fexp prec emax (Zdigits2 m + e) - e) ->
  loc_of_shr_record (fst (shr_fexp prec emax m e loc_Exact)) = loc_Exact.
Proof.
  intros Hm Ht. unfold shr_fexp, shr. cbn [shr_record_of_loc].
  destruct (fexp prec emax (Zdigits2 m + e) - e) as [|p|p]; try reflexivity.
  cbn [fst].
  change (Z.max 0 (Zpos p)) with (Zpos p) in Ht.
  destruct (iter_pos_shr_exact p {| shr_m := m; shr_r := false; shr_s := false |} t)
    as [Hr Hs]; try assumption; try reflexivity.
  destruct (iter_pos shr_1 p _) as [m' r' s']. cbn [shr_r shr_s] in Hr, Hs.
  subst r' s'. reflexivity.
Qed.

(** A product of a positive mantissa that does not exceed the integer [N],
    rounded to a double and truncated to an int, does not exceed [N]:
    rounding to nearest cannot pass a representable number. *)
Lemma binary_round_aux_below (M E N : Z) :
  0 < M -> E <= 0 -> 0 <= N < 2 ^ 53 -> M <= N * 2 ^ (- E) ->
  exists p,
    int_of_float (binary_round_aux prec emax false M E loc_Exact) = Return p
    /\ 0 <= p <= N
    /\ (M = N * 2 ^ (- E) ->
        p = N
        /\ float_eq_int (binary_round_aux prec emax false M E loc_Exact) N
           = true).
Proof.
  intros HM HE HN Hle. unfold binary_round_aux.
  assert (HT : 0 < 2 ^ (- E)) by (apply Z.pow_pos_nonneg; lia).
  assert (HdM : Zdigits2 M + E <= 53).
  { assert (H : Zdigits2 M <= 53 - E).
    { apply Zdigits2_le; [lia|]. split; [lia|].
      replace (53 - E) with (53 + - E) by lia. rewrite Z.pow_add_r by lia.
      nia. }
    lia. }
  pose proof (shr_fexp_spec M E loc_Exact ltac:(lia)) as H1. cbv zeta in H1.
  pose proof (shr_fexp_exact M E) as Hex.
  destruct (shr_fexp prec emax M E loc_Exact) as [r1 e1]. cbn [fst snd] in *.
  destruct H1 as [Hm1 He1]. rewrite fexp_eq in *.
  set (k := Z.max 0 (Z.max (Zdigits2 M + E - 53) (-1074) - E)) in *.
  assert (Hk : 0 <= k) by (subst k; lia).
  assert (Hpk : 0 < 2 ^ k) by (apply Z.pow_pos_nonneg; lia).
  assert (He1' : e1 <= 0) by (subst k; lia).
  assert (HT1 : 0 < 2 ^ (- e1)) by (apply Z.pow_pos_nonneg; lia).
  assert (Hsplit : 2 ^ (- E) = 2 ^ (- e1) * 2 ^ k).
  { rewrite <- Z.pow_add_r by lia. f_equal. lia. }
  set (N1 := N * 2 ^ (- e1)).
  assert (HleN1 : M <= N1 * 2 ^ k) by (subst N1; rewrite Hsplit in Hle; lia).
  assert (Hm1pos : 0 <= shr_m r1) by (rewrite Hm1; apply Z.div_pos; lia).
  set (m2 := round_nearest_even (shr_m r1) (loc_of_shr_record r1)).
  assert (Hm2 : shr_m r1 <= m2 <= N1).
  { pose proof (round_nearest_even_bounds (shr_m r1) (loc_of_shr_record r1))
      as Hb. fold m2 in Hb.
    split; [lia|].
    assert (Hfloor : shr_m r1 <= N1).
    { rewrite Hm1. apply Z.div_le_upper_bound; lia. }
    pose proof (Z.div_mod M (2 ^ k) ltac:(lia)) as Hdm.
    pose proof (Z.mod_pos_bound M (2 ^ k) Hpk) as Hmod.
    destruct (Z.eq_dec (M mod 2 ^ k) 0) as [Hz|Hnz].
    - assert (Hl : loc_of_shr_record r1 = loc_Exact).
      { apply (Hex (M / 2 ^ k)); lia. }
      subst m2. rewrite Hl. cbn [round_nearest_even]. exact Hfloor.
    - assert (shr_m r1 < N1); [|lia].
      rewrite Hm1.
      destruct (Z_lt_le_dec (M / 2 ^ k) N1) as [|Hge]; [assumption|exfalso].
      assert (N1 * 2 ^ k <= M / 2 ^ k * 2 ^ k)
        by (apply Z.mul_le_mono_nonneg_r; lia).
      lia. }
  assert (Hm2pos : 0 <= m2) by lia.
  assert (HN1 : N1 < 2 ^ (53 - e1)).
  { subst N1. replace (53 - e1) with (53 + - e1) by lia.
    rewrite Z.pow_add_r by lia. apply Z.mul_lt_mono_pos_r; lia. }
  assert (Hd2 : Zdigits2 m2 + e1 <= 53).
  { assert (H : Zdigits2 m2 <= 53 - e1) by (apply Zdigits2_le; lia). lia. }
  pose proof (shr_fexp_spec m2 e1 loc_Exact Hm2pos) as H2. cbv zeta in H2.
  destruct (shr_fexp prec emax m2 e1 loc_Exact) as [r2 e2]. cbn [fst snd] in H2.
  destruct H2 as [Hm3 He2]. rewrite fexp_eq in *.
  set (k2 := Z.max 0 (Z.max (Zdigits2 m2 + e1 - 53) (-1074) - e1)) in *.
  assert (Hk2 : 0 <= k2) by (subst k2; lia).
  assert (Hpk2 : 0 < 2 ^ k2) by (apply Z.pow_pos_nonneg; lia).
  assert (He2' : e2 <= 0) by (subst k2; lia).
  assert (HT2 : 0 < 2 ^ (- e2)) by (apply Z.pow_pos_nonneg; lia).
  assert (Hsplit2 : 2 ^ (- e1) = 2 ^ (- e2) * 2 ^ k2).
  { rewrite <- Z.pow_add_r by lia. f_equal. lia. }
  assert (Hm3le : shr_m r2 <= N * 2 ^ (- e2)).
  { rewrite Hm3. apply Z.div_le_upper_bound; [lia|].
    subst N1. rewrite Hsplit2 in Hm2. lia. }
  assert (Hm3pos : 0 <= shr_m r2) by (rewrite Hm3; apply Z.div_pos; lia).
  assert (Hexact : M = N * 2 ^ (- E) -> shr_m r2 = N * 2 ^ (- e2)).
  { intros HMN.
    assert (H1 : shr_m r1 = N1).
    { rewrite Hm1, HMN, Hsplit. subst N1.
      rewrite Z.mul_assoc. apply Z.div_mul. lia. }
    assert (H2 : m2 = N1) by lia.
    rewrite Hm3, H2. subst N1. rewrite Hsplit2.
    rewrite Z.mul_assoc. apply Z.div_mul. lia. }
  destruct (shr_m r2) as [|m3|m3] eqn:E3.
  - exists 0. split; [reflexivity|]. split; [lia|].
    intros HMN. specialize (Hexact HMN). exfalso. nia.
  - assert (Hfin : (e2 <=? emax - prec) = true)
      by (apply Z.leb_le; unfold emax, prec; lia).
    rewrite Hfin. cbn [int_of_float cond_Zopp].
    eexists. split; [reflexivity|].
    rewrite Z.shiftl_div_pow2 by lia.
    split; [split; [apply Z.div_pos; lia|];
            apply Z.div_le_upper_bound; lia|].
    intros HMN. specialize (Hexact HMN). split.
    + rewrite Hexact. apply Z.div_mul. lia.
    + unfold float_eq_int, float_compare_int. cbn [cond_Zopp].
      destruct (0 <=? e2) eqn:L0.
      * apply Z.leb_le in L0. assert (He0 : e2 = 0) by lia.
        rewrite He0 in Hexact |- *.
        change (2 ^ 0) with 1. change (2 ^ (- 0)) with 1 in Hexact.
        rewrite Hexact, !Z.mul_1_r, Z.compare_refl. reflexivity.
      * rewrite Hexact, Z.compare_refl. reflexivity.
  - lia.
Qed.

(** A coordinate in the unit interval is zero or a positive double that
    does not exceed one. *)
Lemma unit_interval_le_one (c : float) :
  unit_interval c = true ->
  (exists s, c = S754_zero s)
  \/ exists m e, c = S754_finite false m e /\ e <= -52 /\ Zpos m <= 2 ^ (- e).
Proof.
  unfold unit_interval. rewrite Z2SF_0, Z2SF_1.
  intros H. apply andb_prop in H. destruct H as [H H1].
  apply andb_prop in H. destruct H as [Hv H0].
  destruct c as [s|s| |s m e]; simpl in Hv, H0, H1.
  - left. eauto.
  - destruct s; discriminate.
  - discriminate.
  - right. destruct s; [discriminate|]. exists m, e. split; [reflexivity|].
    unfold bounded, canonical_mantissa in Hv.
    apply andb_prop in Hv. destruct Hv as [Hc _].
    apply Z.eqb_eq in Hc. rewrite fexp_eq in Hc.
    pose proof (digits2_pos_bounds m) as [_ Hu].
    unfold fle, SFleb, SFcompare in H1.
    destruct (Z.compare_spec e (-52)) as [E|E|E]; try discriminate.
    + split; [lia|]. subst e. change (- -52) with 52.
      destruct (Pos.compare_cont Eq m 4503599627370496) eqn:C;
        try discriminate.
      * apply Pos.compare_eq in C. subst m. reflexivity.
      * assert (C' : (m < 4503599627370496)%positive) by exact C.
        apply Pos2Z.pos_lt_pos in C'.
        assert (E52 : 2 ^ 52 = Zpos 4503599627370496) by reflexivity.
        rewrite E52. lia.
    + split; [lia|].
      assert (Hd : Zpos (digits2_pos m) <= 53) by lia.
      apply Z.le_trans with (2 ^ 53).
      * assert (2 ^ Zpos (digits2_pos m) <= 2 ^ 53)
          by (apply Z.pow_le_mono_r; lia).
        lia.
      * apply Z.pow_le_mono_r; lia.
Qed.

(** ** Pixels within the frame *)

Lemma to_pixel_within (c : float) (n : Z) :
  unit_interval c = true -> 0 <= n < 2 ^ 53 ->
  exists p, to_pixel c n = Return p /\ 0 <= p <= n.
Proof.
  intros Hc Hn. unfold to_pixel, float_mul_int, float_of_int.
  destruct (Z.eq_dec n 0) as [->|Hnz].
  - rewrite Z2SF_0. cbn [bind]. exists 0. split; [|lia].
    destruct (unit_interval_le_one c Hc) as [[s ->]|(m & e & -> & _)];
      reflexivity.
  - unfold Z2SF, binary_normalize.
    destruct n as [|pn|pn]; [lia| |lia].
    assert (Hd : Zpos (digits2_pos pn) <= 53).
    { change (Zpos (digits2_pos pn)) with (Zdigits2 (Zpos pn)).
      apply Zdigits2_le; lia. }
    destruct (binary_round_exact false pn Hd) as (mn & en & -> & Hen & Hmn).
    cbn [bind].
    destruct (unit_interval_le_one c Hc) as [[s ->]|(m & e & -> & He & Hm)].
    + exists 0. split; [reflexivity | lia].
    + unfold fmul, SFmul. cbn [xorb].
      destruct (binary_round_aux_below (Zpos (m * mn)) (e + en) (Zpos pn))
        as (p & Hp & Hb & _); try lia.
      * rewrite Pos2Z.inj_mul, Hmn.
        replace (- (e + en)) with (- en + - e) by lia.
        rewrite Z.pow_add_r by lia.
        assert (0 < 2 ^ (- en)) by (apply Z.pow_pos_nonneg; lia).
        assert (0 < 2 ^ (- e)) by (apply Z.pow_pos_nonneg; lia).
        nia.
      * exists p. split; assumption.
Qed.

(** A coordinate of exactly one is scaled to the full width or height. *)
Lemma to_pixel_one (n : Z) : 0 <= n < 2 ^ 53 -> to_pixel (Z2SF 1) n = Return n.
Proof.
  intros Hn. unfold to_pixel, float_mul_int, float_of_int.
  destruct (Z.eq_dec n 0) as [->|Hnz]; [reflexivity|].
  rewrite Z2SF_1. unfold Z2SF, binary_normalize.
  destruct n as [|pn|pn]; [lia| |lia].
  assert (Hd : Zpos (digits2_pos pn) <= 53).
  { change (Zpos (digits2_pos pn)) with (Zdigits2 (Zpos pn)).
    apply Zdigits2_le; lia. }
  destruct (binary_round_exact false pn Hd) as (mn & en & -> & Hen & Hmn).
  cbn [bind]. unfold fmul, SFmul. cbn [xorb].
  destruct (binary_round_aux_below (Zpos (4503599627370496 * mn)) (-52 + en)
              (Zpos pn)) as (p & Hp & _ & Hx); try lia.
  - rewrite Pos2Z.inj_mul, Hmn.
    replace (- (-52 + en)) with (- en + 52) by lia.
    rewrite Z.pow_add_r by lia.
    assert (E52 : 2 ^ 52 = Zpos 4503599627370496) by reflexivity.
    rewrite E52. lia.
  - rewrite Hp. f_equal. apply Hx.
    rewrite Pos2Z.inj_mul, Hmn.
    replace (- (-52 + en)) with (- en + 52) by lia.
    rewrite Z.pow_add_r by lia.
    assert (E52 : 2 ^ 52 = Zpos 4503599627370496) by reflexivity.
    rewrite E52. lia.
Qed.

(** X19: a coordinate between 0 and 1 is scaled to a pixel between 0 and
    the width (or height) it is scaled by, both included: a coordinate of 0
    gives pixel 0, and a coordinate of exactly 1 gives the width itself, one
    past the last column. *)
Theorem to_pixel_within_frame :
  forall (c : float) (n : Z),
    unit_interval c = true -> 0 <= n < 2 ^ 53 ->
    (exists p, to_pixel c n = Return p /\ 0 <= p <= n)
    /\ to_pixel (Z2SF 0) n = Return 0
    /\ to_pixel (Z2SF 1) n = Return n.
Proof.
  intros c n Hc Hn. split; [apply to_pixel_within; assumption|].
  split; [|apply to_pixel_one; exact Hn].
  destruct (to_pixel_within (Z2SF 0) n) as (p & Hp & _);
    [reflexivity | exact Hn |].
  unfold to_pixel, float_mul_int, float_of_int in *.
  destruct (Z2SF n) as [s|s| |s m e]; cbn [bind] in *; try discriminate Hp;
    reflexivity.
Qed.

Lemma to_pixel_within_frame_witness :
  (exists p, to_pixel (literal 1 3) 640 = Return p /\ 0 <= p <= 640)
  /\ to_pixel (Z2SF 0) 640 = Return 0
  /\ to_pixel (Z2SF 1) 640 = Return 640.
Proof.
  apply to_pixel_within_frame;
    [vm_compute; reflexivity | vm_compute; split; [discriminate | reflexivity]].
Defined.

(** X20: in a frame of ordinary size, when the ears, shoulders and hips of
    the detection have normalised coordinates, every point of the landmark
    map of the full assessment, the three midpoints included, lies between
    (0, 0) and (width, height). *)
Theorem landmarks_within_frame :
  forall (txt : nat -> string) (lm : list MediaPipe.landmark)
         (frame : cv2.frame) (a : assessment),
    analyze_posture txt (Some (MediaPipe.PoseResults (Some lm))) frame
    = Return (Full a) ->
    (forall p l, p <> MediaPipe.NOSE -> p <> MediaPipe.LEFT_EYE ->
                 p <> MediaPipe.RIGHT_EYE ->
                 MediaPipe.landmark_at lm p = Some l ->
                 MediaPipe.normalized l = true) ->
    0 <= cv2.rows frame < 2 ^ 53 -> 0 <= cv2.cols frame < 2 ^ 53 ->
    Forall (fun entry : string * cv2.point =>
              0 <= fst (snd entry) <= cv2.cols frame
              /\ 0 <= snd (snd entry) <= cv2.rows frame)
           (landmarks a).
Proof.
  intros txt lm frame a H Hnorm Hrows Hcols.
  destruct (analyze_posture_Full_source _ _ _ _ H) as (res & lm' & R & L' & E).
  injection R as <-. cbn [MediaPipe.pose_landmarks] in L'.
  injection L' as <-.
  destruct (analyze_landmarks_Full_inv txt lm _ _ a E)
    as (le & re & ls & rs & lh & rh & lsx & lsy & rsx & rsy & lex & ley
        & rex & rey & lhx & lhy & rhx & rhy & Hat & _ & Hpx & _ & L & _).
  destruct Hat as (Hle & Hre & Hls & Hrs & Hlh & Hrh).
  destruct Hpx as ((Plsx & Plsy) & (Prsx & Prsy) & (Plex & Pley)
                   & (Prex & Prey) & (Plhx & Plhy) & (Prhx & Prhy)).
  assert (Hpix : forall p l px py,
            p <> MediaPipe.NOSE -> p <> MediaPipe.LEFT_EYE ->
            p <> MediaPipe.RIGHT_EYE ->
            MediaPipe.landmark_at lm p = Some l ->
            to_pixel (MediaPipe.x l) (cv2.cols frame) = Return px ->
            to_pixel (MediaPipe.y l) (cv2.rows frame) = Return py ->
            0 <= px <= cv2.cols frame /\ 0 <= py <= cv2.rows frame).
  { intros p l px py H0 H2 H5 Hat Hx Hy.
    pose proof (Hnorm p l H0 H2 H5 Hat) as Hn.
    unfold MediaPipe.normalized in Hn. apply andb_prop in Hn.
    destruct Hn as [Hnx Hny].
    destruct (to_pixel_within _ _ Hnx Hcols) as (px' & Ex & Bx).
    destruct (to_pixel_within _ _ Hny Hrows) as (py' & Ey & By).
    rewrite Ex in Hx. rewrite Ey in Hy.
    injection Hx as <-. injection Hy as <-. split; assumption. }
  destruct (Hpix MediaPipe.LEFT_SHOULDER _ _ _ ltac:(discriminate)
              ltac:(discriminate) ltac:(discriminate) Hls Plsx Plsy) as [Blsx Blsy].
  destruct (Hpix MediaPipe.RIGHT_SHOULDER _ _ _ ltac:(discriminate)
              ltac:(discriminate) ltac:(discriminate) Hrs Prsx Prsy) as [Brsx Brsy].
  destruct (Hpix MediaPipe.LEFT_EAR _ _ _ ltac:(discriminate)
              ltac:(discriminate) ltac:(discriminate) Hle Plex Pley) as [Blex Bley].
  destruct (Hpix MediaPipe.RIGHT_EAR _ _ _ ltac:(discriminate)
              ltac:(discriminate) ltac:(discriminate) Hre Prex Prey) as [Brex Brey].
  destruct (Hpix MediaPipe.LEFT_HIP _ _ _ ltac:(discriminate)
              ltac:(discriminate) ltac:(discriminate) Hlh Plhx Plhy) as [Blhx Blhy].
  destruct (Hpix MediaPipe.RIGHT_HIP _ _ _ ltac:(discriminate)
              ltac:(discriminate) ltac:(discriminate) Hrh Prhx Prhy) as [Brhx Brhy].
  assert (Hmid : forall u v n, 0 <= u <= n -> 0 <= v <= n ->
                               0 <= (u + v) / 2 <= n).
  { intros u v n Hu Hv. split.
    - apply Z.div_pos; lia.
    - apply Z.div_le_upper_bound; lia. }
  rewrite L.
  repeat (apply Forall_cons; [cbn [fst snd]; split; auto|]).
  apply Forall_nil.
Qed.

Lemma landmarks_within_frame_witness :
  exists a,
    analyze_posture Sample.index_error_text
      (Some (MediaPipe.PoseResults (Some Sample.upright))) Sample.frame
    = Return (Full a)
    /\ Forall (fun entry : string * cv2.point =>
                 0 <= fst (snd entry) <= cv2.cols Sample.frame
                 /\ 0 <= snd (snd entry) <= cv2.rows Sample.frame)
              (landmarks a).
Proof.
  destruct upright_analysed as (a & E & _).
  exists a. split; [exact E|].
  apply (landmarks_within_frame Sample.index_error_text Sample.upright
           Sample.frame a E).
  - intros p l H0 H2 H5 Hat.
    destruct p; try contradiction; injection Hat as <-;
      vm_compute; reflexivity.
  - vm_compute. split; [discriminate | reflexivity].
  - vm_compute. split; [discriminate | reflexivity].
Defined.

(** ** Distances that are whole numbers *)

Lemma sqrtrem_square (K q r : Z) :
  0 <= K -> K * K = q * q + r -> 0 <= r <= 2 * q -> q = K /\ r = 0.
Proof.
  intros HK Hq Hr.
  assert (H : q = K); [|split; [exact H | subst q; lia]].
  destruct (Z.lt_trichotomy q K) as [Hlt|[Heq|Hgt]]; [exfalso|exact Heq|exfalso].
  - assert (q + 1 <= K) by lia.
    assert ((q + 1) * (q + 1) <= K * K) by (apply Z.mul_le_mono_nonneg; lia).
    lia.
  - assert (K + 1 <= q) by lia.
    assert ((K + 1) * (K + 1) <= q * q) by (apply Z.mul_le_mono_nonneg; lia).
    lia.
Qed.

(** The square root of the double of a perfect square is the double of its
    root: nothing is rounded. *)
Lemma fsqrt_square (k : Z) :
  0 < k < 2 ^ 26 -> float_eq_int (fsqrt (Z2SF (k * k))) k = true.
Proof.
  intros Hk.
  assert (Hkk : 0 < k * k < 2 ^ 53).
  { split; [nia|]. change (2 ^ 53) with (2 ^ 26 * 2 ^ 26 * 2).
    assert (k * k < 2 ^ 26 * 2 ^ 26) by (apply Z.mul_lt_mono_nonneg; lia).
    lia. }
  unfold Z2SF, binary_normalize.
  destruct (k * k) as [|pn|pn] eqn:En; [lia| |lia].
  assert (Hd : Zpos (digits2_pos pn) <= 53).
  { change (Zpos (digits2_pos pn)) with (Zdigits2 (Zpos pn)).
    apply Zdigits2_le; lia. }
  destruct (binary_round_exact false pn Hd) as (mn & en & -> & Hen & Hmn).
  unfold fsqrt, SFsqrt, SFsqrt_core_binary.
  set (e' := Z.min (fexp prec emax
                      (Z.div2 (Zdigits2 (Zpos mn) + en + 1))) (Z.div2 en)).
  assert (He2 : 2 * Z.div2 en <= en <= 2 * Z.div2 en + 1).
  { pose proof (Z.div2_odd en) as H. destruct (Z.odd en); cbn [Z.b2z] in H; lia. }
  assert (He' : e' <= 0) by (subst e'; lia).
  assert (Hs : 0 <= en - 2 * e') by (subst e'; lia).
  set (m' := match en - 2 * e' with
             | 0 => Zpos mn
             | Zpos _ => Z.shiftl (Zpos mn) (en - 2 * e')
             | Zneg _ => 0
             end).
  assert (Hm' : m' = Zpos mn * 2 ^ (en - 2 * e')).
  { subst m'. destruct (en - 2 * e') as [|p|p] eqn:Es.
    - simpl. lia.
    - rewrite Z.shiftl_mul_pow2 by lia. reflexivity.
    - lia. }
  assert (Hp : 0 < 2 ^ (- e')) by (apply Z.pow_pos_nonneg; lia).
  assert (Hsq : m' = (k * 2 ^ (- e')) * (k * 2 ^ (- e'))).
  { rewrite Hm', Hmn, <- En.
    replace (k * 2 ^ (- e') * (k * 2 ^ (- e')))
      with (k * k * (2 ^ (- e') * 2 ^ (- e'))) by lia.
    rewrite <- !Z.mul_assoc. f_equal. f_equal.
    rewrite <- !Z.pow_add_r by lia. f_equal. lia. }
  pose proof (Z.sqrtrem_spec m' ltac:(rewrite Hsq; nia)) as Hspec.
  destruct (Z.sqrtrem m') as [q r]. destruct Hspec as [Hq Hr].
  rewrite Hsq in Hq.
  destruct (sqrtrem_square (k * 2 ^ (- e')) q r ltac:(nia) Hq Hr) as [-> ->].
  cbn [Z.eqb].
  destruct (binary_round_aux_below (k * 2 ^ (- e')) e' k)
    as (p & _ & _ & Hx); try lia; try nia.
  apply Hx. reflexivity.
Qed.

(** X21: a distance that is a whole number is computed exactly: when the
    squared differences of the coordinates add up to the square of a whole
    number below 2^26, [find_distance] returns the double equal to it.  So
    the distance of two level shoulders is their horizontal distance. *)
Theorem find_distance_whole :
  forall (x1 y1 x2 y2 k : Z),
    0 <= k < 2 ^ 26 ->
    (x2 - x1) ^ 2 + (y2 - y1) ^ 2 = k ^ 2 ->
    exists d,
      find_distance x1 y1 x2 y2 = Return d /\ float_eq_int d k = true.
Proof.
  intros x1 y1 x2 y2 k Hk Hsum. unfold find_distance. rewrite Hsum.
  rewrite Z.pow_2_r. unfold math_sqrt.
  destruct (Z.eq_dec k 0) as [->|Hnz].
  - exists (S754_zero false). split; reflexivity.
  - assert (Hkk : 0 <= k * k < 2 ^ 1023).
    { split; [nia|]. apply Z.lt_trans with (2 ^ 26 * 2 ^ 26).
      - apply Z.mul_lt_mono_nonneg; lia.
      - reflexivity. }
    destruct (float_of_int_nonneg (k * k) Hkk) as (f & -> & <- & Hnn & _).
    cbn [bind].
    exists (fsqrt (Z2SF (k * k))). split.
    + destruct Hnn as [->|(m & e & ->)]; reflexivity.
    + apply fsqrt_square. lia.
Qed.

Lemma find_distance_whole_witness :
  exists d, find_distance 100 200 103 204 = Return d
            /\ float_eq_int d 5 = true.
Proof.
  apply find_distance_whole; [vm_compute; split; [discriminate | reflexivity]
                             | reflexivity].
Defined.

(** ** The sign of the forward head ratio *)

Lemma SFdiv_core_binary_nonneg (m1 m2 : positive) (e1 e2 : Z) :
  0 <= fst (fst (SFdiv_core_binary prec emax (Zpos m1) e1 (Zpos m2) e2)).
Proof.
  unfold SFdiv_core_binary.
  set (m' := match _ with 0 => Zpos m1 | Zpos _ => _ | Zneg _ => 0 end).
  assert (Hm' : 0 <= m').
  { subst m'. destruct (_ - _ - _); try lia. apply Z.shiftl_nonneg. lia. }
  pose proof (Z_div_mod m' (Zpos m2) ltac:(lia)) as H.
  destruct (Z.div_eucl m' (Zpos m2)) as [q r]. cbn [fst].
  destruct H as [Hq Hr]. nia.
Qed.

Lemma fdiv_nonneg (g f : float) :
  nonneg_finite g ->
  f = S754_infinity false \/ (exists m e, f = S754_finite false m e) ->
  is_nan (fdiv g f) = false /\ sign_bit (fdiv g f) = false.
Proof.
  intros Hg Hf. unfold fdiv, SFdiv.
  destruct Hg as [->|(mg & eg & ->)], Hf as [->|(m & e & ->)];
    try (split; reflexivity).
  pose proof (SFdiv_core_binary_nonneg mg m eg e) as Hq.
  destruct (SFdiv_core_binary prec emax (Zpos mg) eg (Zpos m) e) as [[q e'] l].
  cbn [fst] in Hq. cbn [xorb].
  destruct (binary_round_aux_sign false q e' l Hq) as [H|[H|(m' & e'' & H)]];
    rewrite H; split; reflexivity.
Qed.

Lemma flt_false_fle (a b : float) :
  is_nan a = false -> is_nan b = false ->
  (flt a b = false <-> fle b a = true).
Proof.
  intros Ha Hb. unfold flt, fle, SFltb, SFleb.
  rewrite (SFcompare_antisym a b).
  destruct (SFcompare a b) as [[]|] eqn:C; cbn [option_map CompOpp];
    try (split; intros H; try reflexivity; discriminate H).
  exfalso. destruct a, b; simpl in *; discriminate.
Qed.

(** X22: the forward head ratio is the int 0 or a double that is neither
    negative nor not-a-number, so the comparison with 0.2 decides: the head
    position is judged bad exactly when the ratio is a double of at least
    0.2. *)
Theorem forward_head_ratio_sign :
  forall (txt : nat -> string) (results : option MediaPipe.pose_results)
         (frame : cv2.frame) (a : assessment),
    analyze_posture txt results frame = Return (Full a) ->
    (forward_head_ratio a = PyInt 0
     \/ exists f, forward_head_ratio a = PyFloat f
                  /\ is_nan f = false /\ sign_bit f = false)
    /\ (is_head_position_good a = false
        <-> exists f, forward_head_ratio a = PyFloat f
                      /\ fle forward_head_threshold f = true).
Proof.
  intros txt results frame a H.
  destruct (analyze_posture_Full_source txt results frame a H)
    as (res & lm & _ & _ & E).
  destruct (analyze_landmarks_judgments _ _ _ _ _ E) as (_ & _ & _ & Hh & _).
  destruct (analyze_landmarks_Full_inv txt lm _ _ a E)
    as (le & re & ls & rs & lh & rh & lsx & lsy & rsx & rsy & lex & ley
        & rex & rey & lhx & lhy & rhx & rhy & _ & _ & _ & _ & _ & _ & _ & _
        & _ & F).
  assert (R : forward_head_ratio a = PyInt 0
              \/ exists f, forward_head_ratio a = PyFloat f
                           /\ is_nan f = false /\ sign_bit f = false).
  { destruct (float_gt_int (shoulder_distance a) 0) eqn:G; [|left; exact F].
    right. destruct F as (q & Eq & ->). exists q. split; [reflexivity|].
    unfold int_truediv_float in Eq.
    destruct (float_of_int _) as [g|e] eqn:Eg; cbn [bind] in Eq;
      [|discriminate Eq].
    apply float_of_int_nonneg_Return in Eg; [|lia].
    rewrite (float_gt_int_not_zero _ G) in Eq. injection Eq as <-.
    apply fdiv_nonneg; [exact Eg|].
    apply float_gt_int_zero_cases. exact G. }
  split; [exact R|].
  rewrite Hh. destruct R as [-> | (f & -> & Hn & _)]; cbn [num_lt_float].
  - split.
    + intros C. vm_compute in C. discriminate C.
    + intros (f & C & _). discriminate C.
  - split.
    + intros C. exists f. split; [reflexivity|].
      apply flt_false_fle; [exact Hn | reflexivity | exact C].
    + intros (f' & C & L). injection C as <-.
      apply flt_false_fle; [exact Hn | reflexivity | exact L].
Qed.

Lemma forward_head_ratio_sign_witness :
  exists a,
    analyze_posture Sample.index_error_text (Sample.results Sample.upright)
      Sample.frame = Return (Full a)
    /\ (forward_head_ratio a = PyInt 0
        \/ exists f, forward_head_ratio a = PyFloat f
                     /\ is_nan f = false /\ sign_bit f = false)
    /\ (is_head_position_good a = false
        <-> exists f, forward_head_ratio a = PyFloat f
                      /\ fle forward_head_threshold f = true).
Proof.
  destruct upright_analysed as (a & E & _).
  exists a. split; [exact E|].
  apply (forward_head_ratio_sign _ _ _ a E).
Defined.
